(** * everest: entity equality and the in-memory unit of work

    A shallow embedding of [everest/entities/base.py] ([Entity.__eq__]) and
    of [everest/repositories/memory/uow.py] ([OBJECT_STATES],
    [EntityStateManager], [UnitOfWork]).

    Python objects live in a heap indexed by their identity; every object
    carries its class and its instance [__dict__].  Methods are computations
    in a state-and-exception monad over that heap: an exception leaves the
    mutations made before it in place, as in Python. *)

From Stdlib Require Import ZArith DecimalString.
From stdpp Require Import base option strings list gmap fin_maps fin_sets.

Set Default Proof Using "Type".
Open Scope string_scope.

(** ** Values, objects and the heap *)

(** Object identity ([id(obj)]). *)
Abbreviation addr := nat.

(** The values an attribute can hold.  [VWeak] is a [weakref.ref]. *)
Inductive value : Type :=
  | VNone
  | VInt (z : Z)
  | VStr (s : string)
  | VRef (a : addr)
  | VWeak (a : addr).

Global Instance value_eq_dec : EqDecision value.
Proof. solve_decision. Defined.

(** A class, known by its name and by the rest of its [__mro__]. *)
Record pyclass : Type := PyClass {
  c_name : string;
  c_bases : list string
}.

Global Instance pyclass_eq_dec : EqDecision pyclass.
Proof. solve_decision. Defined.

(** An object: its class and its instance [__dict__]. *)
Record object : Type := Object {
  ob_class : pyclass;
  ob_dict : gmap string value
}.

(** A unit of work owns [__entity_set_map], a [defaultdict(WeakSet)] from the
    entity class key to the entities tracked under it.  [Entity] defines
    [__eq__] and inherits the identity hash, so members are told apart by
    identity.  Garbage collection of members is not modelled. *)
Record world : Type := World {
  w_heap : gmap addr object;
  w_uows : gmap nat (gmap string (gset addr))
}.

(** ** Exceptions and the monad *)

Inductive exn : Type :=
  | ValueError (msg : string)
  | AttributeError (obj : value) (attr : string)
  | KeyError (key : addr)
  | TypeError (callee : value)
  | DanglingRef (a : addr).   (* no object at [a]: Python cannot build such a reference *)

Inductive outcome (A : Type) : Type :=
  | Return (a : A)
  | Raise (e : exn).
Arguments Return {A} a.
Arguments Raise {A} e.

Definition M (A : Type) : Type := world → outcome A * world.

Global Instance M_ret : MRet M := λ A a w, (Return a, w).
Global Instance M_bind : MBind M := λ A B f m w,
  match m w with
  | (Return a, w') => f a w'
  | (Raise e, w') => (Raise e, w')
  end.

Definition raise {A} (e : exn) : M A := λ w, (Raise e, w).
Definition get_heap : M (gmap addr object) := λ w, (Return (w_heap w), w).
Definition put_heap (h : gmap addr object) : M unit :=
  λ w, (Return tt, World h (w_uows w)).

(** Runs [f] on the elements of [l] from left to right (a [for] loop). *)
Fixpoint for_each {A} (l : list A) (f : A → M unit) : M unit :=
  match l with
  | [] => mret tt
  | x :: l' => f x ≫= λ _, for_each l' f
  end.

(** ** Object primitives *)

Definition deref (a : addr) : M object :=
  h ← get_heap;
  match h !! a with
  | Some o => mret o
  | None => raise (DanglingRef a)
  end.

(** [object.__new__(cls)]: a new object with an empty [__dict__]. *)
Definition object_new (cls : pyclass) : M addr :=
  h ← get_heap;
  let a := fresh (dom h) in
  put_heap (<[a := Object cls ∅]> h) ≫= λ _, mret a.

(** [hasattr(obj, name)], classes defining no attribute of that name. *)
Definition hasattr (a : addr) (name : string) : M bool :=
  o ← deref a;
  mret (bool_decide (is_Some (ob_dict o !! name))).

(** [obj.name] read from the instance [__dict__]. *)
Definition getattr (a : addr) (name : string) : M value :=
  o ← deref a;
  match ob_dict o !! name with
  | Some v => mret v
  | None => raise (AttributeError (VRef a) name)
  end.

(** [setattr(obj, name, v)]. *)
Definition setattr (a : addr) (name : string) (v : value) : M unit :=
  o ← deref a;
  h ← get_heap;
  put_heap (<[a := Object (ob_class o) (<[name := v]> (ob_dict o))]> h).

(** [delattr(obj, name)]. *)
Definition delattr (a : addr) (name : string) : M unit :=
  o ← deref a;
  match ob_dict o !! name with
  | Some _ =>
      h ← get_heap;
      put_heap (<[a := Object (ob_class o) (delete name (ob_dict o))]> h)
  | None => raise (AttributeError (VRef a) name)
  end.

(** [name.startswith('_')]. *)
Definition startswith_underscore (name : string) : bool := String.prefix "_" name.

(** [isinstance(obj, cls)]: [cls] occurs in the [__mro__] of [obj]'s class. *)
Definition isinstance (o : object) (cls : pyclass) : bool :=
  bool_decide (c_name cls ∈ c_name (ob_class o) :: c_bases (ob_class o)).

(** The builtins the code calls and the embedding leaves open: [hash] on
    [str], and the rendering of an object by ['%s']. *)
Class Builtins : Type := {
  py_hash : string → Z;
  py_repr : value → string
}.

(** ['%s' % v]. *)
Definition py_str `{Builtins} (v : value) : string :=
  match v with
  | VNone => "None"
  | VInt z => NilZero.string_of_int (Z.to_int z)
  | VStr s => s
  | VRef _ | VWeak _ => py_repr v
  end.

(** ** [class OBJECT_STATES] *)

Module OBJECT_STATES.
Definition CLEAN : value := VStr "CLEAN".
Definition NEW : value := VStr "NEW".
Definition DELETED : value := VStr "DELETED".
Definition DIRTY : value := VStr "DIRTY".
End OBJECT_STATES.

(** ** [class EntityStateManager] *)

Module EntityStateManager.
Import OBJECT_STATES.

Definition cls : pyclass := PyClass "EntityStateManager" ["object"].

(** The private attributes, under their mangled names. *)
Definition obj_ref_attr : string := "_EntityStateManager__obj_ref".
Definition state_attr : string := "_EntityStateManager__state".
Definition last_state_hash_attr : string := "_EntityStateManager__last_state_hash".

Definition __allowed_transitions : list (value * value) :=
  [ (VNone, NEW);
    (VNone, CLEAN);
    (NEW, CLEAN);
    (NEW, DELETED);
    (CLEAN, DIRTY);
    (CLEAN, DELETED);
    (DIRTY, CLEAN);
    (DIRTY, DELETED) ].

(** The public part of a [__dict__]. *)
Definition public_items (d : gmap string value) : gmap string value :=
  filter (λ kv : string * value, startswith_underscore kv.1 = false) d.

Definition get_state_data (entity : addr) : M (gmap string value) :=
  o ← deref entity;
  mret (public_items (ob_dict o)).

Definition set_state_data (entity : addr) (data : gmap string value) : M unit :=
  for_each (map_to_list data) (λ kv, setattr entity kv.1 kv.2).

Section methods.
Context `{Builtins}.

(** [data] is taken from [self], the state manager, not from the entity
    it refers to. *)
Definition __get_state_string (self : addr) : M string :=
  data ← get_state_data self;
  let tokens := (λ kv : string * value, kv.1 ++ ":" ++ py_str kv.2) <$> map_to_list data in
  mret (String.concat "," tokens).

Definition __init__ (entity : addr) : M addr :=
  self ← object_new cls;
  setattr self obj_ref_attr (VWeak entity) ;;
  setattr self state_attr VNone ;;
  s ← __get_state_string self;
  setattr self last_state_hash_attr (VInt (py_hash s)) ;;
  mret self.

Definition __get_state (self : addr) : M value :=
  state ← getattr self state_attr;
  if bool_decide (state = CLEAN) then
    s ← __get_state_string self;
    let obj_hash := VInt (py_hash s) in
    last ← getattr self last_state_hash_attr;
    if bool_decide (obj_hash ≠ last) then mret DIRTY else mret state
  else mret state.

Definition invalid_transition_msg (from to : value) : string :=
  "Invalid state transition " ++ py_str from ++ " -> " ++ py_str to ++ ".".

Definition __set_state (self : addr) (state : value) : M unit :=
  cur ← __get_state self;
  if negb (bool_decide ((cur, state) ∈ __allowed_transitions)) then
    stored ← getattr self state_attr;
    raise (ValueError (invalid_transition_msg stored state))
  else setattr self state_attr state.

Definition reset_state (self : addr) : M unit :=
  __set_state self CLEAN ;;
  s ← __get_state_string self;
  setattr self last_state_hash_attr (VInt (py_hash s)).

(** [v.state], [v.state = state] and [v.reset_state()] for an arbitrary
    value [v]: the property and the method exist on state managers only. *)
Definition state_get (v : value) : M value :=
  match v with
  | VRef m =>
      o ← deref m;
      if isinstance o cls then __get_state m else getattr m "state"
  | _ => raise (AttributeError v "state")
  end.

Definition state_set (v : value) (state : value) : M unit :=
  match v with
  | VRef m =>
      o ← deref m;
      if isinstance o cls then __set_state m state else setattr m "state" state
  | _ => raise (AttributeError v "state")
  end.

Definition call_reset_state (v : value) : M unit :=
  match v with
  | VRef m =>
      o ← deref m;
      if isinstance o cls then reset_state m
      else f ← getattr m "reset_state"; raise (TypeError f)
  | _ => raise (AttributeError v "reset_state")
  end.

Definition clone (entity : addr) : M addr :=
  o ← deref entity;
  clone ← object_new (ob_class o);
  data ← get_state_data entity;
  set_state_data clone data ;;
  mret clone.

Definition track (entity : addr) (state : value) : M unit :=
  m ← __init__ entity;
  setattr entity "__everest__" (VRef m) ;;
  mgr ← getattr entity "__everest__";
  state_set mgr state.

End methods.
End EntityStateManager.

(** ** [class UnitOfWork] *)

Module UnitOfWork.
Import OBJECT_STATES.

(** A generator run to its end: the values yielded, in order, and the
    exception that ended it, if one did. *)
Definition Gen (A : Type) : Type := world → (list A * option exn) * world.

(** A loop body, which computes what it yields. *)
Definition gen_body {A} (m : M (list A)) : Gen A := λ w,
  match m w with
  | (Return ys, w') => ((ys, None), w')
  | (Raise e, w') => (([], Some e), w')
  end.

Fixpoint gen_for {A B} (l : list A) (body : A → Gen B) : Gen B :=
  match l with
  | [] => λ w, (([], None), w)
  | x :: l' => λ w,
      match body x w with
      | ((ys, None), w') =>
          let '((zs, r), w'') := gen_for l' body w' in (((ys ++ zs)%list, r), w'')
      | ((ys, Some e), w') => ((ys, Some e), w')
      end
  end.

(** [self.__entity_set_map]. *)
Definition entity_set_map (self : nat) : M (gmap string (gset addr)) :=
  λ w, (Return (w_uows w !!! self), w).

Definition put_entity_set_map (self : nat) (m : gmap string (gset addr)) : M unit :=
  λ w, (Return tt, World (w_heap w) (<[self := m]> (w_uows w))).

(** [self.__entity_set_map = defaultdict(WeakSet)]. *)
Definition __init__ (self : nat) : M unit := put_entity_set_map self ∅.

(** [self.__entity_set_map[key]]: a missing key is entered with an empty
    set ([defaultdict]). *)
Definition getitem (self : nat) (key : string) : M (gset addr) :=
  m ← entity_set_map self;
  match m !! key with
  | Some s => mret s
  | None => put_entity_set_map self (<[key := ∅]> m) ;; mret ∅
  end.

(** [self.__entity_set_map[key].add(entity)]. *)
Definition set_add (self : nat) (key : string) (entity : addr) : M unit :=
  s ← getitem self key;
  m ← entity_set_map self;
  put_entity_set_map self (<[key := {[entity]} ∪ s]> m).

(** [self.__entity_set_map[key].remove(entity)]. *)
Definition set_remove (self : nat) (key : string) (entity : addr) : M unit :=
  s ← getitem self key;
  if bool_decide (entity ∈ s) then
    m ← entity_set_map self;
    put_entity_set_map self (<[key := s ∖ {[entity]}]> m)
  else raise (KeyError entity).

Section methods.
Context `{Builtins}.

Definition register_new (self : nat) (entity_class : string) (entity : addr) : M unit :=
  tracked ← hasattr entity "__everest__";
  if (tracked : bool) then
    raise (ValueError "Trying to register a NEW entity that has already been registered!")
  else
    EntityStateManager.track entity NEW ;;
    set_add self entity_class entity.

Definition register_clean (self : nat) (entity_class : string) (entity : addr) : M addr :=
  clone ← EntityStateManager.clone entity;
  EntityStateManager.track clone CLEAN ;;
  set_add self entity_class entity ;;
  mret clone.

Definition unregister (self : nat) (entity_class : string) (entity : addr) : M unit :=
  tracked ← hasattr entity "__everest__";
  if negb tracked then
    raise (A:=unit) (ValueError "Trying to unregister an entity that has not been registered yet!")
  else
    set_remove self entity_class entity ;;
    delattr entity "__everest__".

Definition mark_clean (self : nat) (entity_class : string) (entity : addr) : M unit :=
  tracked ← hasattr entity "__everest__";
  if negb tracked then
    raise (A:=unit) (ValueError "Trying to mark an unregistered entity as CLEAN!")
  else
    mgr ← getattr entity "__everest__";
    EntityStateManager.call_reset_state mgr ;;
    set_add self entity_class entity.

Definition mark_deleted (self : nat) (entity_class : string) (entity : addr) : M unit :=
  tracked ← hasattr entity "__everest__";
  if negb tracked then
    raise (A:=unit) (ValueError "Trying to mark an unregistered entity as DELETED!")
  else
    mgr ← getattr entity "__everest__";
    EntityStateManager.state_set mgr DELETED ;;
    set_add self entity_class entity.

Definition mark_dirty (self : nat) (entity_class : string) (entity : addr) : M unit :=
  tracked ← hasattr entity "__everest__";
  if negb tracked then
    raise (A:=unit) (ValueError "Trying to mark an unregistered entity as DIRTY!")
  else
    mgr ← getattr entity "__everest__";
    EntityStateManager.state_set mgr DIRTY ;;
    set_add self entity_class entity.

Definition __object_iterator (self : nat) (state : value) (ent_cls : option string)
    : Gen addr := λ w,
  let keys :=
    match ent_cls with
    | None => (map_to_list (w_uows w !!! self)).*1
    | Some c => [c]
    end in
  gen_for keys (λ key w1,
    match getitem self key w1 with
    | (Return s, w2) =>
        gen_for (elements s) (λ ent, gen_body (
          mgr ← getattr ent "__everest__";
          st ← EntityStateManager.state_get mgr;
          if bool_decide (st = state) then mret [ent] else mret [])) w2
    | (Raise e, w2) => (([], Some e), w2)
    end) w.

Definition get_clean (self : nat) (entity_class : option string) : Gen addr :=
  __object_iterator self CLEAN entity_class.

Definition get_new (self : nat) (entity_class : option string) : Gen addr :=
  __object_iterator self NEW entity_class.

Definition get_deleted (self : nat) (entity_class : option string) : Gen addr :=
  __object_iterator self DELETED entity_class.

Definition get_dirty (self : nat) (entity_class : option string) : Gen addr :=
  __object_iterator self DIRTY entity_class.

Definition iterator (self : nat) : Gen (string * addr * value) := λ w,
  gen_for (map_to_list (w_uows w !!! self)).*1 (λ ent_cls w1,
    match getitem self ent_cls w1 with
    | (Return s, w2) =>
        gen_for (elements s) (λ ent, gen_body (
          mgr ← getattr ent "__everest__";
          st ← EntityStateManager.state_get mgr;
          mret [(ent_cls, ent, st)])) w2
    | (Raise e, w2) => (([], Some e), w2)
    end) w.

(** [self.__entity_set_map.clear()]. *)
Definition reset (self : nat) : M unit := put_entity_set_map self ∅.

End methods.
End UnitOfWork.

(** ** [class Entity] *)

Module Entity.

(** [self.id]: the instance attribute, else the class attribute [id = None]. *)
Definition id (o : object) : value := default VNone (ob_dict o !! "id").

(** [Entity.__eq__]. *)
Definition __eq__ (self other : object) : bool :=
  isinstance other (ob_class self) && bool_decide (id self = id other).

Definition __ne__ (self other : object) : bool := negb (__eq__ self other).

(** [a == b] and [a != b] for operands whose classes inherit [__eq__] and
    [__ne__] from [Entity].  When the class of the right operand is another
    class than that of the left operand and derives from it, Python calls
    the method of the right operand first, with the operands swapped;
    neither method returns [NotImplemented], so the first call decides. *)
Definition eq_op (a b : object) : bool :=
  if bool_decide (ob_class b ≠ ob_class a) && isinstance b (ob_class a)
  then __eq__ b a
  else __eq__ a b.

Definition ne_op (a b : object) : bool :=
  if bool_decide (ob_class b ≠ ob_class a) && isinstance b (ob_class a)
  then __ne__ b a
  else __ne__ a b.

(** [Entity.__init__(self, id=None)]. *)
Definition __init__ (self : addr) (id : option value) : M unit :=
  setattr self "id" (default VNone id).

(** [cls(id)] for a class [cls] that inherits [__init__] from [Entity]. *)
Definition new (cls : pyclass) (id : option value) : M addr :=
  self ← object_new cls;
  __init__ self id ;;
  mret self.

(** The [slug] property: [str(self.id)]. *)
Definition slug `{Builtins} (self : addr) : M string :=
  o ← deref self;
  mret (py_str (Entity.id o)).

End Entity.

(** ** Vocabulary of the statements *)

(** The object [o] with [name] bound to [v]. *)
Definition with_attr (o : object) (name : string) (v : value) : object :=
  Object (ob_class o) (<[name := v]> (ob_dict o)).



(** The entity at [a] carries a tracking record: [hasattr(a, '__everest__')]. *)
Definition has_record (w : world) (a : addr) : Prop :=
  ∃ o, w_heap w !! a = Some o ∧ is_Some (ob_dict o !! "__everest__").

(** The set tracked by unit of work [u] under [key]. *)
Definition tracked_set (w : world) (u : nat) (key : string) : gset addr :=
  (w_uows w !!! u) !!! key.

(** The entity at [a] is in some tracked set of some unit of work. *)
Definition registered (w : world) (a : addr) : Prop :=
  ∃ u key, a ∈ tracked_set w u key.

Section vocabulary.
Context `{Builtins}.

(** The string [__get_state_string] builds from a [__dict__]. *)
Definition state_string (d : gmap string value) : string :=
  String.concat ","
    ((λ kv : string * value, kv.1 ++ ":" ++ py_str kv.2)
       <$> map_to_list (EntityStateManager.public_items d)).

(** What [__get_state] reads off a state manager whose stored state is [st]
    and whose stored hash is [last]. *)
Definition derived_state (d : gmap string value) (st last : value) : value :=
  if bool_decide (st = OBJECT_STATES.CLEAN) then
    if bool_decide (VInt (py_hash (state_string d)) ≠ last)
    then OBJECT_STATES.DIRTY else st
  else st.

(** A state manager with stored state [st] whose stored hash is the hash of
    its current state string: what [__init__] and [reset_state] leave. *)
Definition tracker (w : world) (self : addr) (st : value) : Prop :=
  ∃ o, w_heap w !! self = Some o
     ∧ isinstance o EntityStateManager.cls = true
     ∧ ob_dict o !! EntityStateManager.state_attr = Some st
     ∧ ob_dict o !! EntityStateManager.last_state_hash_attr
       = Some (VInt (py_hash (state_string (ob_dict o)))).

(** The state manager [EntityStateManager(entity)] builds. *)
Definition fresh_manager (entity : addr) : object :=
  Object EntityStateManager.cls
    (<[EntityStateManager.last_state_hash_attr := VInt (py_hash "")]>
       (<[EntityStateManager.state_attr := VNone]>
          (<[EntityStateManager.obj_ref_attr := VWeak entity]> ∅))).

(** [entity.__everest__.state]. *)
Definition read_state (entity : addr) : M value :=
  mgr ← getattr entity "__everest__";
  EntityStateManager.state_get mgr.

(** The calls that register, mark and unregister. *)
Inductive uow_call : Type :=
  | Register_new (u : nat) (T : string) (e : addr)
  | Mark_clean (u : nat) (T : string) (e : addr)
  | Mark_deleted (u : nat) (T : string) (e : addr)
  | Mark_dirty (u : nat) (T : string) (e : addr)
  | Unregister (u : nat) (T : string) (e : addr).

Definition run_call (c : uow_call) : M unit :=
  match c with
  | Register_new u T e => UnitOfWork.register_new u T e
  | Mark_clean u T e => UnitOfWork.mark_clean u T e
  | Mark_deleted u T e => UnitOfWork.mark_deleted u T e
  | Mark_dirty u T e => UnitOfWork.mark_dirty u T e
  | Unregister u T e => UnitOfWork.unregister u T e
  end.

(** The world after a series of calls, each of which may have raised. *)
Definition run_calls (cs : list uow_call) (w : world) : world :=
  foldl (λ w c, (run_call c w).2) w cs.

End vocabulary.

(** Every entity that carries a tracking record is registered. *)
Definition records_registered (w : world) : Prop :=
  ∀ a, has_record w a → registered w a.

(** From [w] to [w'] no entity gained a record and no tracked set lost a
    member. *)
Definition grows (w w' : world) : Prop :=
  (∀ a, has_record w' a → has_record w a)
  ∧ (∀ u key, tracked_set w u key ⊆ tracked_set w' u key).

Definition keeps {A} (m : M A) : Prop := ∀ w, grows w (m w).2.

(** An attribute-access error. *)
Definition is_attribute_error (err : exn) : Prop :=
  match err with AttributeError _ _ => True | _ => False end.

(** Every entity tracked by unit of work [u] is a live object. *)
Definition tracked_live (w : world) (u : nat) : Prop :=
  map_Forall (λ _ (s : gset addr), set_Forall (λ a, is_Some (w_heap w !! a)) s)
    (w_uows w !!! u).

(** Every [__everest__] attribute that refers to an object refers to a live
    one. *)
Definition record_live (w : world) (o : object) : Prop :=
  match ob_dict o !! "__everest__" with
  | Some (VRef m) => is_Some (w_heap w !! m)
  | _ => True
  end.

Definition records_live (w : world) : Prop :=
  map_Forall (λ _ o, record_live w o) (w_heap w).

Global Instance record_live_dec w o : Decision (record_live w o).
Proof. unfold record_live. repeat case_match; apply _. Defined.

(** A generator that, run in [w], leaves [w] as it is, yields values
    satisfying [P] only, and ends, if by an exception, by one satisfying [E]. *)
Definition gen_ok {B} (P : B → Prop) (E : exn → Prop)
    (g : UnitOfWork.Gen B) (w : world) : Prop :=
  ∃ ys r, g w = ((ys, r), w) ∧ Forall P ys ∧ ∀ err, r = Some err → E err.

(** A generator that, run in [w], ends by an exception. *)
Definition gen_fails {B} (g : UnitOfWork.Gen B) (w : world) : Prop :=
  is_Some (g w).1.2.

(** ** Concrete runs *)

Module Example.

(** A hash that tells strings of different lengths apart. *)
Definition builtins : Builtins :=
  {| py_hash := λ s, Z.of_nat (String.length s); py_repr := λ _, "<object>" |}.

Definition Widget : pyclass := PyClass "Widget" ["Entity"; "object"].
Definition SpecialWidget : pyclass := PyClass "SpecialWidget" ["Widget"; "Entity"; "object"].
Definition Gadget : pyclass := PyClass "Gadget" ["Entity"; "object"].

(** [w = Widget(); w.name = 'a'], no unit of work in use yet. *)
Definition widget : object := Object Widget {[ "id" := VNone; "name" := VStr "a" ]}.
Definition start : world := World {[ 0 := widget ]} ∅.

(** The world a computation leaves. *)
Definition after {A} (m : M A) (w : world) : world := (m w).2.

(** [uow.register_new(Widget, w)]: the state manager is object 1. *)
Definition registered_new : world :=
  after (UnitOfWork.register_new (H:=builtins) 7 "Widget" 0) start.

(** ... then [uow.mark_clean(Widget, w)]. *)
Definition marked_clean : world :=
  after (UnitOfWork.mark_clean (H:=builtins) 7 "Widget" 0) registered_new.

(** ... then a public attribute set on the state manager itself. *)
Definition manager_touched : world :=
  after (setattr 1 "note" (VStr "x")) marked_clean.

(** ... or, instead, [uow.mark_deleted(Widget, w)] after the registration. *)
Definition marked_deleted : world :=
  after (UnitOfWork.mark_deleted (H:=builtins) 7 "Widget" 0) registered_new.

(** ... or, instead, [w.name = 'b'] after [mark_clean]. *)
Definition widget_renamed : world :=
  after (setattr 0 "name" (VStr "b")) marked_clean.

(** ... or, instead, [uow.reset()] right after the registration. *)
Definition registered_then_reset : world :=
  after (UnitOfWork.reset 7) registered_new.

(** [clone = uow.register_clean(Widget, w)]: the clone is object 1, its
    state manager object 2. *)
Definition registered_clean : world :=
  after (UnitOfWork.register_clean (H:=builtins) 7 "Widget" 0) start.

(** ... then [clone.name = 'b']. *)
Definition clone_renamed : world :=
  after (setattr 1 "name" (VStr "b")) registered_clean.

(** [Widget(id=1)] and [SpecialWidget(id=1)]. *)
Definition widget1 : object := Object Widget {[ "id" := VInt 1 ]}.
Definition special_widget1 : object := Object SpecialWidget {[ "id" := VInt 1 ]}.
Definition gadget1 : object := Object Gadget {[ "id" := VInt 1 ]}.

End Example.

(** ** [class CsvData] ([everest/representers/csv.py]) *)

Module Csv.

(** The objects [CsvData] works on: its instances, the lists of field names,
    the lists of rows and the rows, each with an identity of its own. *)
Inductive pyobj : Type :=
  | Instance (fields data : addr)   (* [self.fields], [self.data] *)
  | Names (l : list string)
  | Rows (l : list addr)
  | Row (l : list value).

(** A value of the mapping given to the constructor: a [CsvData] or not. *)
Inductive item : Type :=
  | Plain (v : value)
  | Nested (c : addr).

(** How a call ends: it returns, it never does ([Loops]: a loop over a list
    that grows under it), or it meets an object of the wrong kind
    ([Stuck]: the code is written for the kinds above). *)
Inductive result (A : Type) : Type :=
  | Done (a : A)
  | Loops
  | Stuck.
Arguments Done {A} a.
Arguments Loops {A}.
Arguments Stuck {A}.

Definition C (A : Type) : Type := gmap addr pyobj → result A * gmap addr pyobj.

Global Instance C_ret : MRet C := λ A a h, (Done a, h).
Global Instance C_bind : MBind C := λ A B f m h,
  match m h with
  | (Done a, h') => f a h'
  | (Loops, h') => (Loops, h')
  | (Stuck, h') => (Stuck, h')
  end.

Definition loops {A} : C A := λ h, (Loops, h).
Definition stuck {A} : C A := λ h, (Stuck, h).

Fixpoint each {A} (l : list A) (f : A → C unit) : C unit :=
  match l with
  | [] => mret tt
  | x :: l' => f x ≫= λ _, each l' f
  end.

(** A new object. *)
Definition alloc (o : pyobj) : C addr := λ h,
  let a := fresh (dom h) in (Done a, <[a := o]> h).

Definition put (a : addr) (o : pyobj) : C unit := λ h, (Done tt, <[a := o]> h).

(** [self.fields] and [self.data]: the lists themselves, not their contents. *)
Definition get_fields (self : addr) : C addr := λ h,
  match h !! self with Some (Instance f _) => (Done f, h) | _ => (Stuck, h) end.

Definition get_data (self : addr) : C addr := λ h,
  match h !! self with Some (Instance _ d) => (Done d, h) | _ => (Stuck, h) end.

(** [self.fields = f] and [self.data = d]. *)
Definition set_fields (self f : addr) : C unit := λ h,
  match h !! self with
  | Some (Instance _ d) => (Done tt, <[self := Instance f d]> h)
  | _ => (Stuck, h)
  end.

Definition set_data (self d : addr) : C unit := λ h,
  match h !! self with
  | Some (Instance f _) => (Done tt, <[self := Instance f d]> h)
  | _ => (Stuck, h)
  end.

(** The contents of a list. *)
Definition names (a : addr) : C (list string) := λ h,
  match h !! a with Some (Names l) => (Done l, h) | _ => (Stuck, h) end.

Definition rows (a : addr) : C (list addr) := λ h,
  match h !! a with Some (Rows l) => (Done l, h) | _ => (Stuck, h) end.

Definition row (a : addr) : C (list value) := λ h,
  match h !! a with Some (Row l) => (Done l, h) | _ => (Stuck, h) end.

(** [l.append(x)] on each kind of list. *)
Definition names_append (a : addr) (x : string) : C unit :=
  l ← names a; put a (Names (l ++ [x])%list).

Definition rows_append (a : addr) (x : addr) : C unit :=
  l ← rows a; put a (Rows (l ++ [x])%list).

Definition row_append (a : addr) (x : value) : C unit :=
  l ← row a; put a (Row (l ++ [x])%list).

(** [CsvData.expand]. *)
Definition expand (self other : addr) : C unit :=
  d ← get_data self;
  l ← rows d;
  (if bool_decide (length l = 0) then
     od ← get_data other;
     set_data self od
   else
     new_data ← alloc (Rows []);
     od ← get_data other;
     ol ← rows od;
     each (list_prod l ol) (λ p,
       self_row ← row p.1;
       other_row ← row p.2;
       r ← alloc (Row (self_row ++ other_row)%list);
       rows_append new_data r) ;;
     set_data self new_data) ;;
  f ← get_fields self;
  fl ← names f;
  other_f ← get_fields other;
  ofl ← names other_f;
  nf ← alloc (Names (fl ++ ofl)%list);
  set_fields self nf.

(** [CsvData.append].  When [other.data] is the very list [self.data] (and
    it is not empty), the loop appends to the list it runs over and never
    ends. *)
Definition append (self other : addr) : C unit :=
  d ← get_data self;
  l ← rows d;
  if bool_decide (length l = 0) then
    od ← get_data other;
    set_data self od ;;
    other_f ← get_fields other;
    set_fields self other_f
  else
    od ← get_data other;
    ol ← rows od;
    if bool_decide (od = d) then loops
    else each ol (λ r, d' ← get_data self; rows_append d' r).

(** The body of the loop of [CsvData.__init__] over the items. *)
Definition init_item (self : addr) (kv : string * item) : C unit :=
  match kv.2 with
  | Plain value =>
      f ← get_fields self;
      names_append f kv.1 ;;
      d ← get_data self;
      l ← rows d;
      if bool_decide (length l = 0) then
        r ← alloc (Row [value]);
        d ← get_data self;
        rows_append d r
      else
        each l (λ r, row_append r value)
  | Nested other => expand self other
  end.

(** [CsvData.__init__] on the new instance [self]; the mapping is given by
    its items in iteration order, [None] standing for no argument. *)
Definition __init__ (self : addr) (data : option (list (string * item))) : C unit :=
  let data := default [] data in
  f ← alloc (Names []);
  d ← alloc (Rows []);
  put self (Instance f d) ;;
  each data (init_item self).

(** [CsvData(data)]. *)
Definition new (data : option (list (string * item))) : C addr :=
  self ← alloc (Instance 0 0);
  __init__ self data ;;
  mret self.

(** [CsvData.__len__]. *)
Definition __len__ (self : addr) : C nat :=
  d ← get_data self;
  l ← rows d;
  mret (length l).

(** What an instance shows: its field names and the contents of its rows. *)
Definition row_of (h : gmap addr pyobj) (a : addr) : option (list value) :=
  match h !! a with Some (Row l) => Some l | _ => None end.

Definition view (h : gmap addr pyobj) (c : addr) : option (list string * list (list value)) :=
  match h !! c with
  | Some (Instance f d) =>
      match h !! f, h !! d with
      | Some (Names fl), Some (Rows l) =>
          rs ← mapM (row_of h) l; Some (fl, rs)
      | _, _ => None
      end
  | _ => None
  end.

(** Objects that exist keep their contents from [h] to [h'], except [x]. *)
Definition frame (xs : list addr) (h h' : gmap addr pyobj) : Prop :=
  ∀ a, a ∉ xs → is_Some (h !! a) → h' !! a = h !! a.

(** The items of a mapping none of whose values is a [CsvData]. *)
Definition plain_items (kvs : list (string * value)) : list (string * item) :=
  (λ kv, (kv.1, Plain kv.2)) <$> kvs.

(** The rows [rows] after the values [vs] were added one by one. *)
Definition with_values (rows : list (list value)) (vs : list value)
    : list (list value) :=
  match vs, rows with
  | [], _ => rows
  | _, [] => [vs]
  | _, _ => (λ r, (r ++ vs)%list) <$> rows
  end.

(** The rows of the instance [x] are objects of their own. *)
Definition distinct_rows (h : gmap addr pyobj) (x : addr) : Prop :=
  ∃ f d l, h !! x = Some (Instance f d) ∧ h !! d = Some (Rows l) ∧ NoDup l.

End Csv.

(** Heaps with a few [CsvData] instances. *)
Module CsvExample.
Import Csv.

(** Instance [0] with the field [a] and one row, instance [4] with the
    field [b] and one row. *)
Definition two_tables : gmap addr pyobj :=
  list_to_map
    [ (0, Instance 1 2); (1, Names ["a"]); (2, Rows [3]); (3, Row [VInt 1]);
      (4, Instance 5 6); (5, Names ["b"]); (6, Rows [7]); (7, Row [VInt 2]) ].

(** Instance [0] without fields and rows, instances [3] and [7] with one
    field and one row each. *)
Definition three_tables : gmap addr pyobj :=
  list_to_map
    [ (0, Instance 1 2); (1, Names []); (2, Rows []);
      (3, Instance 4 5); (4, Names ["a"]); (5, Rows [6]); (6, Row [VInt 1]);
      (7, Instance 8 9); (8, Names ["b"]); (9, Rows [10]); (10, Row [VInt 2]) ].

End CsvExample.

(** ** Further concrete runs *)

Module Scenario.
Import Example.

(** Two widgets, both registered as NEW with unit of work 7: their state
    managers are objects 2 and 3. *)
Definition two_widgets : world :=
  after (UnitOfWork.register_new (H:=builtins) 7 "Widget" 0 ;;
         UnitOfWork.register_new (H:=builtins) 7 "Widget" 1)
    (World {[ 0 := widget; 1 := Object Widget {[ "id" := VInt 2; "name" := VStr "b" ]} ]} ∅).

End Scenario.

(** ** Vocabulary of the further statements *)

Section tracking_vocabulary.
Context `{Builtins}.

(** The entity at [e] carries a working tracker in state [st]. *)
Definition well_tracked (w : world) (e : addr) (st : value) : Prop :=
  ∃ o m, w_heap w !! e = Some o
       ∧ ob_dict o !! "__everest__" = Some (VRef m)
       ∧ tracker w m st.

(** The state read off the entity at [e], [None] when the read raises. *)
Definition state_of (w : world) (e : addr) : value :=
  match (read_state e w).1 with
  | Return st => st
  | Raise _ => VNone
  end.

(** Every entity unit of work [u] tracks carries a working tracker. *)
Definition healthy (w : world) (u : nat) : Prop :=
  ∀ key e, e ∈ tracked_set w u key → ∃ st, well_tracked w e st.

(** What a marking method that goes through does: the state manager [m] of
    [e] is the one object that changes, it keeps its own [__everest__], and
    [e] joins the tracked set. *)
Definition marked (w w' : world) (u : nat) (T : string) (e m : addr) (target : value)
    : Prop :=
  tracker w' m target
  ∧ (∀ a, a ≠ m → w_heap w' !! a = w_heap w !! a)
  ∧ (∃ om om', w_heap w !! m = Some om
             ∧ w_heap w' !! m = Some om'
             ∧ ob_dict om' !! "__everest__" = ob_dict om !! "__everest__")
  ∧ tracked_set w' u T = {[e]} ∪ tracked_set w u T
  ∧ (∀ u' k, (u', k) ≠ (u, T) → tracked_set w' u' k = tracked_set w u' k)
  ∧ w_uows w'
    = <[u := <[T := {[e]} ∪ tracked_set w u T]> (w_uows w !!! u)]> (w_uows w).

(** Every record is a working tracker, and every tracked entity carries
    one: the worlds that [register_new], the marking methods and [reset]
    build. *)
Definition consistent (w : world) : Prop :=
  (∀ e, has_record w e → ∃ st, well_tracked w e st)
  ∧ (∀ u key e, e ∈ tracked_set w u key → has_record w e).

(** A call other than [unregister]. *)
Definition keeps_records (c : uow_call) : bool :=
  match c with
  | Unregister _ _ _ => false
  | _ => true
  end.

(** The three marking methods, each with the state it asks for. *)
Definition mark_methods : list ((nat → string → addr → M unit) * value) :=
  [ (UnitOfWork.mark_clean, OBJECT_STATES.CLEAN);
    (UnitOfWork.mark_deleted, OBJECT_STATES.DELETED);
    (UnitOfWork.mark_dirty, OBJECT_STATES.DIRTY) ].

(** The four state queries, each with the state it selects. *)
Definition state_queries : list ((nat → option string → UnitOfWork.Gen addr) * value) :=
  [ (UnitOfWork.get_clean, OBJECT_STATES.CLEAN);
    (UnitOfWork.get_new, OBJECT_STATES.NEW);
    (UnitOfWork.get_deleted, OBJECT_STATES.DELETED);
    (UnitOfWork.get_dirty, OBJECT_STATES.DIRTY) ].

End tracking_vocabulary.

(** * Properties *)

(** ** Running the primitives *)

Lemma bind_run {A B} (m : M A) (f : A → M B) w a w' :
  m w = (Return a, w') → (m ≫= f) w = f a w'.
Proof. intros Hm. unfold mbind, M_bind. by rewrite Hm. Qed.

Lemma bind_raise {A B} (m : M A) (f : A → M B) w e w' :
  m w = (Raise e, w') → (m ≫= f) w = (Raise e, w').
Proof. intros Hm. unfold mbind, M_bind. by rewrite Hm. Qed.

Lemma deref_run w a o :
  w_heap w !! a = Some o → deref a w = (Return o, w).
Proof. intros Ha. unfold deref, mbind, M_bind, get_heap. by rewrite Ha. Qed.

Lemma deref_dangling w a :
  w_heap w !! a = None → deref a w = (Raise (DanglingRef a), w).
Proof. intros Ha. unfold deref, mbind, M_bind, get_heap. by rewrite Ha. Qed.

Lemma hasattr_run w a o name :
  w_heap w !! a = Some o →
  hasattr a name w = (Return (bool_decide (is_Some (ob_dict o !! name))), w).
Proof. intros Ha. unfold hasattr. by rewrite (bind_run _ _ _ _ _ (deref_run _ _ _ Ha)). Qed.

Lemma getattr_run w a o name v :
  w_heap w !! a = Some o → ob_dict o !! name = Some v →
  getattr a name w = (Return v, w).
Proof.
  intros Ha Hn. unfold getattr.
  rewrite (bind_run _ _ _ _ _ (deref_run _ _ _ Ha)). by rewrite Hn.
Qed.

Lemma getattr_missing w a o name :
  w_heap w !! a = Some o → ob_dict o !! name = None →
  getattr a name w = (Raise (AttributeError (VRef a) name), w).
Proof.
  intros Ha Hn. unfold getattr.
  rewrite (bind_run _ _ _ _ _ (deref_run _ _ _ Ha)). by rewrite Hn.
Qed.

Lemma setattr_run w a o name v :
  w_heap w !! a = Some o →
  setattr a name v w
  = (Return tt, World (<[a := with_attr o name v]> (w_heap w)) (w_uows w)).
Proof.
  intros Ha. unfold setattr.
  by rewrite (bind_run _ _ _ _ _ (deref_run _ _ _ Ha)).
Qed.

Lemma delattr_run w a o name v :
  w_heap w !! a = Some o → ob_dict o !! name = Some v →
  delattr a name w
  = (Return tt,
     World (<[a := Object (ob_class o) (delete name (ob_dict o))]> (w_heap w)) (w_uows w)).
Proof.
  intros Ha Hn. unfold delattr.
  rewrite (bind_run _ _ _ _ _ (deref_run _ _ _ Ha)). by rewrite Hn.
Qed.

Lemma object_new_run w c :
  object_new c w
  = (Return (fresh (dom (w_heap w))),
     World (<[fresh (dom (w_heap w)) := Object c ∅]> (w_heap w)) (w_uows w)).
Proof. done. Qed.

Lemma fresh_addr_None (h : gmap addr object) : h !! fresh (dom h) = None.
Proof. apply not_elem_of_dom, is_fresh. Qed.

(** ** The public part of a [__dict__] *)

Module PublicItems.
Import EntityStateManager.

Lemma insert_private d name v :
  startswith_underscore name = true →
  public_items (<[name := v]> d) = public_items d.
Proof.
  intros Hn. unfold public_items. apply map_filter_insert_not.
  intros y. simpl. by rewrite Hn.
Qed.

Lemma insert_public d name v :
  startswith_underscore name = false →
  public_items (<[name := v]> d) = <[name := v]> (public_items d).
Proof. intros Hn. unfold public_items. by apply map_filter_insert_True. Qed.

Lemma delete_private d name :
  startswith_underscore name = true →
  public_items (delete name d) = public_items d.
Proof.
  intros Hn. unfold public_items. apply map_filter_delete_not.
  intros y _. simpl. by rewrite Hn.
Qed.

Lemma lookup_public d name :
  startswith_underscore name = false →
  public_items d !! name = d !! name.
Proof.
  intros Hn. unfold public_items. apply option_eq. intros v.
  rewrite map_lookup_filter_Some. simpl. split; [by intros []|by split].
Qed.

Lemma lookup_private d name :
  startswith_underscore name = true →
  public_items d !! name = None.
Proof.
  intros Hn. unfold public_items. apply map_lookup_filter_None.
  right. intros v _. simpl. by rewrite Hn.
Qed.

Lemma empty : public_items ∅ = ∅.
Proof. apply map_filter_empty. Qed.

End PublicItems.

(** ** The state manager *)

Module Manager.
Import OBJECT_STATES EntityStateManager.

Section manager.
Context `{Builtins}.

Lemma state_string_no_public d : public_items d = ∅ → state_string d = "".
Proof. intros Hd. unfold state_string. by rewrite Hd, map_to_list_empty. Qed.

Lemma state_string_insert_private d name v :
  startswith_underscore name = true →
  state_string (<[name := v]> d) = state_string d.
Proof. intros Hn. unfold state_string. by rewrite PublicItems.insert_private. Qed.

Lemma get_state_data_run w a o :
  w_heap w !! a = Some o →
  get_state_data a w = (Return (public_items (ob_dict o)), w).
Proof.
  intros Ha. unfold get_state_data.
  by rewrite (bind_run _ _ _ _ _ (deref_run _ _ _ Ha)).
Qed.

Lemma get_state_string_run w self o :
  w_heap w !! self = Some o →
  __get_state_string self w = (Return (state_string (ob_dict o)), w).
Proof.
  intros Ha. unfold __get_state_string.
  by rewrite (bind_run _ _ _ _ _ (get_state_data_run _ _ _ Ha)).
Qed.

Lemma get_state_run w self o st last :
  w_heap w !! self = Some o →
  ob_dict o !! state_attr = Some st →
  ob_dict o !! last_state_hash_attr = Some last →
  __get_state self w = (Return (derived_state (ob_dict o) st last), w).
Proof.
  intros Ha Hst Hlast. unfold __get_state, derived_state.
  rewrite (bind_run _ _ _ _ _ (getattr_run _ _ _ _ _ Ha Hst)).
  destruct (bool_decide (st = CLEAN)); [|done].
  rewrite (bind_run _ _ _ _ _ (get_state_string_run _ _ _ Ha)).
  rewrite (bind_run _ _ _ _ _ (getattr_run _ _ _ _ _ Ha Hlast)).
  by destruct (bool_decide _).
Qed.

(** [__get_state] changes nothing, whatever it returns or raises. *)
Lemma get_state_pure w self : (__get_state self w).2 = w.
Proof.
  unfold __get_state, getattr, __get_state_string, get_state_data, deref,
    mbind, M_bind, mret, M_ret, raise, get_heap. simpl.
  repeat (case_match; simplify_eq/=; try done).
Qed.

Lemma tracker_get_state w self st :
  tracker w self st → __get_state self w = (Return st, w).
Proof.
  intros (o & Ho & _ & Hst & Hlast).
  rewrite (get_state_run _ _ _ _ _ Ho Hst Hlast). unfold derived_state.
  destruct (bool_decide (st = CLEAN)); [|done].
  by rewrite bool_decide_false by (by intros []).
Qed.

Lemma set_state_allowed w self o cur state :
  w_heap w !! self = Some o →
  __get_state self w = (Return cur, w) →
  (cur, state) ∈ __allowed_transitions →
  __set_state self state w
  = (Return tt, World (<[self := with_attr o state_attr state]> (w_heap w)) (w_uows w)).
Proof.
  intros Ho Hcur Hin. unfold __set_state.
  rewrite (bind_run _ _ _ _ _ Hcur).
  rewrite bool_decide_true by done. simpl.
  by apply setattr_run.
Qed.

Lemma set_state_refused w self o cur stored state :
  w_heap w !! self = Some o →
  ob_dict o !! state_attr = Some stored →
  __get_state self w = (Return cur, w) →
  (cur, state) ∉ __allowed_transitions →
  __set_state self state w
  = (Raise (ValueError (invalid_transition_msg stored state)), w).
Proof.
  intros Ho Hst Hcur Hin. unfold __set_state.
  rewrite (bind_run _ _ _ _ _ Hcur).
  rewrite bool_decide_false by done. simpl.
  by rewrite (bind_run _ _ _ _ _ (getattr_run _ _ _ _ _ Ho Hst)).
Qed.

Lemma tracker_with_state w self o st state :
  w_heap w !! self = Some o →
  tracker w self st →
  tracker (World (<[self := with_attr o state_attr state]> (w_heap w)) (w_uows w)) self state.
Proof.
  intros Ho (o' & Ho' & Hcls & Hst & Hlast). simplify_eq.
  exists (with_attr o state_attr state). simpl. rewrite lookup_insert_eq.
  split_and!; [done|done|by rewrite lookup_insert_eq|].
  rewrite lookup_insert_ne by done.
  by rewrite state_string_insert_private.
Qed.

Lemma tracker_frame w w' self st :
  w_heap w' !! self = w_heap w !! self → tracker w self st → tracker w' self st.
Proof. intros Heq (o & Ho & ?). exists o. by rewrite Heq. Qed.

Lemma init_run w entity :
  let self := fresh (dom (w_heap w)) in
  __init__ entity w
  = (Return self, World (<[self := fresh_manager entity]> (w_heap w)) (w_uows w)).
Proof.
  intros self. unfold __init__.
  rewrite (bind_run _ _ _ _ _ (object_new_run _ _)). fold self.
  erewrite bind_run; [|apply setattr_run; simpl; apply lookup_insert_eq].
  erewrite bind_run; [|apply setattr_run; simpl; apply lookup_insert_eq].
  erewrite bind_run; [|apply get_state_string_run; simpl; apply lookup_insert_eq].
  erewrite bind_run; [|apply setattr_run; simpl; apply lookup_insert_eq].
  simpl. unfold mret, M_ret, with_attr, fresh_manager. simpl.
  rewrite !insert_insert_eq.
  rewrite state_string_no_public; [done|].
  rewrite !PublicItems.insert_private by done. apply PublicItems.empty.
Qed.

Lemma fresh_manager_no_public entity :
  public_items (ob_dict (fresh_manager entity)) = ∅.
Proof.
  unfold fresh_manager. simpl.
  rewrite !PublicItems.insert_private by done. apply PublicItems.empty.
Qed.

Lemma fresh_manager_tracker w self entity :
  w_heap w !! self = Some (fresh_manager entity) → tracker w self VNone.
Proof.
  intros Ho. exists (fresh_manager entity). split_and!; [done..|].
  by rewrite state_string_no_public by apply fresh_manager_no_public.
Qed.

Lemma tracked_manager_tracker w self entity state :
  w_heap w !! self = Some (with_attr (fresh_manager entity) state_attr state) →
  tracker w self state.
Proof.
  intros Ho. eexists. split; [done|]. split_and!; [done|apply lookup_insert_eq|].
  simpl. rewrite lookup_insert_ne by done. rewrite lookup_insert_eq.
  rewrite state_string_no_public; [done|].
  rewrite !PublicItems.insert_private by done. apply PublicItems.empty.
Qed.

(** [track] on a live entity, for a [state] the unset state may move to. *)
Lemma track_run w entity o state :
  w_heap w !! entity = Some o →
  (VNone, state) ∈ __allowed_transitions →
  let m := fresh (dom (w_heap w)) in
  track entity state w
  = (Return tt,
     World (<[m := with_attr (fresh_manager entity) state_attr state]>
              (<[entity := with_attr o "__everest__" (VRef m)]> (w_heap w)))
           (w_uows w)).
Proof.
  intros Ho Hin m. unfold track.
  assert (m ≠ entity) as Hne.
  { intros Heq. pose proof (fresh_addr_None (w_heap w)) as Hf. fold m in Hf.
    rewrite Heq in Hf. congruence. }
  rewrite (bind_run _ _ _ _ _ (init_run _ _)). fold m.
  erewrite bind_run; [|apply setattr_run; simpl; rewrite lookup_insert_ne by done; apply Ho].
  erewrite bind_run;
    [|eapply getattr_run; simpl; [apply lookup_insert_eq|apply lookup_insert_eq]].
  unfold state_set. simpl.
  erewrite bind_run;
    [|apply deref_run; simpl; rewrite lookup_insert_ne by done; apply lookup_insert_eq].
  simpl.
  match goal with |- __set_state m state ?w2 = _ =>
    assert (w_heap w2 !! m = Some (fresh_manager entity)) as Hm2
      by (simpl; rewrite lookup_insert_ne by done; apply lookup_insert_eq);
    rewrite (set_state_allowed w2 m _ VNone state Hm2
               (tracker_get_state _ _ _ (fresh_manager_tracker _ _ _ Hm2)) Hin)
  end. simpl.
  f_equal. f_equal.
  rewrite (insert_insert_ne _ entity m) by done. by rewrite insert_insert_eq.
Qed.

End manager.
End Manager.

(** ** The transition table *)




Section manager_claims.
Context `{Builtins}.
Import OBJECT_STATES EntityStateManager Manager.




(** C7. [__get_state] is a read: it leaves the world as it found it, so a
    second call returns what the first did; and on a state manager whose
    stored state is CLEAN and whose stored hash differs from the hash of the
    current state string it returns DIRTY while the manager object, with its
    stored state and stored hash, stays as it was. *)
Theorem C7_get_state_is_a_read (w : world) (self : addr) :
  (__get_state self w).2 = w
  ∧ __get_state self (__get_state self w).2 = __get_state self w
  ∧ ∀ o last,
      w_heap w !! self = Some o →
      ob_dict o !! state_attr = Some CLEAN →
      ob_dict o !! last_state_hash_attr = Some last →
      VInt (py_hash (state_string (ob_dict o))) ≠ last →
      (__get_state self w).1 = Return DIRTY
      ∧ w_heap (__get_state self w).2 !! self = Some o.
Proof.
  split; [apply get_state_pure|]. split; [by rewrite get_state_pure|].
  intros o last Ho Hst Hlast Hne.
  rewrite (get_state_run _ _ _ _ _ Ho Hst Hlast). simpl. split; [|done].
  unfold derived_state. rewrite bool_decide_true by done.
  by rewrite bool_decide_true by done.
Qed.

Lemma reset_state_run w self o cur :
  w_heap w !! self = Some o →
  __get_state self w = (Return cur, w) →
  (cur, CLEAN) ∈ __allowed_transitions →
  let d := <[state_attr := CLEAN]> (ob_dict o) in
  reset_state self w
  = (Return tt,
     World (<[self := Object (ob_class o)
                        (<[last_state_hash_attr := VInt (py_hash (state_string d))]> d)]>
              (w_heap w))
           (w_uows w)).
Proof.
  intros Ho Hcur Hin d. unfold reset_state.
  rewrite (bind_run _ _ _ _ _ (set_state_allowed _ _ _ _ _ Ho Hcur Hin)).
  erewrite bind_run; [|apply get_state_string_run; simpl; apply lookup_insert_eq].
  erewrite setattr_run; [|simpl; apply lookup_insert_eq].
  simpl. by rewrite insert_insert_eq.
Qed.

Lemma reset_state_tracker w self o cur w' :
  w_heap w !! self = Some o →
  isinstance o cls = true →
  __get_state self w = (Return cur, w) →
  (cur, CLEAN) ∈ __allowed_transitions →
  reset_state self w = (Return tt, w') →
  tracker w' self CLEAN.
Proof.
  intros Ho Hcls Hcur Hin Hrun.
  rewrite (reset_state_run _ _ _ _ Ho Hcur Hin) in Hrun. simplify_eq.
  eexists. simpl. rewrite lookup_insert_eq. split_and!; [done|done|..]; simpl.
  - rewrite lookup_insert_ne by done. apply lookup_insert_eq.
  - rewrite lookup_insert_eq. by rewrite !state_string_insert_private by done.
Qed.

(** C8, as the code has it.  On a state manager whose current state is
    unset, NEW or DIRTY, [reset_state] succeeds and [__get_state] right
    after it returns CLEAN, whatever the attributes and the stored hash
    were before: the stored hash is recomputed.  On one whose current state
    is CLEAN or DELETED, [reset_state] raises the invalid-transition
    [ValueError] and changes nothing. *)
Theorem C8_reset_state_then_get_state
    (w : world) (self : addr) (o : object) (stored last : value) :
  w_heap w !! self = Some o →
  isinstance o cls = true →
  ob_dict o !! state_attr = Some stored →
  ob_dict o !! last_state_hash_attr = Some last →
  let cur := derived_state (ob_dict o) stored last in
  (cur ∈ [VNone; NEW; DIRTY] →
     ∃ w', reset_state self w = (Return tt, w')
         ∧ tracker w' self CLEAN
         ∧ __get_state self w' = (Return CLEAN, w'))
  ∧ (cur ∈ [CLEAN; DELETED] →
     reset_state self w
     = (Raise (ValueError (invalid_transition_msg stored CLEAN)), w)).
Proof.
  intros Ho Hcls Hst Hlast cur.
  pose proof (get_state_run _ _ _ _ _ Ho Hst Hlast) as Hcur. fold cur in Hcur.
  split; intros Hin.
  - assert ((cur, CLEAN) ∈ __allowed_transitions) as Hal.
    { repeat (apply elem_of_cons in Hin as [->|Hin]); [compute_done..|].
      by apply elem_of_nil in Hin. }
    eexists. split; [by eapply reset_state_run|].
    assert (tracker (reset_state self w).2 self CLEAN) as Htr.
    { eapply reset_state_tracker; [done..|]. by erewrite reset_state_run. }
    erewrite reset_state_run in Htr by done.
    split; [done|]. by apply tracker_get_state.
  - assert ((cur, CLEAN) ∉ __allowed_transitions) as Hal.
    { repeat (apply elem_of_cons in Hin as [->|Hin]); [compute_done..|].
      by apply elem_of_nil in Hin. }
    unfold reset_state. erewrite bind_raise; [done|].
    by eapply set_state_refused.
Qed.

End manager_claims.

(** ** The tracked sets *)

Module Tracking.
Import OBJECT_STATES EntityStateManager Manager UnitOfWork.

Lemma tracked_set_lookup w u key s :
  (w_uows w !!! u) !! key = Some s → tracked_set w u key = s.
Proof. intros Hs. unfold tracked_set. by rewrite lookup_total_alt, Hs. Qed.

Lemma tracked_set_missing w u key :
  (w_uows w !!! u) !! key = None → tracked_set w u key = ∅.
Proof. intros Hs. unfold tracked_set. by rewrite lookup_total_alt, Hs. Qed.

Lemma tracked_set_elem w u key a :
  a ∈ tracked_set w u key →
  ∃ s, (w_uows w !!! u) !! key = Some s ∧ a ∈ s.
Proof.
  intros Ha. destruct ((w_uows w !!! u) !! key) as [s|] eqn:Hs.
  - exists s. by rewrite (tracked_set_lookup _ _ _ _ Hs) in Ha.
  - rewrite (tracked_set_missing _ _ _ Hs) in Ha. set_solver.
Qed.

(** The tracked sets of a world whose unit of work [u] has map [m]. *)
Lemma tracked_set_put h uows u m u' key :
  tracked_set (World h (<[u := m]> uows)) u' key
  = if decide (u' = u) then m !!! key else (uows !!! u') !!! key.
Proof.
  unfold tracked_set. simpl. case_decide as Hu.
  - subst. by rewrite lookup_total_insert_eq.
  - by rewrite lookup_total_insert_ne.
Qed.

Lemma getitem_run w self key :
  getitem self key w
  = (Return (tracked_set w self key),
     match (w_uows w !!! self) !! key with
     | Some _ => w
     | None => World (w_heap w) (<[self := <[key := ∅]> (w_uows w !!! self)]> (w_uows w))
     end).
Proof.
  unfold getitem, entity_set_map, mbind, M_bind.
  destruct ((w_uows w !!! self) !! key) as [s|] eqn:Hs.
  - by rewrite (tracked_set_lookup _ _ _ _ Hs).
  - by rewrite (tracked_set_missing _ _ _ Hs).
Qed.

Lemma set_add_run w self key entity :
  set_add self key entity w
  = (Return tt,
     World (w_heap w)
       (<[self := <[key := {[entity]} ∪ tracked_set w self key]> (w_uows w !!! self)]>
          (w_uows w))).
Proof.
  unfold set_add. rewrite (bind_run _ _ _ _ _ (getitem_run _ _ _)).
  unfold entity_set_map, put_entity_set_map, mbind, M_bind.
  destruct ((w_uows w !!! self) !! key) as [s|] eqn:Hs; [done|]. simpl.
  by rewrite lookup_total_insert_eq, !insert_insert_eq.
Qed.

Lemma set_remove_run w self key entity :
  entity ∈ tracked_set w self key →
  set_remove self key entity w
  = (Return tt,
     World (w_heap w)
       (<[self := <[key := tracked_set w self key ∖ {[entity]}]> (w_uows w !!! self)]>
          (w_uows w))).
Proof.
  intros Hin. unfold set_remove. rewrite (bind_run _ _ _ _ _ (getitem_run _ _ _)).
  rewrite bool_decide_true by done.
  apply tracked_set_elem in Hin as (s & Hs & _). by rewrite Hs.
Qed.

Lemma set_remove_missing w self key entity :
  entity ∉ tracked_set w self key →
  ∃ w', set_remove self key entity w = (Raise (KeyError entity), w')
      ∧ w_heap w' = w_heap w
      ∧ ∀ u k, tracked_set w' u k = tracked_set w u k.
Proof.
  intros Hin. unfold set_remove. rewrite (bind_run _ _ _ _ _ (getitem_run _ _ _)).
  rewrite bool_decide_false by done. eexists. split; [done|].
  destruct ((w_uows w !!! self) !! key) as [s|] eqn:Hs; [done|].
  split; [done|]. intros u k. rewrite tracked_set_put. case_decide; [|done].
  subst. destruct (decide (k = key)) as [->|].
  - by rewrite lookup_total_insert_eq, (tracked_set_missing _ _ _ Hs).
  - by rewrite lookup_total_insert_ne.
Qed.

(** The tracked sets after [set_add]. *)
Lemma tracked_set_add w self key entity u k :
  tracked_set (set_add self key entity w).2 u k
  = if decide (u = self ∧ k = key)
    then {[entity]} ∪ tracked_set w self key else tracked_set w u k.
Proof.
  rewrite set_add_run. simpl. rewrite tracked_set_put.
  destruct (decide (u = self)) as [->|].
  - destruct (decide (k = key)) as [->|].
    + rewrite decide_True by done. by rewrite lookup_total_insert_eq.
    + rewrite decide_False by tauto. by rewrite lookup_total_insert_ne.
  - by rewrite decide_False by tauto.
Qed.

End Tracking.

(** ** Copying the public attributes onto the clone *)

Lemma foldl_insert_list_to_map (l : list (string * value)) (d : gmap string value) :
  NoDup l.*1 →
  foldl (λ d kv, <[kv.1 := kv.2]> d) d l = list_to_map l ∪ d.
Proof.
  revert d. induction l as [|[k v] l IH]; intros d Hnd; simpl.
  - by rewrite (left_id_L ∅ (∪)).
  - apply NoDup_cons in Hnd as [Hk Hnd]. rewrite IH by done.
    rewrite <- insert_union_l. apply symmetry, insert_union_r.
    by apply not_elem_of_list_to_map_1.
Qed.

Lemma foldl_insert_map_to_list (data : gmap string value) :
  foldl (λ d kv, <[kv.1 := kv.2]> d) ∅ (map_to_list data) = data.
Proof.
  rewrite foldl_insert_list_to_map by apply NoDup_fst_map_to_list.
  by rewrite list_to_map_to_list, (right_id_L ∅ (∪)).
Qed.

Lemma for_each_setattr w a o (l : list (string * value)) :
  w_heap w !! a = Some o →
  for_each l (λ kv, setattr a kv.1 kv.2) w
  = (Return tt,
     World (<[a := Object (ob_class o) (foldl (λ d kv, <[kv.1 := kv.2]> d) (ob_dict o) l)]>
              (w_heap w))
           (w_uows w)).
Proof.
  revert w o. induction l as [|[k v] l IH]; intros w o Ho; simpl.
  - unfold mret, M_ret. destruct w as [h us], o as [c d]. simpl in *.
    by rewrite insert_id.
  - rewrite (bind_run _ _ _ _ _ (setattr_run _ _ _ _ _ Ho)).
    rewrite (IH _ (with_attr o k v)) by (simpl; apply lookup_insert_eq).
    simpl. by rewrite insert_insert_eq.
Qed.

Section uow_runs.
Context `{Builtins}.
Import OBJECT_STATES EntityStateManager Manager UnitOfWork Tracking.

(** The clone [EntityStateManager.clone] builds of [o]. *)
Lemma clone_run w entity o :
  w_heap w !! entity = Some o →
  let c := fresh (dom (w_heap w)) in
  clone entity w
  = (Return c,
     World (<[c := Object (ob_class o) (public_items (ob_dict o))]> (w_heap w)) (w_uows w)).
Proof.
  intros Ho c. unfold clone.
  assert (c ≠ entity) as Hne.
  { intros Heq. pose proof (fresh_addr_None (w_heap w)) as Hf. fold c in Hf.
    rewrite Heq in Hf. congruence. }
  rewrite (bind_run _ _ _ _ _ (deref_run _ _ _ Ho)).
  rewrite (bind_run _ _ _ _ _ (object_new_run _ _)). fold c.
  erewrite bind_run;
    [|apply get_state_data_run; simpl; rewrite lookup_insert_ne by done; apply Ho].
  unfold set_state_data.
  erewrite bind_run; [|apply for_each_setattr; simpl; apply lookup_insert_eq].
  simpl. by rewrite insert_insert_eq, foldl_insert_map_to_list.
Qed.

Lemma register_new_run w self key entity o :
  w_heap w !! entity = Some o →
  ob_dict o !! "__everest__" = None →
  let m := fresh (dom (w_heap w)) in
  register_new self key entity w
  = (Return tt,
     World (<[m := with_attr (fresh_manager entity) state_attr NEW]>
              (<[entity := with_attr o "__everest__" (VRef m)]> (w_heap w)))
           (<[self := <[key := {[entity]} ∪ tracked_set w self key]> (w_uows w !!! self)]>
              (w_uows w))).
Proof.
  intros Ho Hnone m. unfold register_new.
  rewrite (bind_run _ _ _ _ _ (hasattr_run _ _ _ _ Ho)).
  rewrite bool_decide_false by (rewrite Hnone; by intros [? ?]).
  erewrite bind_run; [|by apply track_run; [done|compute_done]].
  by rewrite set_add_run.
Qed.

Lemma register_new_tracked w self key entity o :
  w_heap w !! entity = Some o →
  is_Some (ob_dict o !! "__everest__") →
  register_new self key entity w
  = (Raise (ValueError "Trying to register a NEW entity that has already been registered!"),
     w).
Proof.
  intros Ho Hsome. unfold register_new.
  rewrite (bind_run _ _ _ _ _ (hasattr_run _ _ _ _ Ho)).
  by rewrite bool_decide_true by done.
Qed.

Lemma register_clean_run w self key entity o :
  w_heap w !! entity = Some o →
  let c := fresh (dom (w_heap w)) in
  let oc := Object (ob_class o) (public_items (ob_dict o)) in
  let m := fresh (dom (<[c := oc]> (w_heap w))) in
  register_clean self key entity w
  = (Return c,
     World (<[m := with_attr (fresh_manager c) state_attr CLEAN]>
              (<[c := with_attr oc "__everest__" (VRef m)]> (<[c := oc]> (w_heap w))))
           (<[self := <[key := {[entity]} ∪ tracked_set w self key]> (w_uows w !!! self)]>
              (w_uows w))).
Proof.
  intros Ho c oc m. unfold register_clean.
  rewrite (bind_run _ _ _ _ _ (clone_run _ _ _ Ho)). fold c oc.
  erewrite bind_run;
    [|by apply track_run; [simpl; apply lookup_insert_eq|compute_done]].
  simpl. fold m.
  erewrite bind_run; [|apply set_add_run]. done.
Qed.

End uow_runs.

Lemma filter_eq_absent (l : list addr) (a : addr) :
  a ∉ l → filter (λ x, x = a) l = [].
Proof.
  induction l as [|x l IH]; intros Hin; [done|].
  apply not_elem_of_cons in Hin as [Hne Hin].
  rewrite filter_cons_False by congruence. by apply IH.
Qed.

Lemma filter_eq_singleton (l : list addr) (a : addr) :
  NoDup l → a ∈ l → filter (λ x, x = a) l = [a].
Proof.
  induction 1 as [|x l Hx Hnd IH]; intros Hin; [by apply elem_of_nil in Hin|].
  destruct (decide (x = a)) as [->|Hne].
  - rewrite filter_cons_True by done. f_equal.
    by apply filter_eq_absent.
  - rewrite filter_cons_False by done. apply IH.
    apply elem_of_cons in Hin as [?|?]; [congruence|done].
Qed.

Section uow_claims.
Context `{Builtins}.
Import OBJECT_STATES EntityStateManager Manager UnitOfWork Tracking.

(** C3. [register_clean(T, e)] returns a new object, distinct from [e], of
    the class of [e], whose public attributes are those of [e] (so the same
    [id]); the clone carries a new state manager in state CLEAN; [e] itself
    is left as it was and is what joins the tracked set of [T], which gains
    no other member. *)
Theorem C3_register_clean (w : world) (u : nat) (T : string) (e : addr) (o : object) :
  w_heap w !! e = Some o →
  ∃ c m oc w',
    register_clean u T e w = (Return c, w')
    ∧ c ≠ e ∧ w_heap w !! c = None
    ∧ w_heap w' !! c = Some oc
    ∧ ob_class oc = ob_class o
    ∧ public_items (ob_dict oc) = public_items (ob_dict o)
    ∧ Entity.id oc = Entity.id o
    ∧ Entity.__eq__ oc o = true
    ∧ ob_dict oc !! "__everest__" = Some (VRef m)
    ∧ w_heap w !! m = None
    ∧ tracker w' m CLEAN
    ∧ state_get (VRef m) w' = (Return CLEAN, w')
    ∧ w_heap w' !! e = Some o
    ∧ tracked_set w' u T = {[e]} ∪ tracked_set w u T
    ∧ (c ∉ tracked_set w u T → c ∉ tracked_set w' u T).
Proof.
  intros Ho.
  set (c := fresh (dom (w_heap w))).
  set (oc := Object (ob_class o) (public_items (ob_dict o))).
  set (m := fresh (dom (<[c := oc]> (w_heap w)))).
  assert (w_heap w !! c = None) as Hc by apply fresh_addr_None.
  assert ((<[c := oc]> (w_heap w)) !! m = None) as Hm by apply fresh_addr_None.
  assert (c ≠ e) as Hce by congruence.
  assert (m ≠ c) as Hmc by (intros ->; by rewrite lookup_insert_eq in Hm).
  assert (w_heap w !! m = None) as Hm' by (by rewrite lookup_insert_ne in Hm).
  assert (m ≠ e) as Hme by congruence.
  exists c, m, (with_attr oc "__everest__" (VRef m)). eexists.
  split; [by apply register_clean_run|]. simpl.
  assert (Entity.id (with_attr oc "__everest__" (VRef m)) = Entity.id o) as Hid.
  { unfold Entity.id. simpl. rewrite lookup_insert_ne by done.
    by rewrite PublicItems.lookup_public. }
  match goal with |- context [tracker ?w' _ CLEAN] =>
    assert (tracker w' m CLEAN) as Htr
      by (eapply tracked_manager_tracker; simpl; apply lookup_insert_eq)
  end.
  split_and!; try done.
  - rewrite lookup_insert_ne by done. apply lookup_insert_eq.
  - simpl. rewrite PublicItems.insert_private by done.
    unfold public_items. apply map_filter_filter_l. tauto.
  - unfold Entity.__eq__. rewrite Hid. rewrite bool_decide_true by done.
    rewrite andb_true_r. unfold isinstance. apply bool_decide_eq_true.
    simpl. apply elem_of_cons. by left.
  - simpl. apply lookup_insert_eq.
  - unfold state_get.
    erewrite bind_run; [|apply deref_run; simpl; apply lookup_insert_eq].
    simpl. by apply tracker_get_state.
  - by rewrite !lookup_insert_ne by done.
  - rewrite tracked_set_put, decide_True by done. by rewrite lookup_total_insert_eq.
  - rewrite tracked_set_put, decide_True by done. rewrite lookup_total_insert_eq.
    set_solver.
Qed.

(** C6. After a first [register_new(T, e)], a second [register_new] on [e],
    under any key of any unit of work, raises the double-registration
    [ValueError] and leaves the world as it was; the tracked set of [T]
    holds [e] once. *)
Theorem C6_double_registration
    (w : world) (u u' : nat) (T T' : string) (e : addr) (o : object) :
  w_heap w !! e = Some o →
  ob_dict o !! "__everest__" = None →
  ∃ w1,
    register_new u T e w = (Return tt, w1)
    ∧ has_record w1 e
    ∧ register_new u' T' e w1
      = (Raise (ValueError
                  "Trying to register a NEW entity that has already been registered!"),
         w1)
    ∧ filter (λ x, x = e) (elements (tracked_set w1 u T)) = [e].
Proof.
  intros Ho Hnone. eexists. split; [by apply register_new_run|].
  set (m := fresh (dom (w_heap w))).
  assert (m ≠ e) as Hme.
  { intros Heq. pose proof (fresh_addr_None (w_heap w)) as Hf. fold m in Hf.
    rewrite Heq in Hf. congruence. }
  match goal with |- has_record ?w1 e ∧ _ =>
    assert (w_heap w1 !! e = Some (with_attr o "__everest__" (VRef m))) as He
      by (simpl; rewrite lookup_insert_ne by done; apply lookup_insert_eq)
  end.
  assert (is_Some (ob_dict (with_attr o "__everest__" (VRef m)) !! "__everest__"))
    as Hrec by (simpl; rewrite lookup_insert_eq; by eexists).
  split_and!.
  - by eexists.
  - by eapply register_new_tracked.
  - apply filter_eq_singleton; [apply NoDup_elements|].
    apply elem_of_elements. rewrite tracked_set_put, decide_True by done.
    rewrite lookup_total_insert_eq. set_solver.
Qed.

(** C9. On a live entity without [__everest__], [mark_clean], [mark_dirty],
    [mark_deleted] and [unregister] each raise their [ValueError] at once,
    the world unchanged. *)
Theorem C9_unregistered_entity
    (w : world) (u : nat) (T : string) (e : addr) (o : object) :
  w_heap w !! e = Some o →
  ob_dict o !! "__everest__" = None →
  mark_clean u T e w
  = (Raise (ValueError "Trying to mark an unregistered entity as CLEAN!"), w)
  ∧ mark_dirty u T e w
    = (Raise (ValueError "Trying to mark an unregistered entity as DIRTY!"), w)
  ∧ mark_deleted u T e w
    = (Raise (ValueError "Trying to mark an unregistered entity as DELETED!"), w)
  ∧ unregister u T e w
    = (Raise (ValueError
                "Trying to unregister an entity that has not been registered yet!"),
       w).
Proof.
  intros Ho Hnone.
  assert (bool_decide (is_Some (ob_dict o !! "__everest__")) = false) as Hb
    by (rewrite Hnone; apply bool_decide_eq_false; by intros [? ?]).
  unfold mark_clean, mark_dirty, mark_deleted, unregister.
  by rewrite !(bind_run _ _ _ _ _ (hasattr_run _ _ _ _ Ho)), Hb.
Qed.

End uow_claims.

(** ** Entity equality *)

Lemma isinstance_own_class o : isinstance o (ob_class o) = true.
Proof. unfold isinstance. apply bool_decide_eq_true, elem_of_cons. by left. Qed.

(** C5.  For entities [a] and [b] of classes of which two that derive from
    each other are one class, as Python's are, [a == b] holds exactly
    when [a] and [b] have the same class and equal ids: two instances of
    one class with equal ids are equal, and [a] is not equal to, and
    [a != b] holds for, an instance of another class, a subclass or a
    superclass of the class of [a] included, whatever the ids. *)
Theorem C5_entity_equality (a b : object) :
  (isinstance a (ob_class b) = true → isinstance b (ob_class a) = true →
   ob_class a = ob_class b) →
  (Entity.eq_op a b = true ↔ ob_class a = ob_class b ∧ Entity.id a = Entity.id b)
  ∧ (ob_class a = ob_class b → Entity.id a = Entity.id b →
     Entity.eq_op a b = true ∧ Entity.ne_op a b = false)
  ∧ (ob_class a ≠ ob_class b →
     Entity.eq_op a b = false ∧ Entity.ne_op a b = true).
Proof.
  intros Hanti.
  assert (Entity.ne_op a b = negb (Entity.eq_op a b)) as Hne.
  { unfold Entity.ne_op, Entity.eq_op, Entity.__ne__. by destruct (_ && _). }
  assert (Entity.eq_op a b = true
          ↔ ob_class a = ob_class b ∧ Entity.id a = Entity.id b) as Hiff.
  { unfold Entity.eq_op, Entity.__eq__.
    destruct (decide (ob_class b = ob_class a)) as [Heq|Hneq].
    - rewrite bool_decide_false by (by intros []). simpl.
      rewrite <- Heq, isinstance_own_class. simpl.
      rewrite bool_decide_eq_true. naive_solver.
    - rewrite bool_decide_true by done. simpl.
      destruct (isinstance b (ob_class a)) eqn:Hb; simpl.
      + destruct (isinstance a (ob_class b)) eqn:Ha; simpl.
        * destruct Hneq. symmetry. by apply Hanti.
        * naive_solver.
      + naive_solver. }
  split; [done|]. split.
  - intros Hc Hid. rewrite Hne.
    assert (Entity.eq_op a b = true) as -> by (by apply Hiff). done.
  - intros Hc. rewrite Hne.
    assert (Entity.eq_op a b = false) as ->; [|done].
    apply not_true_is_false. rewrite Hiff. tauto.
Qed.

(** ** Mutations of the entity and the state read *)

Section detection.
Context `{Builtins}.
Import OBJECT_STATES EntityStateManager Manager UnitOfWork.

Lemma read_state_run w e o m st :
  w_heap w !! e = Some o →
  ob_dict o !! "__everest__" = Some (VRef m) →
  tracker w m st →
  read_state e w = (Return st, w).
Proof.
  intros Ho Hm Htr. unfold read_state.
  rewrite (bind_run _ _ _ _ _ (getattr_run _ _ _ _ _ Ho Hm)).
  pose proof Htr as (om & Hom & Hcls & _).
  unfold state_get. rewrite (bind_run _ _ _ _ _ (deref_run _ _ _ Hom)), Hcls.
  by apply tracker_get_state.
Qed.

(** C1, what the code does.  The state string is built from the attributes
    of the state manager, not of the entity: once an entity is tracked in
    state [st], setting any attribute of the entity other than
    [__everest__], public or not, leaves the state read at [st]; a CLEAN
    entity stays CLEAN. *)
Theorem C1_entity_mutation_not_detected
    (w : world) (e m : addr) (o : object) (st : value) (name : string) (v : value) :
  w_heap w !! e = Some o →
  ob_dict o !! "__everest__" = Some (VRef m) →
  m ≠ e →
  tracker w m st →
  name ≠ "__everest__" →
  ∃ w', setattr e name v w = (Return tt, w')
      ∧ w_heap w' !! e = Some (with_attr o name v)
      ∧ tracker w' m st
      ∧ read_state e w' = (Return st, w').
Proof.
  intros Ho Hm Hme Htr Hname. eexists. split; [by apply setattr_run|].
  assert (tracker (World (<[e := with_attr o name v]> (w_heap w)) (w_uows w)) m st)
    as Htr'.
  { eapply tracker_frame; [|done]. simpl. by rewrite lookup_insert_ne. }
  split; [simpl; apply lookup_insert_eq|]. split; [done|].
  eapply read_state_run; [simpl; apply lookup_insert_eq| |done].
  simpl. by rewrite lookup_insert_ne.
Qed.

End detection.

(** ** Generators *)

Module Generators.
Import UnitOfWork.

Lemma gen_for_ok {A B} (P : B → Prop) (E : exn → Prop)
    (l : list A) (body : A → Gen B) w :
  (∀ x, x ∈ l → gen_ok P E (body x) w) → gen_ok P E (gen_for l body) w.
Proof.
  unfold gen_ok. induction l as [|x l IH]; intros Hbody; simpl.
  - exists [], None. split_and!; [done|constructor|done].
  - destruct (Hbody x) as (ys & r & Hx & Hys & Hr); [by left|]. rewrite Hx.
    destruct r as [err|].
    + exists ys, (Some err). by split_and!.
    + destruct IH as (zs & r & Hl & Hzs & Hr'); [intros; apply Hbody; by right|].
      rewrite Hl. exists (ys ++ zs)%list, r. split_and!; [done| |done].
      by apply Forall_app.
Qed.

Lemma gen_for_fails {A B} (P : B → Prop) (E : exn → Prop)
    (l : list A) (body : A → Gen B) w x :
  (∀ x, x ∈ l → gen_ok P E (body x) w) →
  x ∈ l → gen_fails (body x) w → gen_fails (gen_for l body) w.
Proof.
  unfold gen_fails. induction l as [|x0 l IH]; intros Hbody Hx Hfail; simpl.
  - by apply elem_of_nil in Hx.
  - destruct (Hbody x0) as (ys & r & Hx0 & _); [by left|]. rewrite Hx0.
    destruct r as [err|]; [by eexists|].
    destruct (gen_for l body w) as [[zs r] w'] eqn:Hl. simpl.
    apply elem_of_cons in Hx as [->|Hx].
    + rewrite Hx0 in Hfail. simpl in Hfail. by destruct Hfail.
    + assert (∀ y, y ∈ l → gen_ok P E (body y) w) as Hbody'
        by (intros y Hy; apply Hbody; by right).
      by specialize (IH Hbody' Hx Hfail).
Qed.

(** A failing generator that is [gen_ok] ends by an exception in [E]. *)
Lemma gen_ok_fails {B} (P : B → Prop) (E : exn → Prop) (g : Gen B) w :
  gen_ok P E g w → gen_fails g w →
  ∃ ys err, g w = ((ys, Some err), w) ∧ Forall P ys ∧ E err.
Proof.
  intros (ys & r & Hg & Hys & Hr) Hfail. unfold gen_fails in Hfail.
  rewrite Hg in Hfail. simpl in Hfail. destruct Hfail as [err ->].
  exists ys, err. auto.
Qed.

End Generators.

(** ** Queries over the tracked sets *)

Section queries.
Context `{Builtins}.
Import OBJECT_STATES EntityStateManager Manager UnitOfWork Tracking Generators.

(** Reading [v.state] changes nothing, and fails by attribute errors only. *)
Lemma state_get_outcome w v :
  (∀ m, v = VRef m → is_Some (w_heap w !! m)) →
  ∃ r, state_get v w = (r, w) ∧ ∀ err, r = Raise err → is_attribute_error err.
Proof.
  intros Hlive.
  destruct v as [|z|s|m|m];
    try (eexists; split; [done|]; intros err [= <-]; exact I).
  destruct (Hlive m eq_refl) as [o Ho]. unfold state_get.
  rewrite (bind_run _ _ _ _ _ (deref_run _ _ _ Ho)).
  destruct (isinstance o cls).
  - unfold __get_state.
    destruct (ob_dict o !! state_attr) as [st|] eqn:Hst.
    + rewrite (bind_run _ _ _ _ _ (getattr_run _ _ _ _ _ Ho Hst)).
      destruct (bool_decide (st = CLEAN)); [|by eexists].
      rewrite (bind_run _ _ _ _ _ (get_state_string_run _ _ _ Ho)).
      destruct (ob_dict o !! last_state_hash_attr) as [last|] eqn:Hlast.
      * rewrite (bind_run _ _ _ _ _ (getattr_run _ _ _ _ _ Ho Hlast)).
        destruct (bool_decide _); by eexists.
      * rewrite (bind_raise _ _ _ _ _ (getattr_missing _ _ _ _ Ho Hlast)).
        eexists; split; [done|]. by intros err [= <-].
    + rewrite (bind_raise _ _ _ _ _ (getattr_missing _ _ _ _ Ho Hst)).
      eexists; split; [done|]. by intros err [= <-].
  - destruct (ob_dict o !! "state") as [st|] eqn:Hst.
    + rewrite (getattr_run _ _ _ _ _ Ho Hst). by eexists.
    + rewrite (getattr_missing _ _ _ _ Ho Hst).
      eexists; split; [done|]. by intros err [= <-].
Qed.

(** The loop body of both iterators at a live entity [ent]: what it yields
    comes from [f], and only if [ent] carries a record. *)
Lemma entity_body_ok {B} (P : B → Prop) (f : value → M (list B)) w ent :
  is_Some (w_heap w !! ent) →
  records_live w →
  (has_record w ent → ∀ st, ∃ ys, f st w = (Return ys, w) ∧ Forall P ys) →
  gen_ok P is_attribute_error
    (gen_body (mgr ← getattr ent "__everest__";
               st ← state_get mgr;
               f st)) w.
Proof.
  intros [o Ho] Hrecs Hf. unfold gen_ok, gen_body.
  destruct (ob_dict o !! "__everest__") as [v|] eqn:Hv.
  - rewrite (bind_run _ _ _ _ _ (getattr_run _ _ _ _ _ Ho Hv)).
    destruct (state_get_outcome w v) as (r & Hr & Herr).
    { intros m ->. pose proof (map_Forall_lookup_1 _ _ _ _ Hrecs Ho) as Hlive.
      unfold record_live in Hlive. by rewrite Hv in Hlive. }
    destruct r as [st|err].
    + rewrite (bind_run _ _ _ _ _ Hr).
      destruct (Hf (ex_intro _ o (conj Ho (mk_is_Some _ _ Hv))) st) as (ys & -> & Hys).
      exists ys, None. by split_and!.
    + rewrite (bind_raise _ _ _ _ _ Hr). exists [], (Some err).
      split_and!; [done|constructor|]. intros ? [= <-]. by apply Herr.
  - rewrite (bind_raise _ _ _ _ _ (getattr_missing _ _ _ _ Ho Hv)).
    exists [], (Some (AttributeError (VRef ent) "__everest__")).
    split_and!; [done|constructor|]. by intros ? [= <-].
Qed.

(** At an entity without [__everest__] the loop body raises. *)
Lemma entity_body_fails {B} (f : value → M (list B)) w ent o :
  w_heap w !! ent = Some o →
  ob_dict o !! "__everest__" = None →
  gen_body (mgr ← getattr ent "__everest__";
            st ← state_get mgr;
            f st) w
  = (([], Some (AttributeError (VRef ent) "__everest__")), w).
Proof.
  intros Ho Hv. unfold gen_body.
  by rewrite (bind_raise _ _ _ _ _ (getattr_missing _ _ _ _ Ho Hv)).
Qed.

(** The loop over one tracked set. *)
Lemma set_loop_ok {B} (P : B → Prop) (f : addr → value → M (list B)) w u key s :
  (w_uows w !!! u) !! key = Some s →
  tracked_live w u →
  records_live w →
  (∀ ent, has_record w ent → ∀ st, ∃ ys, f ent st w = (Return ys, w) ∧ Forall P ys) →
  gen_ok P is_attribute_error
    (gen_for (elements s) (λ ent,
       gen_body (mgr ← getattr ent "__everest__";
                 st ← state_get mgr;
                 f ent st))) w.
Proof.
  intros Hs Hlive Hrecs Hf. apply gen_for_ok. intros ent Hent.
  apply entity_body_ok; [|done|by apply Hf].
  apply elem_of_elements in Hent.
  by apply (map_Forall_lookup_1 _ _ _ _ Hlive Hs).
Qed.

Lemma set_loop_fails {B} (P : B → Prop) (f : addr → value → M (list B)) w u key s e o :
  (w_uows w !!! u) !! key = Some s →
  tracked_live w u →
  records_live w →
  (∀ ent, has_record w ent → ∀ st, ∃ ys, f ent st w = (Return ys, w) ∧ Forall P ys) →
  e ∈ s →
  w_heap w !! e = Some o →
  ob_dict o !! "__everest__" = None →
  gen_fails
    (gen_for (elements s) (λ ent,
       gen_body (mgr ← getattr ent "__everest__";
                 st ← state_get mgr;
                 f ent st))) w.
Proof.
  intros Hs Hlive Hrecs Hf He Ho Hv.
  eapply (gen_for_fails P is_attribute_error _ _ _ e).
  - intros ent Hent. apply entity_body_ok; [|done|by apply Hf].
    apply elem_of_elements in Hent.
    by apply (map_Forall_lookup_1 _ _ _ _ Hlive Hs).
  - by apply elem_of_elements.
  - unfold gen_fails. by rewrite (entity_body_fails _ _ _ _ Ho Hv).
Qed.

(** The loop over the keys [keys] of the map, each of them present. *)
Lemma key_loop {B} (P : B → Prop) (f : string → addr → value → M (list B))
    w u (keys : list string) T e o :
  (∀ key, key ∈ keys → is_Some ((w_uows w !!! u) !! key)) →
  tracked_live w u →
  records_live w →
  (∀ key ent, has_record w ent →
     ∀ st, ∃ ys, f key ent st w = (Return ys, w) ∧ Forall P ys) →
  T ∈ keys →
  e ∈ tracked_set w u T →
  w_heap w !! e = Some o →
  ob_dict o !! "__everest__" = None →
  ∃ ys err,
    gen_for keys (λ key w1,
      match getitem u key w1 with
      | (Return s, w2) =>
          gen_for (elements s) (λ ent,
            gen_body (mgr ← getattr ent "__everest__";
                      st ← state_get mgr;
                      f key ent st)) w2
      | (Raise e, w2) => (([], Some e), w2)
      end) w = ((ys, Some err), w)
    ∧ Forall P ys ∧ is_attribute_error err.
Proof.
  intros Hkeys Hlive Hrecs Hf HT He Ho Hv.
  apply gen_ok_fails.
  - apply gen_for_ok. intros key Hkey.
    destruct (Hkeys key Hkey) as [s Hs].
    unfold gen_ok. rewrite getitem_run, Hs, (tracked_set_lookup _ _ _ _ Hs).
    apply (set_loop_ok P (f key) w u key s Hs Hlive Hrecs (Hf key)).
  - eapply (gen_for_fails P is_attribute_error _ _ _ T); [|done|].
    + intros key Hkey. destruct (Hkeys key Hkey) as [s Hs].
      unfold gen_ok. rewrite getitem_run, Hs, (tracked_set_lookup _ _ _ _ Hs).
      apply (set_loop_ok P (f key) w u key s Hs Hlive Hrecs (Hf key)).
    + destruct (Hkeys T HT) as [s Hs]. unfold gen_fails.
      rewrite getitem_run, Hs. rewrite (tracked_set_lookup _ _ _ _ Hs) in He |- *.
      apply (set_loop_fails P (f T) w u T s e o Hs Hlive Hrecs (Hf T) He Ho Hv).
Qed.

End queries.

Lemma key_of_map_to_list {A} (m : gmap string A) (key : string) :
  key ∈ (map_to_list m).*1 ↔ is_Some (m !! key).
Proof.
  rewrite list_elem_of_fmap. split.
  - intros ([k v] & -> & Hkv). apply elem_of_map_to_list in Hkv. by eexists.
  - intros [v Hv]. exists (key, v). split; [done|]. by apply elem_of_map_to_list.
Qed.

Section query_claims.
Context `{Builtins}.
Import OBJECT_STATES EntityStateManager Manager UnitOfWork Tracking Generators.

Lemma object_iterator_untracked w u T e o state ent_cls :
  w_heap w !! e = Some o →
  ob_dict o !! "__everest__" = None →
  e ∈ tracked_set w u T →
  tracked_live w u →
  records_live w →
  ent_cls = None ∨ ent_cls = Some T →
  ∃ ys err, __object_iterator u state ent_cls w = ((ys, Some err), w)
          ∧ is_attribute_error err ∧ e ∉ ys.
Proof.
  intros Ho Hv He Hlive Hrecs Hcls.
  pose proof (tracked_set_elem _ _ _ _ He) as (s & Hs & _).
  set (f := λ (key : string) (ent : addr) (st : value),
         if bool_decide (st = state) then mret (M:=M) [ent] else mret []).
  assert (∀ key ent, has_record w ent →
            ∀ st, ∃ ys, f key ent st w = (Return ys, w) ∧ Forall (has_record w) ys) as Hf.
  { intros key ent Hent st. unfold f. destruct (bool_decide _); eexists; split; try done.
    by repeat constructor. }
  assert (¬ has_record w e) as Hnot.
  { intros (o' & Ho' & [v Hv']). congruence. }
  unfold __object_iterator.
  destruct Hcls as [-> | ->].
  - destruct (key_loop (has_record w) f w u (map_to_list (w_uows w !!! u)).*1 T e o)
      as (ys & err & Hrun & Hys & Herr); try done.
    { intros key. apply key_of_map_to_list. }
    { apply key_of_map_to_list. by eexists. }
    exists ys, err. split_and!; [done|done|].
    intros Hin. by apply (proj1 (Forall_forall _ _) Hys) in Hin.
  - destruct (key_loop (has_record w) f w u [T] T e o)
      as (ys & err & Hrun & Hys & Herr); try done.
    { intros key ->%list_elem_of_singleton. by eexists. }
    { by apply list_elem_of_singleton. }
    exists ys, err. split_and!; [done|done|].
    intros Hin. by apply (proj1 (Forall_forall _ _) Hys) in Hin.
Qed.

(** C10.  Let [e] be a live entity without [__everest__] in the tracked set
    of [T], as [register_clean] leaves the original, in a world without
    dangling references.  Then [get_clean], [get_new], [get_deleted] and
    [get_dirty], called for all classes or for [T], and [iterator], all end
    by an attribute error when consumed, and none of them yields [e]. *)
Theorem C10_queries_fail_on_untracked_original
    (w : world) (u : nat) (T : string) (e : addr) (o : object) :
  w_heap w !! e = Some o →
  ob_dict o !! "__everest__" = None →
  e ∈ tracked_set w u T →
  tracked_live w u →
  records_live w →
  (∀ query, query ∈ [get_clean u; get_new u; get_deleted u; get_dirty u] →
     ∀ ent_cls, ent_cls = None ∨ ent_cls = Some T →
       ∃ ys err, query ent_cls w = ((ys, Some err), w)
               ∧ is_attribute_error err ∧ e ∉ ys)
  ∧ ∃ ys err, iterator u w = ((ys, Some err), w)
            ∧ is_attribute_error err ∧ ∀ c st, (c, e, st) ∉ ys.
Proof.
  intros Ho Hv He Hlive Hrecs. split.
  - intros query Hq ent_cls Hcls.
    repeat (apply elem_of_cons in Hq as [->|Hq];
            [by eapply object_iterator_untracked|]).
    by apply elem_of_nil in Hq.
  - pose proof (tracked_set_elem _ _ _ _ He) as (s & Hs & _).
    set (P := λ y : string * addr * value, has_record w y.1.2).
    set (f := λ (key : string) (ent : addr) (st : value), mret (M:=M) [(key, ent, st)]).
    assert (¬ has_record w e) as Hnot.
    { intros (o' & Ho' & [v Hv']). congruence. }
    destruct (key_loop P f w u (map_to_list (w_uows w !!! u)).*1 T e o)
      as (ys & err & Hrun & Hys & Herr); try done.
    { intros key. apply key_of_map_to_list. }
    { intros key ent Hent st. eexists. split; [done|]. by repeat constructor. }
    { apply key_of_map_to_list. by eexists. }
    exists ys, err. split_and!; [done|done|].
    intros c st Hin. by apply (proj1 (Forall_forall _ _) Hys) in Hin.
Qed.

End query_claims.

(** ** Records and registration *)

Module Records.
Import OBJECT_STATES EntityStateManager Manager UnitOfWork Tracking.

Lemma grows_refl w : grows w w.
Proof. by split. Qed.

Lemma grows_trans w1 w2 w3 : grows w1 w2 → grows w2 w3 → grows w1 w3.
Proof.
  intros [Hr1 Hs1] [Hr2 Hs2]. split; [by auto|].
  intros u key x Hx. by apply Hs2, Hs1.
Qed.

Lemma grows_records_registered w w' :
  grows w w' → records_registered w → records_registered w'.
Proof.
  intros [Hr Hs] Hinv a Ha. destruct (Hinv a (Hr a Ha)) as (u & key & Hin).
  exists u, key. by apply Hs.
Qed.

Lemma keeps_unchanged {A} (m : M A) : (∀ w, (m w).2 = w) → keeps m.
Proof. intros Hm w. rewrite Hm. apply grows_refl. Qed.

Lemma keeps_ret {A} (a : A) : keeps (mret (M:=M) a).
Proof. by apply keeps_unchanged. Qed.

Lemma keeps_raise {A} (e : exn) : keeps (raise (A:=A) e).
Proof. by apply keeps_unchanged. Qed.

Lemma keeps_bind {A B} (m : M A) (f : A → M B) :
  keeps m → (∀ a, keeps (f a)) → keeps (m ≫= f).
Proof.
  intros Hm Hf w. unfold mbind, M_bind. specialize (Hm w).
  destruct (m w) as [[a|e] w']; simpl in *; [|done].
  eapply grows_trans; [exact Hm|apply Hf].
Qed.

Lemma deref_unchanged a w : (deref a w).2 = w.
Proof. unfold deref, mbind, M_bind, get_heap. by case_match. Qed.

Lemma getattr_unchanged a name w : (getattr a name w).2 = w.
Proof.
  destruct (w_heap w !! a) as [o|] eqn:Ho.
  - destruct (ob_dict o !! name) as [v|] eqn:Hv.
    + by rewrite (getattr_run _ _ _ _ _ Ho Hv).
    + by rewrite (getattr_missing _ _ _ _ Ho Hv).
  - unfold getattr. by rewrite (bind_raise _ _ _ _ _ (deref_dangling _ _ Ho)).
Qed.

Lemma hasattr_unchanged a name w : (hasattr a name w).2 = w.
Proof.
  destruct (w_heap w !! a) as [o|] eqn:Ho.
  - by rewrite (hasattr_run _ _ _ _ Ho).
  - unfold hasattr. by rewrite (bind_raise _ _ _ _ _ (deref_dangling _ _ Ho)).
Qed.

Lemma keeps_setattr a name v : name ≠ "__everest__" → keeps (setattr a name v).
Proof.
  intros Hname w. destruct (w_heap w !! a) as [o|] eqn:Ho.
  - rewrite (setattr_run _ _ _ _ _ Ho). split; [|done].
    intros x (ox & Hx & Hrec). simpl in Hx.
    destruct (decide (x = a)) as [->|Hne].
    + rewrite lookup_insert_eq in Hx. simplify_eq. exists o. split; [done|].
      simpl in Hrec. by rewrite lookup_insert_ne in Hrec.
    + rewrite lookup_insert_ne in Hx by done. by exists ox.
  - unfold setattr. rewrite (bind_raise _ _ _ _ _ (deref_dangling _ _ Ho)).
    apply grows_refl.
Qed.

Lemma keeps_set_add self key entity : keeps (set_add self key entity).
Proof.
  intros w. split.
  - by rewrite set_add_run.
  - intros u k. rewrite tracked_set_add. case_decide as Hd; [|done].
    destruct Hd as [-> ->]. set_solver.
Qed.

Section keeps.
Context `{Builtins}.

Lemma keeps_set_state self state : keeps (__set_state self state).
Proof.
  unfold __set_state. apply keeps_bind; [apply keeps_unchanged; intros; apply get_state_pure|].
  intros cur. destruct (negb _).
  - apply keeps_bind; [apply keeps_unchanged, getattr_unchanged|].
    intros. apply keeps_raise.
  - by apply keeps_setattr.
Qed.

Lemma get_state_string_unchanged self w : (__get_state_string self w).2 = w.
Proof.
  destruct (w_heap w !! self) as [o|] eqn:Ho.
  - by rewrite (get_state_string_run _ _ _ Ho).
  - unfold __get_state_string, get_state_data.
    by rewrite (bind_raise _ _ _ _ _ (bind_raise _ _ _ _ _ (deref_dangling _ _ Ho))).
Qed.

Lemma keeps_reset_state self : keeps (reset_state self).
Proof.
  unfold reset_state. apply keeps_bind; [apply keeps_set_state|]. intros _.
  apply keeps_bind; [apply keeps_unchanged, get_state_string_unchanged|].
  intros s. by apply keeps_setattr.
Qed.

Lemma keeps_state_set v state : keeps (state_set v state).
Proof.
  destruct v; try apply keeps_raise. simpl.
  apply keeps_bind; [apply keeps_unchanged, deref_unchanged|].
  intros o. destruct (isinstance o cls); [apply keeps_set_state|].
  by apply keeps_setattr.
Qed.

Lemma keeps_call_reset_state v : keeps (call_reset_state v).
Proof.
  destruct v; try apply keeps_raise. simpl.
  apply keeps_bind; [apply keeps_unchanged, deref_unchanged|].
  intros o. destruct (isinstance o cls); [apply keeps_reset_state|].
  apply keeps_bind; [apply keeps_unchanged, getattr_unchanged|].
  intros. apply keeps_raise.
Qed.

Lemma keeps_mark_clean u T e : keeps (mark_clean u T e).
Proof.
  unfold mark_clean. apply keeps_bind; [apply keeps_unchanged, hasattr_unchanged|].
  intros tracked. destruct (negb tracked); [apply keeps_raise|].
  apply keeps_bind; [apply keeps_unchanged, getattr_unchanged|]. intros mgr.
  apply keeps_bind; [apply keeps_call_reset_state|]. intros _. apply keeps_set_add.
Qed.

Lemma keeps_mark_deleted u T e : keeps (mark_deleted u T e).
Proof.
  unfold mark_deleted. apply keeps_bind; [apply keeps_unchanged, hasattr_unchanged|].
  intros tracked. destruct (negb tracked); [apply keeps_raise|].
  apply keeps_bind; [apply keeps_unchanged, getattr_unchanged|]. intros mgr.
  apply keeps_bind; [apply keeps_state_set|]. intros _. apply keeps_set_add.
Qed.

Lemma keeps_mark_dirty u T e : keeps (mark_dirty u T e).
Proof.
  unfold mark_dirty. apply keeps_bind; [apply keeps_unchanged, hasattr_unchanged|].
  intros tracked. destruct (negb tracked); [apply keeps_raise|].
  apply keeps_bind; [apply keeps_unchanged, getattr_unchanged|]. intros mgr.
  apply keeps_bind; [apply keeps_state_set|]. intros _. apply keeps_set_add.
Qed.

End keeps.
End Records.

Section record_claims.
Context `{Builtins}.
Import OBJECT_STATES EntityStateManager Manager UnitOfWork Tracking Records.

Lemma has_record_heap w w' a :
  w_heap w' !! a = w_heap w !! a → has_record w' a → has_record w a.
Proof. intros Heq (o & Ho & Hrec). exists o. by rewrite <- Heq. Qed.

Lemma registered_sets w w' a :
  (∀ u key, a ∈ tracked_set w u key → a ∈ tracked_set w' u key) →
  registered w a → registered w' a.
Proof. intros Hs (u & key & Hin). exists u, key. by apply Hs. Qed.

Lemma fresh_manager_no_record entity state :
  ob_dict (with_attr (fresh_manager entity) state_attr state) !! "__everest__" = None.
Proof. done. Qed.

Lemma register_new_keeps_invariant w u T e :
  records_registered w → records_registered (register_new u T e w).2.
Proof.
  intros Hinv. destruct (w_heap w !! e) as [o|] eqn:Ho.
  - destruct (ob_dict o !! "__everest__") as [v|] eqn:Hv.
    + by rewrite (register_new_tracked _ _ _ _ _ Ho (mk_is_Some _ _ Hv)).
    + rewrite (register_new_run _ _ _ _ _ Ho Hv). simpl.
      set (m := fresh (dom (w_heap w))).
      assert (m ≠ e) as Hme.
      { intros Heq. pose proof (fresh_addr_None (w_heap w)) as Hf. fold m in Hf.
        rewrite Heq in Hf. congruence. }
      intros a (oa & Ha & Hrec). simpl in Ha.
      destruct (decide (a = m)) as [->|Ham].
      { rewrite lookup_insert_eq in Ha. simplify_eq.
        rewrite fresh_manager_no_record in Hrec. by destruct Hrec. }
      rewrite lookup_insert_ne in Ha by done.
      destruct (decide (a = e)) as [->|Hae].
      * exists u, T. rewrite tracked_set_put, decide_True by done.
        rewrite lookup_total_insert_eq. set_solver.
      * rewrite lookup_insert_ne in Ha by done.
        destruct (Hinv a) as (u' & k & Hin); [by exists oa|].
        exists u', k. rewrite tracked_set_put. case_decide as Hu; [|done]. subst u'.
        destruct (decide (k = T)) as [->|Hk].
        -- rewrite lookup_total_insert_eq. set_solver.
        -- by rewrite lookup_total_insert_ne.
  - unfold register_new, hasattr.
    by rewrite (bind_raise _ _ _ _ _ (bind_raise _ _ _ _ _ (deref_dangling _ _ Ho))).
Qed.

(** [unregister] on a tracked member of the set: the set loses it and the
    entity loses [__everest__]. *)
Lemma unregister_run w u T e o v :
  w_heap w !! e = Some o →
  ob_dict o !! "__everest__" = Some v →
  e ∈ tracked_set w u T →
  unregister u T e w
  = (Return tt,
     World (<[e := Object (ob_class o) (delete "__everest__" (ob_dict o))]> (w_heap w))
           (<[u := <[T := tracked_set w u T ∖ {[e]}]> (w_uows w !!! u)]> (w_uows w))).
Proof.
  intros Ho Hv Hin. unfold unregister.
  rewrite (bind_run _ _ _ _ _ (hasattr_run _ _ _ _ Ho)).
  rewrite bool_decide_true by (by rewrite Hv). simpl.
  rewrite (bind_run _ _ _ _ _ (set_remove_run _ _ _ _ Hin)).
  by erewrite delattr_run.
Qed.

(** The ways [unregister] can end. *)
Lemma unregister_cases w u T e :
  (∃ err w', unregister u T e w = (Raise err, w')
           ∧ w_heap w' = w_heap w
           ∧ ∀ u' k, tracked_set w' u' k = tracked_set w u' k)
  ∨ (∃ o v, w_heap w !! e = Some o
          ∧ ob_dict o !! "__everest__" = Some v
          ∧ e ∈ tracked_set w u T).
Proof.
  destruct (w_heap w !! e) as [o|] eqn:Ho.
  - destruct (ob_dict o !! "__everest__") as [v|] eqn:Hv.
    + destruct (decide (e ∈ tracked_set w u T)) as [Hin|Hin].
      * right. by exists o, v.
      * left. destruct (set_remove_missing _ _ _ _ Hin) as (w' & Hrun & Hh & Hs).
        exists (KeyError e), w'. split; [|done]. unfold unregister.
        rewrite (bind_run _ _ _ _ _ (hasattr_run _ _ _ _ Ho)).
        rewrite bool_decide_true by (by rewrite Hv). simpl.
        by rewrite (bind_raise _ _ _ _ _ Hrun).
    + left. eexists _, w. split; [|done]. unfold unregister.
      rewrite (bind_run _ _ _ _ _ (hasattr_run _ _ _ _ Ho)).
      by rewrite bool_decide_false by (rewrite Hv; by intros [? ?]).
  - left. eexists _, w. split; [|done]. unfold unregister, hasattr.
    by rewrite (bind_raise _ _ _ _ _ (bind_raise _ _ _ _ _ (deref_dangling _ _ Ho))).
Qed.

Lemma unregister_keeps_invariant w u T e :
  records_registered w → records_registered (unregister u T e w).2.
Proof.
  intros Hinv.
  destruct (unregister_cases w u T e)
    as [(err & w' & -> & Hh & Hs)|(o & v & Ho & Hv & Hin)]; simpl.
  - intros a Ha. apply (registered_sets w); [intros; by rewrite Hs|].
    apply Hinv. eapply has_record_heap; [|done]. by rewrite Hh.
  - rewrite (unregister_run _ _ _ _ _ _ Ho Hv Hin). simpl.
    intros a (oa & Ha & Hrec). simpl in Ha.
    destruct (decide (a = e)) as [->|Hae].
    { rewrite lookup_insert_eq in Ha. simplify_eq. simpl in Hrec.
      rewrite lookup_delete_eq in Hrec. by destruct Hrec. }
    rewrite lookup_insert_ne in Ha by done.
    destruct (Hinv a) as (u' & k & Hin'); [by exists oa|].
    exists u', k. rewrite tracked_set_put. case_decide as Hu; [|done]. subst u'.
    destruct (decide (k = T)) as [->|Hk].
    + rewrite lookup_total_insert_eq. set_solver.
    + by rewrite lookup_total_insert_ne.
Qed.

Lemma run_call_keeps_invariant c w :
  records_registered w → records_registered (run_call c w).2.
Proof.
  destruct c as [u T e|u T e|u T e|u T e|u T e]; simpl.
  - apply register_new_keeps_invariant.
  - apply grows_records_registered, keeps_mark_clean.
  - apply grows_records_registered, keeps_mark_deleted.
  - apply grows_records_registered, keeps_mark_dirty.
  - apply unregister_keeps_invariant.
Qed.

Lemma run_calls_keep_invariant cs w :
  records_registered w → records_registered (run_calls cs w).
Proof.
  revert w. induction cs as [|c cs IH]; intros w Hinv; [done|].
  simpl. by apply IH, run_call_keeps_invariant.
Qed.

(** C4, as the code has it.  Across [register_new], [mark_clean],
    [mark_deleted], [mark_dirty] and [unregister] calls, whether they return
    or raise, every entity that carries a tracking record stays registered
    in some unit of work.  [register_new(T, e)] gives [e] its record and
    puts it in the tracked set of [T]; an [unregister(T, e)] that returns
    has removed both.  [reset] empties the tracked sets of its unit of work
    and touches no object, so records stay where they were. *)
Theorem C4_records_and_registration :
  (∀ w cs, records_registered w → records_registered (run_calls cs w))
  ∧ (∀ w u T e o,
       w_heap w !! e = Some o → ob_dict o !! "__everest__" = None →
       ∃ w', register_new u T e w = (Return tt, w')
           ∧ has_record w' e ∧ e ∈ tracked_set w' u T)
  ∧ (∀ w u T e w',
       unregister u T e w = (Return tt, w') →
       has_record w e ∧ e ∈ tracked_set w u T
       ∧ ¬ has_record w' e ∧ e ∉ tracked_set w' u T)
  ∧ (∀ w u,
       ∃ w', reset u w = (Return tt, w')
           ∧ w_heap w' = w_heap w
           ∧ (∀ a, has_record w' a ↔ has_record w a)
           ∧ (∀ key, tracked_set w' u key = ∅)
           ∧ (∀ u' key, u' ≠ u → tracked_set w' u' key = tracked_set w u' key)).
Proof.
  split_and!.
  - intros w cs. apply run_calls_keep_invariant.
  - intros w u T e o Ho Hv. eexists. split; [by apply register_new_run|].
    set (m := fresh (dom (w_heap w))).
    assert (m ≠ e) as Hme.
    { intros Heq. pose proof (fresh_addr_None (w_heap w)) as Hf. fold m in Hf.
      rewrite Heq in Hf. congruence. }
    split.
    + eexists. simpl. rewrite lookup_insert_ne by done. rewrite lookup_insert_eq.
      split; [done|]. simpl. rewrite lookup_insert_eq. by eexists.
    + rewrite tracked_set_put, decide_True by done.
      rewrite lookup_total_insert_eq. set_solver.
  - intros w u T e w' Hrun.
    destruct (unregister_cases w u T e)
      as [(err & w'' & Hraise & _)|(o & v & Ho & Hv & Hin)]; [congruence|].
    rewrite (unregister_run _ _ _ _ _ _ Ho Hv Hin) in Hrun. simplify_eq.
    split_and!; [exists o; by rewrite Hv|done| |].
    + intros (o' & Ho' & Hrec). simpl in Ho'. rewrite lookup_insert_eq in Ho'.
      simplify_eq. simpl in Hrec. rewrite lookup_delete_eq in Hrec. by destruct Hrec.
    + rewrite tracked_set_put, decide_True by done.
      rewrite lookup_total_insert_eq. set_solver.
  - intros w u. eexists. split; [done|]. simpl. split_and!; [done|done|..].
    + intros key. rewrite tracked_set_put, decide_True by done.
      by rewrite lookup_total_empty.
    + intros u' key Hu. by rewrite tracked_set_put, decide_False.
Qed.

End record_claims.

(** ** Concrete runs of the statements *)

Section runs.
Import OBJECT_STATES EntityStateManager UnitOfWork Example.
#[local] Existing Instance builtins.

(** Reads the object at [m] off the heap and checks that it is a tracker. *)
Ltac tracker_by_compute :=
  match goal with
  | |- tracker ?w ?m _ =>
      let r := eval vm_compute in (w_heap w !! m) in
      match r with
      | Some ?o => exists o; split_and!; vm_compute; reflexivity
      end
  end.



Lemma C7_witness :
  (__get_state 1 manager_touched).1 = Return DIRTY
  ∧ (__get_state 1 manager_touched).2 = manager_touched
  ∧ ob_dict <$> w_heap manager_touched !! 1
    = Some (<[ "note" := VStr "x" ]>
              (<[ last_state_hash_attr := VInt 0 ]>
                 (<[ state_attr := CLEAN ]>
                    (<[ obj_ref_attr := VWeak 0 ]> ∅)))).
Proof.
  pose proof (C7_get_state_is_a_read manager_touched 1) as (Hpure & _ & Hdirty).
  split_and!; [|done|vm_compute; reflexivity].
  match eval vm_compute in (w_heap manager_touched !! 1) with
  | Some ?o =>
      refine (proj1 (Hdirty o (VInt 0) _ _ _ _)); vm_compute; try reflexivity
  end.
  discriminate.
Defined.

Lemma C8_witness :
  w_heap registered_new !! 1
  = Some (with_attr (fresh_manager 0) state_attr NEW)
  ∧ ∃ w', reset_state 1 registered_new = (Return tt, w')
        ∧ tracker w' 1 CLEAN
        ∧ __get_state 1 w' = (Return CLEAN, w').
Proof.
  assert (w_heap registered_new !! 1
          = Some (with_attr (fresh_manager 0) state_attr NEW)) as Ho
    by (vm_compute; reflexivity).
  split; [done|].
  refine (proj1 (C8_reset_state_then_get_state registered_new 1 _ NEW (VInt 0)
                   Ho _ _ _) _); vm_compute; try reflexivity.
  right. by left.
Defined.

(** C8 fails as stated: a tracker in state DELETED refuses [reset_state] and
    is still DELETED afterwards; a tracker in state CLEAN refuses it too. *)
Lemma C8_counterexample :
  tracker marked_deleted 1 DELETED
  ∧ reset_state 1 marked_deleted
    = (Raise (ValueError "Invalid state transition DELETED -> CLEAN."), marked_deleted)
  ∧ __get_state 1 marked_deleted = (Return DELETED, marked_deleted)
  ∧ tracker registered_clean 2 CLEAN
  ∧ reset_state 2 registered_clean
    = (Raise (ValueError "Invalid state transition CLEAN -> CLEAN."), registered_clean).
Proof.
  split_and!;
    [tracker_by_compute|vm_compute; reflexivity..|tracker_by_compute|vm_compute; reflexivity].
Qed.

Lemma C3_witness :
  w_heap start !! 0 = Some widget
  ∧ ∃ c m oc w',
      register_clean 7 "Widget" 0 start = (Return c, w')
      ∧ c ≠ 0 ∧ w_heap start !! c = None
      ∧ w_heap w' !! c = Some oc
      ∧ ob_class oc = ob_class widget
      ∧ public_items (ob_dict oc) = public_items (ob_dict widget)
      ∧ Entity.id oc = Entity.id widget
      ∧ Entity.__eq__ oc widget = true
      ∧ ob_dict oc !! "__everest__" = Some (VRef m)
      ∧ w_heap start !! m = None
      ∧ tracker w' m CLEAN
      ∧ state_get (VRef m) w' = (Return CLEAN, w')
      ∧ w_heap w' !! 0 = Some widget
      ∧ tracked_set w' 7 "Widget" = {[0]} ∪ tracked_set start 7 "Widget"
      ∧ (c ∉ tracked_set start 7 "Widget" → c ∉ tracked_set w' 7 "Widget").
Proof.
  assert (w_heap start !! 0 = Some widget) as Ho by (vm_compute; reflexivity).
  split; [done|].
  exact (C3_register_clean start 7 "Widget" 0 widget Ho).
Defined.

Lemma C6_witness :
  w_heap start !! 0 = Some widget
  ∧ ob_dict widget !! "__everest__" = None
  ∧ ∃ w1,
      register_new 7 "Widget" 0 start = (Return tt, w1)
      ∧ has_record w1 0
      ∧ register_new 7 "Widget" 0 w1
        = (Raise (ValueError
                    "Trying to register a NEW entity that has already been registered!"),
           w1)
      ∧ filter (λ x, x = 0) (elements (tracked_set w1 7 "Widget")) = [0].
Proof.
  assert (w_heap start !! 0 = Some widget) as Ho by (vm_compute; reflexivity).
  assert (ob_dict widget !! "__everest__" = None) as Hv by (vm_compute; reflexivity).
  split_and!; [done..|].
  exact (C6_double_registration start 7 7 "Widget" "Widget" 0 widget Ho Hv).
Defined.

Lemma C9_witness :
  w_heap start !! 0 = Some widget
  ∧ ob_dict widget !! "__everest__" = None
  ∧ unregister 7 "Widget" 0 start
    = (Raise (ValueError
                "Trying to unregister an entity that has not been registered yet!"),
       start)
  ∧ mark_dirty 7 "Widget" 0 start
    = (Raise (ValueError "Trying to mark an unregistered entity as DIRTY!"), start).
Proof.
  assert (w_heap start !! 0 = Some widget) as Ho by (vm_compute; reflexivity).
  assert (ob_dict widget !! "__everest__" = None) as Hv by (vm_compute; reflexivity).
  split_and!; [done..| |];
    apply (C9_unregistered_entity start 7 "Widget" 0 widget Ho Hv).
Defined.

Lemma C10_witness :
  w_heap registered_clean !! 0 = Some widget
  ∧ ob_dict widget !! "__everest__" = None
  ∧ 0 ∈ tracked_set registered_clean 7 "Widget"
  ∧ tracked_live registered_clean 7
  ∧ records_live registered_clean
  ∧ (∃ ys err, get_dirty 7 None registered_clean = ((ys, Some err), registered_clean)
             ∧ is_attribute_error err ∧ 0 ∉ ys)
  ∧ (∃ ys err, iterator 7 registered_clean = ((ys, Some err), registered_clean)
             ∧ is_attribute_error err ∧ ∀ c st, (c, 0, st) ∉ ys).
Proof.
  assert (w_heap registered_clean !! 0 = Some widget) as Ho by (vm_compute; reflexivity).
  assert (ob_dict widget !! "__everest__" = None) as Hv by (vm_compute; reflexivity).
  assert (0 ∈ tracked_set registered_clean 7 "Widget") as Hin by compute_done.
  assert (tracked_live registered_clean 7) as Hlive by (unfold tracked_live; compute_done).
  assert (records_live registered_clean) as Hrecs by (unfold records_live; compute_done).
  pose proof (C10_queries_fail_on_untracked_original
                registered_clean 7 "Widget" 0 widget Ho Hv Hin Hlive Hrecs) as [Hq Hit].
  split_and!; [done..| |done].
  apply (Hq (get_dirty 7)); [do 3 right|]; by left.
Defined.

(** C10 at work: after [register_clean] every query stops at the original. *)
Lemma queries_after_register_clean :
  (get_clean 7 None registered_clean).1
  = ([], Some (AttributeError (VRef 0) "__everest__"))
  ∧ (get_dirty 7 (Some "Widget") clone_renamed).1
    = ([], Some (AttributeError (VRef 0) "__everest__"))
  ∧ (iterator 7 registered_clean).1
    = ([], Some (AttributeError (VRef 0) "__everest__")).
Proof. split_and!; vm_compute; reflexivity. Qed.

Lemma C1_witness :
  w_heap marked_clean !! 0 = Some (with_attr widget "__everest__" (VRef 1))
  ∧ tracker marked_clean 1 CLEAN
  ∧ ∃ w', setattr 0 "name" (VStr "b") marked_clean = (Return tt, w')
        ∧ w_heap w' !! 0
          = Some (with_attr (with_attr widget "__everest__" (VRef 1)) "name" (VStr "b"))
        ∧ tracker w' 1 CLEAN
        ∧ read_state 0 w' = (Return CLEAN, w').
Proof.
  assert (w_heap marked_clean !! 0 = Some (with_attr widget "__everest__" (VRef 1)))
    as Ho by (vm_compute; reflexivity).
  assert (tracker marked_clean 1 CLEAN) as Htr by tracker_by_compute.
  split_and!; [done..|].
  refine (C1_entity_mutation_not_detected marked_clean 0 1 _ CLEAN "name" (VStr "b")
            Ho _ _ Htr _); [vm_compute; reflexivity|discriminate..].
Defined.

(** The failing run of C1: a widget registered, marked CLEAN and renamed is
    still read as CLEAN, and [get_dirty] does not yield it. *)
Lemma renamed_widget_stays_clean :
  (ob_dict <$> w_heap marked_clean !! 0) ≫= (.!! "name") = Some (VStr "a")
  ∧ (ob_dict <$> w_heap widget_renamed !! 0) ≫= (.!! "name") = Some (VStr "b")
  ∧ read_state 0 marked_clean = (Return CLEAN, marked_clean)
  ∧ read_state 0 widget_renamed = (Return CLEAN, widget_renamed)
  ∧ get_dirty 7 None widget_renamed = (([], None), widget_renamed)
  ∧ get_clean 7 None widget_renamed = (([0], None), widget_renamed).
Proof. split_and!; vm_compute; reflexivity. Qed.

Lemma C5_witness :
  Entity.eq_op widget1 widget1 = true
  ∧ Entity.eq_op widget1 special_widget1 = false
  ∧ Entity.eq_op special_widget1 widget1 = false
  ∧ Entity.eq_op widget1 gadget1 = false.
Proof.
  split_and!.
  - refine (proj1 (proj1 (proj2 (C5_entity_equality widget1 widget1 _)) _ _));
      reflexivity.
  - refine (proj1 (proj2 (proj2 (C5_entity_equality widget1 special_widget1 _)) _)).
    + intros Ha. vm_compute in Ha. discriminate.
    + discriminate.
  - refine (proj1 (proj2 (proj2 (C5_entity_equality special_widget1 widget1 _)) _)).
    + intros _ Hb. vm_compute in Hb. discriminate.
    + discriminate.
  - refine (proj1 (proj2 (proj2 (C5_entity_equality widget1 gadget1 _)) _)).
    + intros Ha. vm_compute in Ha. discriminate.
    + discriminate.
Defined.

(** The method called directly is not the operator: [Widget.__eq__] accepts
    a [SpecialWidget] with the same id, and not the other way round. *)
Lemma eq_method_accepts_subclass :
  Entity.__eq__ widget1 special_widget1 = true
  ∧ Entity.id widget1 = Entity.id special_widget1
  ∧ c_name (ob_class widget1) ≠ c_name (ob_class special_widget1)
  ∧ Entity.__eq__ special_widget1 widget1 = false.
Proof. split_and!; [reflexivity|reflexivity|discriminate|reflexivity]. Qed.

Lemma tracked_set_of_singleton (w : world) (m : gmap string (gset addr)) u key a :
  w_uows w = {[ 7 := m ]} → a ∈ tracked_set w u key →
  ∃ s, m !! key = Some s ∧ a ∈ s.
Proof.
  intros Hu Hin. apply Tracking.tracked_set_elem in Hin as (s & Hs & Hin).
  rewrite lookup_total_alt, Hu in Hs.
  destruct (({[ 7 := m ]} : gmap nat _) !! u) as [m'|] eqn:Hm; simpl in Hs.
  - apply lookup_singleton_Some in Hm as [_ <-]. by exists s.
  - by rewrite lookup_empty in Hs.
Qed.

Lemma no_member_of_empty_uow (w : world) (a : addr) :
  w_uows w = {[ 7 := ∅ ]} → ¬ registered w a.
Proof.
  intros Hu (u & key & Hin).
  apply (tracked_set_of_singleton _ _ _ _ _ Hu) in Hin as (s & Hs & _).
  by rewrite lookup_empty in Hs.
Qed.

Lemma only_member_of_widget_set (w : world) (a : addr) :
  w_uows w = {[ 7 := {[ "Widget" := {[ 0 ]} ]} ]} → registered w a → a = 0.
Proof.
  intros Hu (u & key & Hin).
  apply (tracked_set_of_singleton _ _ _ _ _ Hu) in Hin as (s & Hs & Hin).
  apply lookup_singleton_Some in Hs as [_ <-]. set_solver.
Qed.

(** C4 fails as stated.  After [register_new] and [reset], with unit of
    work 7 the only one there is, the widget carries a record and is
    registered nowhere; after [register_clean] the original is registered
    and carries no record, while the clone carries one and is registered
    nowhere. *)
Lemma C4_counterexample :
  (has_record registered_then_reset 0 ∧ ¬ registered registered_then_reset 0)
  ∧ (registered registered_clean 0 ∧ ¬ has_record registered_clean 0)
  ∧ (has_record registered_clean 1 ∧ ¬ registered registered_clean 1).
Proof.
  split_and!.
  - match eval vm_compute in (w_heap registered_then_reset !! 0) with
    | Some ?o => exists o; split; vm_compute; [reflexivity|by eexists]
    end.
  - apply no_member_of_empty_uow. vm_compute. reflexivity.
  - exists 7, "Widget". compute_done.
  - intros (o & Ho & Hrec). vm_compute in Ho. injection Ho as <-.
    vm_compute in Hrec. by destruct Hrec.
  - match eval vm_compute in (w_heap registered_clean !! 1) with
    | Some ?o => exists o; split; vm_compute; [reflexivity|by eexists]
    end.
  - intros Hreg. apply only_member_of_widget_set in Hreg; [done|].
    vm_compute. reflexivity.
Qed.

Lemma C4_witness :
  records_registered registered_new
  ∧ records_registered
      (run_calls [Mark_clean 7 "Widget" 0; Mark_deleted 7 "Gadget" 0;
                  Unregister 7 "Widget" 0; Register_new 7 "Widget" 0]
         registered_new)
  ∧ ∃ w', reset 7 registered_new = (Return tt, w')
        ∧ w_heap w' = w_heap registered_new
        ∧ (∀ a, has_record w' a ↔ has_record registered_new a)
        ∧ (∀ key, tracked_set w' 7 key = ∅)
        ∧ (∀ u' key, u' ≠ 7 → tracked_set w' u' key = tracked_set registered_new u' key).
Proof.
  pose proof C4_records_and_registration as (Hinv & Hnew & _ & Hreset).
  assert (records_registered start) as Hstart.
  { intros a (o & Ho & Hrec). unfold start in Ho. simpl in Ho.
    apply lookup_singleton_Some in Ho as [<- <-].
    vm_compute in Hrec. by destruct Hrec. }
  assert (records_registered registered_new) as Hreg
    by apply (Hinv start [Register_new 7 "Widget" 0] Hstart).
  split_and!; [done|exact (Hinv registered_new _ Hreg)|apply Hreset].
Defined.

End runs.

(** * Further properties of the unit of work *)

(** ** Working trackers and the state queries *)

Section tracked.
Context `{Builtins}.
Import OBJECT_STATES EntityStateManager Manager UnitOfWork Tracking Generators.

Lemma tracker_state_unique w m st st' : tracker w m st → tracker w m st' → st = st'.
Proof. intros (o & Ho & _ & Hst & _) (o' & Ho' & _ & Hst' & _). congruence. Qed.

Lemma well_tracked_read w e st :
  well_tracked w e st → read_state e w = (Return st, w).
Proof. intros (o & m & Ho & Hm & Htr). by eapply read_state_run. Qed.

Lemma well_tracked_state_of w e st : well_tracked w e st → state_of w e = st.
Proof. intros Hwt. unfold state_of. by rewrite (well_tracked_read _ _ _ Hwt). Qed.

Lemma well_tracked_unique w e st st' :
  well_tracked w e st → well_tracked w e st' → st = st'.
Proof.
  intros H1 H2. by rewrite <- (well_tracked_state_of _ _ _ H1),
    (well_tracked_state_of _ _ _ H2).
Qed.

Lemma well_tracked_has_record w e st : well_tracked w e st → has_record w e.
Proof. intros (o & m & Ho & Hm & _). exists o. by rewrite Hm. Qed.

(** A loop whose bodies yield and neither raise nor change the world. *)
Lemma gen_for_yields {A B} (l : list A) (body : A → Gen B) (f : A → list B) w :
  (∀ x, x ∈ l → body x w = ((f x, None), w)) →
  gen_for l body w = ((flat_map f l, None), w).
Proof.
  induction l as [|x l IH]; intros Hbody; simpl; [done|].
  rewrite Hbody by (by left). rewrite IH; [done|].
  intros y Hy. apply Hbody. by right.
Qed.

(** The loop body of the iterators at an entity with a working tracker. *)
Lemma entity_body_yields {B} (k : value → M (list B)) w ent st ys :
  well_tracked w ent st →
  k st w = (Return ys, w) →
  gen_body (mgr ← getattr ent "__everest__";
            st ← state_get mgr;
            k st) w
  = ((ys, None), w).
Proof.
  intros Hwt Hk. unfold gen_body.
  pose proof (well_tracked_read _ _ _ Hwt) as Hread. unfold read_state in Hread.
  destruct Hwt as (o & m & Ho & Hm & Htr).
  rewrite (bind_run _ _ _ _ _ (getattr_run _ _ _ _ _ Ho Hm)) in Hread.
  rewrite (bind_run _ _ _ _ _ (getattr_run _ _ _ _ _ Ho Hm)).
  by rewrite (bind_run _ _ _ _ _ Hread), Hk.
Qed.

Lemma filter_state_yields w state ent :
  (if bool_decide (state_of w ent = state) then mret (M:=M) [ent] else mret []) w
  = (Return (filter (λ e, state_of w e = state) [ent]), w).
Proof.
  case_bool_decide.
  - by rewrite filter_cons_True.
  - by rewrite filter_cons_False.
Qed.

Lemma flat_map_filter_singleton {A} (P : A → Prop) `{!∀ x, Decision (P x)} (l : list A) :
  flat_map (λ x, filter P [x]) l = filter P l.
Proof.
  induction l as [|x l IH]; [done|]. simpl. rewrite IH, !filter_cons, filter_nil.
  by destruct (decide (P x)).
Qed.

(** The loop of [__object_iterator] over one tracked set. *)
Lemma object_set_loop w u key state :
  healthy w u →
  gen_for (elements (tracked_set w u key)) (λ ent,
    gen_body (mgr ← getattr ent "__everest__";
              st ← state_get mgr;
              if bool_decide (st = state) then mret [ent] else mret [])) w
  = ((filter (λ e, state_of w e = state) (elements (tracked_set w u key)), None), w).
Proof.
  intros Hok.
  rewrite (gen_for_yields _ _ (λ ent, filter (λ e, state_of w e = state) [ent])).
  - by rewrite flat_map_filter_singleton.
  - intros ent Hent. apply elem_of_elements in Hent.
    destruct (Hok key ent Hent) as [st Hwt].
    apply (entity_body_yields _ _ _ st); [done|].
    rewrite <- (well_tracked_state_of _ _ _ Hwt). apply filter_state_yields.
Qed.

(** The loop of [iterator] over one tracked set. *)
Lemma iterator_set_loop w u key :
  healthy w u →
  gen_for (elements (tracked_set w u key)) (λ ent,
    gen_body (mgr ← getattr ent "__everest__";
              st ← state_get mgr;
              mret [(key, ent, st)])) w
  = (((λ e, (key, e, state_of w e)) <$> elements (tracked_set w u key), None), w).
Proof.
  intros Hok.
  rewrite (gen_for_yields _ _ (λ ent, [(key, ent, state_of w ent)])).
  - by do 2 f_equal.
  - intros ent Hent. apply elem_of_elements in Hent.
    destruct (Hok key ent Hent) as [st Hwt].
    apply (entity_body_yields _ _ _ st); [done|].
    by rewrite (well_tracked_state_of _ _ _ Hwt).
Qed.

Lemma getitem_present w u key :
  is_Some ((w_uows w !!! u) !! key) →
  getitem u key w = (Return (tracked_set w u key), w).
Proof. intros [s Hs]. by rewrite getitem_run, Hs. Qed.

(** [getitem] changes neither the heap nor any tracked set. *)
Lemma getitem_frame w u key :
  w_heap (getitem u key w).2 = w_heap w
  ∧ ∀ u' k, tracked_set (getitem u key w).2 u' k = tracked_set w u' k.
Proof.
  rewrite getitem_run. simpl.
  destruct ((w_uows w !!! u) !! key) as [s|] eqn:Hs; [done|].
  split; [done|]. intros u' k. rewrite tracked_set_put. case_decide; [|done].
  subst. destruct (decide (k = key)) as [->|].
  - by rewrite lookup_total_insert_eq, (tracked_set_missing _ _ _ Hs).
  - by rewrite lookup_total_insert_ne.
Qed.

Lemma object_iterator_all w u state :
  healthy w u →
  __object_iterator u state None w
  = ((flat_map (λ key, filter (λ e, state_of w e = state)
                         (elements (tracked_set w u key)))
        (map_to_list (w_uows w !!! u)).*1,
      None), w).
Proof.
  intros Hok. unfold __object_iterator.
  apply gen_for_yields. intros key Hkey.
  rewrite getitem_present by (by apply key_of_map_to_list).
  by apply object_set_loop.
Qed.

End tracked.

Section query_results.
Context `{Builtins}.
Import OBJECT_STATES EntityStateManager Manager UnitOfWork Tracking Generators.

Lemma object_iterator_one w u state T :
  healthy w u →
  ∃ w', __object_iterator u state (Some T) w
        = ((filter (λ e, state_of w e = state) (elements (tracked_set w u T)), None), w')
      ∧ w_heap w' = w_heap w
      ∧ ∀ u' k, tracked_set w' u' k = tracked_set w u' k.
Proof.
  intros Hok. unfold __object_iterator. simpl.
  destruct ((w_uows w !!! u) !! T) as [s|] eqn:Hs.
  - exists w. split; [|done].
    rewrite getitem_present by (by eexists).
    rewrite (object_set_loop _ _ _ _ Hok). simpl. by rewrite app_nil_r.
  - pose proof (getitem_frame w u T) as [Hh Hsets].
    rewrite getitem_run in Hh, Hsets |- *. rewrite Hs in Hh, Hsets |- *.
    simpl in *. rewrite (tracked_set_missing _ _ _ Hs), elements_empty. simpl.
    eexists. split; [done|]. split; [done|]. intros u' k.
    by rewrite Hsets.
Qed.

Lemma elem_of_object_iterator_all w u state e :
  healthy w u →
  e ∈ flat_map (λ key, filter (λ e, state_of w e = state)
                         (elements (tracked_set w u key)))
        (map_to_list (w_uows w !!! u)).*1
  ↔ ∃ key, e ∈ tracked_set w u key ∧ well_tracked w e state.
Proof.
  intros Hok. rewrite list_elem_of_In, in_flat_map. split.
  - intros (key & _ & Hin). apply list_elem_of_In, list_elem_of_filter in Hin as [Hst Hin].
    apply elem_of_elements in Hin. exists key. split; [done|].
    destruct (Hok key e Hin) as [st Hwt].
    by rewrite <- Hst, (well_tracked_state_of _ _ _ Hwt).
  - intros (key & Hin & Hwt). exists key. split.
    + apply list_elem_of_In, key_of_map_to_list.
      apply tracked_set_elem in Hin as (s & Hs & _). by eexists.
    + apply list_elem_of_In, list_elem_of_filter. split.
      * by apply well_tracked_state_of.
      * by apply elem_of_elements.
Qed.

(** X1.  In a unit of work all of whose tracked entities carry a working
    tracker, [get_clean], [get_new], [get_deleted] and [get_dirty] raise
    nothing and yield, key by key, the tracked entities whose state is the
    one asked for, and [iterator] yields every tracked entity with its key
    and state; called for all classes they leave the world as it was,
    called for one class they change neither an object nor a tracked set. *)
Theorem X1_queries_select_by_state (w : world) (u : nat) :
  healthy w u →
  (∀ query state, (query, state) ∈ state_queries →
     query u None w
     = ((flat_map (λ key, filter (λ e, state_of w e = state)
                            (elements (tracked_set w u key)))
           (map_to_list (w_uows w !!! u)).*1,
         None), w)
     ∧ (∀ e, e ∈ (query u None w).1.1
             ↔ ∃ key, e ∈ tracked_set w u key ∧ well_tracked w e state)
     ∧ ∀ T, ∃ w',
         query u (Some T) w
         = ((filter (λ e, state_of w e = state) (elements (tracked_set w u T)), None), w')
         ∧ w_heap w' = w_heap w
         ∧ ∀ u' k, tracked_set w' u' k = tracked_set w u' k)
  ∧ iterator u w
    = ((flat_map (λ key, (λ e, (key, e, state_of w e)) <$> elements (tracked_set w u key))
          (map_to_list (w_uows w !!! u)).*1,
        None), w).
Proof.
  intros Hok. split.
  - intros query state Hq.
    assert (query = λ u c, __object_iterator u state c) as ->.
    { unfold state_queries in Hq.
      repeat (apply elem_of_cons in Hq as [[= -> ->]|Hq]; [done|]).
      by apply elem_of_nil in Hq. }
    split_and!.
    + by apply object_iterator_all.
    + intros e. rewrite object_iterator_all by done. simpl.
      by apply elem_of_object_iterator_all.
    + intros T. by apply object_iterator_one.
  - unfold iterator. apply gen_for_yields. intros key Hkey.
    rewrite getitem_present by (by apply key_of_map_to_list).
    by apply iterator_set_loop.
Qed.

End query_results.

(** ** Marking *)

Section marking.
Context `{Builtins}.
Import OBJECT_STATES EntityStateManager Manager UnitOfWork Tracking.

Lemma state_set_allowed w m st state :
  tracker w m st →
  (st, state) ∈ __allowed_transitions →
  ∃ om, w_heap w !! m = Some om
      ∧ state_set (VRef m) state w
        = (Return tt, World (<[m := with_attr om state_attr state]> (w_heap w)) (w_uows w)).
Proof.
  intros Htr Hin. pose proof Htr as (om & Hom & Hcls & _). exists om. split; [done|].
  unfold state_set. rewrite (bind_run _ _ _ _ _ (deref_run _ _ _ Hom)), Hcls.
  by eapply set_state_allowed; [|apply tracker_get_state|].
Qed.

Lemma state_set_refused w m st state :
  tracker w m st →
  (st, state) ∉ __allowed_transitions →
  state_set (VRef m) state w
  = (Raise (ValueError (invalid_transition_msg st state)), w).
Proof.
  intros Htr Hin. pose proof Htr as (om & Hom & Hcls & Hst & _).
  unfold state_set. rewrite (bind_run _ _ _ _ _ (deref_run _ _ _ Hom)), Hcls.
  by eapply set_state_refused; [| |apply tracker_get_state|].
Qed.

Lemma call_reset_state_allowed w m st :
  tracker w m st →
  (st, CLEAN) ∈ __allowed_transitions →
  ∃ om d', w_heap w !! m = Some om
      ∧ call_reset_state (VRef m) w
        = (Return tt, World (<[m := Object (ob_class om) d']> (w_heap w)) (w_uows w))
      ∧ d' !! "__everest__" = ob_dict om !! "__everest__"
      ∧ tracker (World (<[m := Object (ob_class om) d']> (w_heap w)) (w_uows w)) m CLEAN.
Proof.
  intros Htr Hin. pose proof Htr as (om & Hom & Hcls & _).
  pose proof (tracker_get_state _ _ _ Htr) as Hcur.
  eexists om, _. split; [done|].
  assert (call_reset_state (VRef m) w = reset_state m w) as ->.
  { unfold call_reset_state.
    by rewrite (bind_run _ _ _ _ _ (deref_run _ _ _ Hom)), Hcls. }
  split; [by apply (reset_state_run _ _ _ _ Hom Hcur Hin)|]. split.
  - by rewrite !lookup_insert_ne.
  - eapply reset_state_tracker; [done..|].
    by apply (reset_state_run _ _ _ _ Hom Hcur Hin).
Qed.

Lemma call_reset_state_refused w m st :
  tracker w m st →
  (st, CLEAN) ∉ __allowed_transitions →
  call_reset_state (VRef m) w
  = (Raise (ValueError (invalid_transition_msg st CLEAN)), w).
Proof.
  intros Htr Hin. pose proof Htr as (om & Hom & Hcls & Hst & _).
  unfold call_reset_state, reset_state.
  rewrite (bind_run _ _ _ _ _ (deref_run _ _ _ Hom)), Hcls.
  erewrite bind_raise; [done|].
  by eapply set_state_refused; [| |apply tracker_get_state|].
Qed.

Lemma tracked_set_after_add h w u T e :
  tracked_set (World h (<[u := <[T := {[e]} ∪ tracked_set w u T]> (w_uows w !!! u)]>
                          (w_uows w))) u T
  = {[e]} ∪ tracked_set w u T
  ∧ ∀ u' k, (u', k) ≠ (u, T) →
      tracked_set (World h (<[u := <[T := {[e]} ∪ tracked_set w u T]> (w_uows w !!! u)]>
                              (w_uows w))) u' k
      = tracked_set w u' k.
Proof.
  split.
  - rewrite tracked_set_put, decide_True by done. by rewrite lookup_total_insert_eq.
  - intros u' k Hne. rewrite tracked_set_put. case_decide as Hu; [|done]. subst.
    rewrite lookup_total_insert_ne; [done|]. congruence.
Qed.

Lemma mark_run w u T e o m st mark target :
  w_heap w !! e = Some o →
  ob_dict o !! "__everest__" = Some (VRef m) →
  tracker w m st →
  (mark, target) ∈ mark_methods →
  if bool_decide ((st, target) ∈ __allowed_transitions)
  then ∃ w', mark u T e w = (Return tt, w') ∧ marked w w' u T e m target
  else mark u T e w = (Raise (ValueError (invalid_transition_msg st target)), w).
Proof.
  intros Ho Hm Htr Hmark.
  assert (bool_decide (is_Some (ob_dict o !! "__everest__")) = true) as Hb
    by (apply bool_decide_eq_true; by rewrite Hm).
  unfold mark_methods in Hmark.
  destruct (decide ((st, target) ∈ __allowed_transitions)) as [Hin|Hin];
    [rewrite bool_decide_true by done|rewrite bool_decide_false by done].
  - assert (∃ om d', w_heap w !! m = Some om
              ∧ (mark u T e w
                   = (set_add u T e
                        (World (<[m := Object (ob_class om) d']> (w_heap w)) (w_uows w))))
              ∧ d' !! "__everest__" = ob_dict om !! "__everest__"
              ∧ tracker (World (<[m := Object (ob_class om) d']> (w_heap w)) (w_uows w))
                  m target) as (om & d' & Hom & Hrun & Hd' & Htr').
    { repeat (apply elem_of_cons in Hmark as [[= -> ->]|Hmark]);
        [| | |by apply elem_of_nil in Hmark].
      - destruct (call_reset_state_allowed _ _ _ Htr Hin)
          as (om & d' & Hom & Hrun & Hd' & Htr').
        exists om, d'. split_and!; [done| |done..]. unfold mark_clean.
        rewrite (bind_run _ _ _ _ _ (hasattr_run _ _ _ _ Ho)), Hb. simpl.
        rewrite (bind_run _ _ _ _ _ (getattr_run _ _ _ _ _ Ho Hm)).
        by rewrite (bind_run _ _ _ _ _ Hrun).
      - destruct (state_set_allowed _ _ _ _ Htr Hin) as (om & Hom & Hrun).
        exists om, (<[state_attr := DELETED]> (ob_dict om)).
        split_and!; [done| |by rewrite lookup_insert_ne|].
        + unfold mark_deleted.
          rewrite (bind_run _ _ _ _ _ (hasattr_run _ _ _ _ Ho)), Hb. simpl.
          rewrite (bind_run _ _ _ _ _ (getattr_run _ _ _ _ _ Ho Hm)).
          by rewrite (bind_run _ _ _ _ _ Hrun).
        + by apply (tracker_with_state _ _ _ st).
      - destruct (state_set_allowed _ _ _ _ Htr Hin) as (om & Hom & Hrun).
        exists om, (<[state_attr := DIRTY]> (ob_dict om)).
        split_and!; [done| |by rewrite lookup_insert_ne|].
        + unfold mark_dirty.
          rewrite (bind_run _ _ _ _ _ (hasattr_run _ _ _ _ Ho)), Hb. simpl.
          rewrite (bind_run _ _ _ _ _ (getattr_run _ _ _ _ _ Ho Hm)).
          by rewrite (bind_run _ _ _ _ _ Hrun).
        + by apply (tracker_with_state _ _ _ st). }
    rewrite Hrun, set_add_run. simpl. eexists. split; [done|].
    unfold marked. simpl.
    destruct (tracked_set_after_add (<[m := Object (ob_class om) d']> (w_heap w))
                w u T e) as [Hset Hsets].
    unfold tracked_set in Hset, Hsets |- *. simpl in *.
    split_and!.
    + eapply tracker_frame; [|exact Htr']. done.
    + intros a Ha. by rewrite lookup_insert_ne.
    + eexists om, _. rewrite lookup_insert_eq. done.
    + done.
    + done.
    + done.
  - repeat (apply elem_of_cons in Hmark as [[= -> ->]|Hmark]);
      [| | |by apply elem_of_nil in Hmark].
    + unfold mark_clean.
      rewrite (bind_run _ _ _ _ _ (hasattr_run _ _ _ _ Ho)), Hb. simpl.
      rewrite (bind_run _ _ _ _ _ (getattr_run _ _ _ _ _ Ho Hm)).
      by rewrite (bind_raise _ _ _ _ _ (call_reset_state_refused _ _ _ Htr Hin)).
    + unfold mark_deleted.
      rewrite (bind_run _ _ _ _ _ (hasattr_run _ _ _ _ Ho)), Hb. simpl.
      rewrite (bind_run _ _ _ _ _ (getattr_run _ _ _ _ _ Ho Hm)).
      by rewrite (bind_raise _ _ _ _ _ (state_set_refused _ _ _ _ Htr Hin)).
    + unfold mark_dirty.
      rewrite (bind_run _ _ _ _ _ (hasattr_run _ _ _ _ Ho)), Hb. simpl.
      rewrite (bind_run _ _ _ _ _ (getattr_run _ _ _ _ _ Ho Hm)).
      by rewrite (bind_raise _ _ _ _ _ (state_set_refused _ _ _ _ Htr Hin)).
Qed.

End marking.

Section marking_properties.
Context `{Builtins}.
Import OBJECT_STATES EntityStateManager Manager UnitOfWork Tracking.

Lemma marked_well_tracked w w' u T e a o m target :
  marked w w' u T e m target →
  w_heap w !! a = Some o →
  ob_dict o !! "__everest__" = Some (VRef m) →
  well_tracked w' a target.
Proof.
  intros (Htr & Hframe & Hm & _) Ho Hrec.
  destruct (decide (a = m)) as [->|Hne].
  - destruct Hm as (om & om' & Hom & Hom' & Heq). simplify_eq. exists om', m.
    split_and!; [done| |done]. by rewrite Heq.
  - exists o, m. split_and!; [|done..]. by rewrite Hframe.
Qed.

Lemma marked_other_tracker w w' u T e m target m' st' :
  marked w w' u T e m target → m' ≠ m → tracker w m' st' → tracker w' m' st'.
Proof.
  intros (_ & Hframe & _) Hne Htr. eapply tracker_frame; [|done]. by apply Hframe.
Qed.

Lemma marked_record w w' u T e m target a :
  marked w w' u T e m target → has_record w' a ↔ has_record w a.
Proof.
  intros (_ & Hframe & (om & om' & Hom & Hom' & Heq) & _).
  destruct (decide (a = m)) as [->|Hne].
  - split.
    + intros (om'' & Hom'' & Hrec). simplify_eq.
      exists om. split; [done|]. by rewrite <- Heq.
    + intros (om'' & Hom'' & Hrec). simplify_eq.
      exists om'. split; [done|]. by rewrite Heq.
  - unfold has_record. by rewrite Hframe.
Qed.

(** X2.  On an entity whose tracker is in state [st], [mark_clean],
    [mark_deleted] and [mark_dirty] go through exactly when the table allows
    the move from [st] to the state they ask for: the entity is then in that
    state and in the tracked set of [T], no other tracked set and no object
    other than the state manager have changed.  Otherwise they raise the
    invalid-transition [ValueError] and change nothing; so [mark_dirty] is
    refused on a NEW entity and every marking on a DELETED one. *)
Theorem X2_marking_follows_the_table
    (w : world) (u : nat) (T : string) (e m : addr) (o : object) (st : value)
    (mark : nat → string → addr → M unit) (target : value) :
  w_heap w !! e = Some o →
  ob_dict o !! "__everest__" = Some (VRef m) →
  tracker w m st →
  (mark, target) ∈ mark_methods →
  if bool_decide ((st, target) ∈ __allowed_transitions)
  then ∃ w', mark u T e w = (Return tt, w')
           ∧ well_tracked w' e target
           ∧ read_state e w' = (Return target, w')
           ∧ tracked_set w' u T = {[e]} ∪ tracked_set w u T
           ∧ (∀ u' k, (u', k) ≠ (u, T) → tracked_set w' u' k = tracked_set w u' k)
           ∧ (∀ a, a ≠ m → w_heap w' !! a = w_heap w !! a)
  else mark u T e w = (Raise (ValueError (invalid_transition_msg st target)), w).
Proof.
  intros Ho Hrec Htr Hmark.
  pose proof (mark_run w u T e o m st mark target Ho Hrec Htr Hmark) as Hrun.
  destruct (bool_decide ((st, target) ∈ __allowed_transitions)); [|done].
  destruct Hrun as (w' & Hrun & Hmarked). exists w'. split; [done|].
  pose proof (marked_well_tracked _ _ _ _ _ _ _ _ _ Hmarked Ho Hrec) as Hwt.
  split; [done|]. split; [by apply well_tracked_read|].
  destruct Hmarked as (_ & Hframe & _ & Hset & Hsets & _). done.
Qed.

(** X3.  A marking method called on [e] never changes the state of another
    tracked entity [e'] whose state manager is not that of [e], whether the
    call returns or raises. *)
Theorem X3_marking_leaves_other_entities_alone
    (w : world) (u : nat) (T : string) (e m : addr) (o : object) (st : value)
    (mark : nat → string → addr → M unit) (target : value)
    (e' m' : addr) (o' : object) (st' : value) :
  w_heap w !! e = Some o →
  ob_dict o !! "__everest__" = Some (VRef m) →
  tracker w m st →
  (mark, target) ∈ mark_methods →
  w_heap w !! e' = Some o' →
  ob_dict o' !! "__everest__" = Some (VRef m') →
  tracker w m' st' →
  m' ≠ m →
  well_tracked (mark u T e w).2 e' st'
  ∧ read_state e' (mark u T e w).2 = (Return st', (mark u T e w).2).
Proof.
  intros Ho Hrec Htr Hmark Ho' Hrec' Htr' Hne.
  assert (well_tracked (mark u T e w).2 e' st') as Hwt.
  { pose proof (mark_run w u T e o m st mark target Ho Hrec Htr Hmark) as Hrun.
    destruct (bool_decide ((st, target) ∈ __allowed_transitions)).
    - destruct Hrun as (w' & -> & Hmarked). simpl.
      pose proof (marked_other_tracker _ _ _ _ _ _ _ _ _ Hmarked Hne Htr') as Htr''.
      destruct Hmarked as (_ & Hframe & (om & om' & Hom & Hom' & Heq) & _).
      destruct (decide (e' = m)) as [->|Hne'].
      + simplify_eq. exists om', m'. split_and!; [done| |done]. by rewrite Heq.
      + exists o', m'. split_and!; [|done..]. by rewrite Hframe.
    - rewrite Hrun. simpl. by exists o', m'. }
  split; [done|]. by apply well_tracked_read.
Qed.

End marking_properties.

(** ** Consistent worlds *)

Section consistency.
Context `{Builtins}.
Import OBJECT_STATES EntityStateManager Manager UnitOfWork Tracking.

(** A tracker stays one when its object changes in private attributes other
    than the stored state and the stored hash. *)
Lemma tracker_same_fields w w' m om om' st :
  w_heap w !! m = Some om →
  w_heap w' !! m = Some om' →
  ob_class om' = ob_class om →
  public_items (ob_dict om') = public_items (ob_dict om) →
  ob_dict om' !! state_attr = ob_dict om !! state_attr →
  ob_dict om' !! last_state_hash_attr = ob_dict om !! last_state_hash_attr →
  tracker w m st → tracker w' m st.
Proof.
  intros Hom Hom' Hcls Hpub Hst Hlast (o & Ho & Hinst & Hst' & Hlast'). simplify_eq.
  exists om'. split_and!; [done| |congruence|].
  - unfold isinstance in *. by rewrite Hcls.
  - rewrite Hlast, Hlast'. unfold state_string. by rewrite Hpub.
Qed.

Lemma tracker_record_set w w' m om v st :
  w_heap w !! m = Some om →
  w_heap w' !! m = Some (with_attr om "__everest__" v) →
  tracker w m st → tracker w' m st.
Proof.
  intros Hom Hom'. eapply tracker_same_fields; [done|done|done|..]; simpl.
  - by apply PublicItems.insert_private.
  - by rewrite lookup_insert_ne.
  - by rewrite lookup_insert_ne.
Qed.

Lemma tracker_record_deleted w w' m om st :
  w_heap w !! m = Some om →
  w_heap w' !! m = Some (Object (ob_class om) (delete "__everest__" (ob_dict om))) →
  tracker w m st → tracker w' m st.
Proof.
  intros Hom Hom'. eapply tracker_same_fields; [done|done|done|..]; simpl.
  - by apply PublicItems.delete_private.
  - by rewrite lookup_delete_ne.
  - by rewrite lookup_delete_ne.
Qed.

Lemma consistent_healthy w u : consistent w → healthy w u.
Proof. intros [Hsound Hsets] key e Hin. apply Hsound. by eapply Hsets. Qed.

(** Consistency looks at the heap and at the tracked sets only. *)
Lemma consistent_same w w' :
  w_heap w' = w_heap w →
  (∀ u k, tracked_set w' u k = tracked_set w u k) →
  consistent w → consistent w'.
Proof.
  intros Hh Hs [Hsound Hsets]. split.
  - intros e (o & Ho & Hrec). rewrite Hh in Ho.
    destruct (Hsound e) as (st & o' & m & Ho' & Hm & Htr); [by exists o|].
    exists st, o', m. split_and!; [by rewrite Hh|done|].
    eapply tracker_frame; [|done]. by rewrite Hh.
  - intros u k e Hin. rewrite Hs in Hin.
    destruct (Hsets u k e Hin) as (o & Ho & Hrec). exists o. by rewrite Hh.
Qed.

Lemma mark_without_record w u T e mark target :
  (mark, target) ∈ mark_methods →
  ¬ has_record w e →
  (mark u T e w).2 = w.
Proof.
  intros Hmark Hnot. unfold mark_methods in Hmark.
  destruct (w_heap w !! e) as [o|] eqn:Ho.
  - assert (bool_decide (is_Some (ob_dict o !! "__everest__")) = false) as Hb.
    { apply bool_decide_eq_false. intros Hrec. apply Hnot. by exists o. }
    repeat (apply elem_of_cons in Hmark as [[= -> ->]|Hmark]);
      [| | |by apply elem_of_nil in Hmark];
      unfold mark_clean, mark_deleted, mark_dirty;
      by rewrite (bind_run _ _ _ _ _ (hasattr_run _ _ _ _ Ho)), Hb.
  - repeat (apply elem_of_cons in Hmark as [[= -> ->]|Hmark]);
      [| | |by apply elem_of_nil in Hmark];
      unfold mark_clean, mark_deleted, mark_dirty, hasattr;
      by rewrite (bind_raise _ _ _ _ _ (bind_raise _ _ _ _ _ (deref_dangling _ _ Ho))).
Qed.

Lemma mark_keeps_consistent w u T e mark target :
  (mark, target) ∈ mark_methods →
  consistent w → consistent (mark u T e w).2.
Proof.
  intros Hmark Hcons. pose proof Hcons as [Hsound Hsets].
  destruct (w_heap w !! e) as [o|] eqn:Ho; cycle 1.
  { rewrite (mark_without_record _ _ _ _ _ _ Hmark); [done|].
    intros (o & Ho' & _). congruence. }
  destruct (ob_dict o !! "__everest__") as [v|] eqn:Hv; cycle 1.
  { rewrite (mark_without_record _ _ _ _ _ _ Hmark); [done|].
    intros (o' & Ho' & Hrec). simplify_eq. rewrite Hv in Hrec. by destruct Hrec. }
  destruct (Hsound e) as (st & o' & m & Ho' & Hm & Htr); [exists o; by rewrite Hv|].
  simplify_eq.
  pose proof (mark_run w u T e o m st mark target Ho Hv Htr Hmark) as Hrun.
  destruct (bool_decide ((st, target) ∈ __allowed_transitions)); [|by rewrite Hrun].
  destruct Hrun as (w' & -> & Hmarked). simpl. split.
  - intros a Ha. apply (marked_record _ _ _ _ _ _ _ a Hmarked) in Ha.
    destruct (Hsound a Ha) as (sta & oa & ma & Hoa & Hma & Htra).
    destruct (decide (ma = m)) as [->|Hne].
    + exists target. by eapply marked_well_tracked.
    + exists sta.
      pose proof (marked_other_tracker _ _ _ _ _ _ _ _ _ Hmarked Hne Htra) as Htra'.
      destruct Hmarked as (_ & Hframe & (om & om' & Hom & Hom' & Heq) & _).
      destruct (decide (a = m)) as [->|Hna].
      * simplify_eq. exists om', ma. split_and!; [done| |done]. by rewrite Heq.
      * exists oa, ma. split_and!; [|done..]. by rewrite Hframe.
  - intros u' k a Hin. apply (marked_record _ _ _ _ _ _ _ a Hmarked).
    destruct Hmarked as (_ & _ & _ & Hset & Hsets' & _).
    destruct (decide ((u', k) = (u, T))) as [[= -> ->]|Hne].
    + rewrite Hset in Hin. apply elem_of_union in Hin as [Hin|Hin].
      * apply elem_of_singleton in Hin as ->. exists o. by rewrite Hv.
      * by eapply Hsets.
    + rewrite Hsets' in Hin by done. by eapply Hsets.
Qed.

Lemma register_new_keeps_consistent w u T e :
  consistent w → consistent (register_new u T e w).2.
Proof.
  intros Hcons. pose proof Hcons as [Hsound Hsets].
  destruct (w_heap w !! e) as [o|] eqn:Ho; cycle 1.
  { unfold register_new, hasattr.
    by rewrite (bind_raise _ _ _ _ _ (bind_raise _ _ _ _ _ (deref_dangling _ _ Ho))). }
  destruct (ob_dict o !! "__everest__") as [v|] eqn:Hv.
  { by rewrite (register_new_tracked _ _ _ _ _ Ho (mk_is_Some _ _ Hv)). }
  rewrite (register_new_run _ _ _ _ _ Ho Hv). simpl.
  set (m := fresh (dom (w_heap w))).
  assert (w_heap w !! m = None) as Hfresh by apply fresh_addr_None.
  assert (m ≠ e) as Hme by congruence.
  set (w' := World _ _).
  assert (well_tracked w' e NEW) as Hwte.
  { exists (with_attr o "__everest__" (VRef m)), m. split_and!.
    - simpl. rewrite lookup_insert_ne by done. apply lookup_insert_eq.
    - simpl. apply lookup_insert_eq.
    - eapply tracked_manager_tracker. simpl. apply lookup_insert_eq. }
  assert (∀ a, a ≠ e → has_record w' a → has_record w a) as Hold.
  { intros a Hae (oa & Hoa & Hrec). simpl in Hoa.
    destruct (decide (a = m)) as [->|Ham].
    - rewrite lookup_insert_eq in Hoa. simplify_eq.
      simpl in Hrec. by destruct Hrec.
    - rewrite !lookup_insert_ne in Hoa by done. by exists oa. }
  assert (∀ a st, a ≠ e → well_tracked w a st → well_tracked w' a st) as Hkeep.
  { intros a st Hae (oa & ma & Hoa & Hma & Htr).
    assert (a ≠ m) as Ham by congruence.
    exists oa, ma. split_and!; [|done|].
    - simpl. by rewrite !lookup_insert_ne.
    - pose proof Htr as (oma & Homa & _).
      assert (ma ≠ m) as Hmam by congruence.
      destruct (decide (ma = e)) as [->|Hmae].
      + simplify_eq. eapply (tracker_record_set w w' e); [done| |done].
        simpl. rewrite lookup_insert_ne by done. apply lookup_insert_eq.
      + eapply tracker_frame; [|done]. simpl. by rewrite !lookup_insert_ne. }
  split.
  - intros a Ha. destruct (decide (a = e)) as [->|Hae]; [by exists NEW|].
    destruct (Hsound a (Hold a Hae Ha)) as [st Hwt]. exists st. by apply Hkeep.
  - intros u' k a Hin. destruct (decide (a = e)) as [->|Hae].
    { by eapply well_tracked_has_record. }
    assert (a ∈ tracked_set w u' k) as Hin'.
    { unfold w' in Hin. rewrite tracked_set_put in Hin.
      case_decide as Hu; [|done]. subst u'.
      destruct (decide (k = T)) as [->|Hk].
      - rewrite lookup_total_insert_eq in Hin. set_solver.
      - by rewrite lookup_total_insert_ne in Hin. }
    destruct (Hsound a (Hsets u' k a Hin')) as [st Hwt].
    eapply well_tracked_has_record. by apply Hkeep.
Qed.

Lemma reset_keeps_consistent w u : consistent w → consistent (reset u w).2.
Proof.
  intros [Hsound Hsets]. split.
  - intros e (o & Ho & Hrec). simpl in Ho.
    destruct (Hsound e) as (st & o' & m & Ho' & Hm & Htr); [by exists o|].
    exists st, o', m. split_and!; [done..|]. by eapply tracker_frame.
  - intros u' k e Hin. unfold reset, put_entity_set_map in Hin. simpl in Hin.
    rewrite tracked_set_put in Hin. case_decide as Hu.
    + rewrite lookup_total_alt, lookup_empty in Hin. set_solver.
    + destruct (Hsets u' k e Hin) as (o & Ho & Hrec). by exists o.
Qed.

Lemma unregister_keeps_consistent w u T e :
  consistent w →
  (∀ u' k, e ∈ tracked_set w u' k → u' = u ∧ k = T) →
  consistent (unregister u T e w).2.
Proof.
  intros Hcons Honly. pose proof Hcons as [Hsound Hsets].
  destruct (unregister_cases w u T e)
    as [(err & w' & -> & Hh & Hs)|(o & v & Ho & Hv & Hin)]; simpl.
  { by apply (consistent_same w). }
  rewrite (unregister_run _ _ _ _ _ _ Ho Hv Hin). simpl. set (w' := World _ _).
  assert (∀ a, has_record w' a → a ≠ e ∧ has_record w a) as Hold.
  { intros a (oa & Hoa & Hrec). simpl in Hoa.
    destruct (decide (a = e)) as [->|Hae].
    - rewrite lookup_insert_eq in Hoa. simplify_eq. simpl in Hrec.
      rewrite lookup_delete_eq in Hrec. by destruct Hrec.
    - rewrite lookup_insert_ne in Hoa by done. split; [done|]. by exists oa. }
  assert (∀ a st, a ≠ e → well_tracked w a st → well_tracked w' a st) as Hkeep.
  { intros a st Hae (oa & ma & Hoa & Hma & Htr).
    exists oa, ma. split_and!; [|done|].
    - simpl. by rewrite lookup_insert_ne.
    - destruct (decide (ma = e)) as [->|Hmae].
      + eapply (tracker_record_deleted w w' e); [done| |done].
        simpl. apply lookup_insert_eq.
      + eapply tracker_frame; [|done]. simpl. by rewrite lookup_insert_ne. }
  split.
  - intros a Ha. destruct (Hold a Ha) as [Hae Ha'].
    destruct (Hsound a Ha') as [st Hwt]. exists st. by apply Hkeep.
  - intros u' k a Hin'. unfold w' in Hin'. rewrite tracked_set_put in Hin'.
    assert (a ≠ e ∧ a ∈ tracked_set w u' k) as [Hae Hin''].
    { case_decide as Hu.
      - subst u'. destruct (decide (k = T)) as [->|Hk].
        + rewrite lookup_total_insert_eq in Hin'. set_solver.
        + rewrite lookup_total_insert_ne in Hin' by done.
          split; [|done]. intros ->. destruct (Honly u k Hin'). done.
      - split; [|done]. intros ->. destruct (Honly u' k Hin'). done. }
    destruct (Hsound a (Hsets u' k a Hin'')) as [st Hwt].
    eapply well_tracked_has_record. by apply Hkeep.
Qed.

Lemma iterator_all w u :
  healthy w u →
  iterator u w
  = ((flat_map (λ key, (λ e, (key, e, state_of w e)) <$> elements (tracked_set w u key))
        (map_to_list (w_uows w !!! u)).*1,
      None), w).
Proof.
  intros Hok. unfold iterator. apply gen_for_yields. intros key Hkey.
  rewrite getitem_present by (by apply key_of_map_to_list).
  by apply iterator_set_loop.
Qed.

(** X4.  Consistency (every [__everest__] a working tracker, every tracked
    entity carrying one) is kept by [register_new] and the marking methods,
    whether they return or raise, by [reset], and by [unregister] on an
    entity tracked under that one key only; in a consistent world no state
    query and no [iterator] call raises. *)
Theorem X4_consistency_is_kept :
  (∀ w c, keeps_records c = true → consistent w → consistent (run_call c w).2)
  ∧ (∀ w u, consistent w → consistent (reset u w).2)
  ∧ (∀ w u T e,
       consistent w →
       (∀ u' k, e ∈ tracked_set w u' k → u' = u ∧ k = T) →
       consistent (unregister u T e w).2)
  ∧ (∀ w u,
       consistent w →
       (∀ query st c, (query, st) ∈ state_queries → (query u c w).1.2 = None)
       ∧ (iterator u w).1.2 = None).
Proof.
  split_and!.
  - intros w [u T e|u T e|u T e|u T e|u T e] Hc Hcons; simpl; try done.
    + by apply register_new_keeps_consistent.
    + apply (mark_keeps_consistent _ _ _ _ _ CLEAN); [|done]. by left.
    + apply (mark_keeps_consistent _ _ _ _ _ DELETED); [|done]. right. by left.
    + apply (mark_keeps_consistent _ _ _ _ _ DIRTY); [|done]. do 2 right. by left.
  - intros w u. apply reset_keeps_consistent.
  - intros w u T e. apply unregister_keeps_consistent.
  - intros w u Hcons. pose proof (consistent_healthy _ u Hcons) as Hok. split.
    + intros query st c Hq.
      assert (query = λ u c, __object_iterator u st c) as ->.
      { unfold state_queries in Hq.
        repeat (apply elem_of_cons in Hq as [[= -> ->]|Hq]; [done|]).
        by apply elem_of_nil in Hq. }
      destruct c as [T|].
      * by destruct (object_iterator_one w u st T Hok) as (w' & -> & _).
      * by rewrite object_iterator_all.
    + by rewrite iterator_all.
Qed.

End consistency.

(** ** Registering, marking clean and querying *)

Section scenario.
Context `{Builtins}.
Import OBJECT_STATES EntityStateManager Manager UnitOfWork Tracking.

Lemma not_elem_of_other_state w u state st e :
  healthy w u → well_tracked w e st → st ≠ state →
  e ∉ (__object_iterator u state None w).1.1.
Proof.
  intros Hok Hwt Hne. rewrite object_iterator_all by done. simpl.
  rewrite elem_of_object_iterator_all by done. intros (key & _ & Hwt').
  by pose proof (well_tracked_unique _ _ _ _ Hwt Hwt').
Qed.

Lemma elem_of_own_state w u T state e :
  healthy w u → well_tracked w e state → e ∈ tracked_set w u T →
  e ∈ (__object_iterator u state None w).1.1.
Proof.
  intros Hok Hwt Hin. rewrite object_iterator_all by done. simpl.
  rewrite elem_of_object_iterator_all by done. by exists T.
Qed.

(** The queries of a unit of work that tracks the one entity [e]. *)
Lemma object_iterator_single w u T e state :
  w_uows w !!! u = {[ T := {[ e ]} ]} →
  healthy w u →
  __object_iterator u state None w
  = ((if decide (state_of w e = state) then [e] else [], None), w).
Proof.
  intros Hu Hok. rewrite object_iterator_all by done.
  unfold tracked_set. rewrite Hu, map_to_list_singleton. simpl.
  rewrite lookup_total_singleton_eq, elements_singleton, app_nil_r.
  rewrite filter_cons, filter_nil. done.
Qed.

(** X5.  In a consistent world, [register_new(T, e)] on a live entity
    without a record followed by [mark_clean(T, e)] both go through: after
    the first, [e] is NEW, [get_new] yields it and [get_clean] does not;
    after the second, [e] is CLEAN, [get_clean] yields it and [get_new] does
    not; no query raises.  When the unit of work tracked nothing before,
    [get_new] yields just [e] after the first call, and after the second
    [get_clean] yields just [e] and [get_new] nothing. *)
Theorem X5_register_new_then_mark_clean
    (w : world) (u : nat) (T : string) (e : addr) (o : object) :
  consistent w →
  w_heap w !! e = Some o →
  ob_dict o !! "__everest__" = None →
  ∃ w1 w2,
    register_new u T e w = (Return tt, w1)
    ∧ mark_clean u T e w1 = (Return tt, w2)
    ∧ read_state e w1 = (Return NEW, w1)
    ∧ read_state e w2 = (Return CLEAN, w2)
    ∧ (get_new u None w1).1.2 = None ∧ e ∈ (get_new u None w1).1.1
    ∧ (get_clean u None w1).1.2 = None ∧ (e ∉ (get_clean u None w1).1.1)
    ∧ (get_new u None w2).1.2 = None ∧ (e ∉ (get_new u None w2).1.1)
    ∧ (get_clean u None w2).1.2 = None ∧ e ∈ (get_clean u None w2).1.1
    ∧ (w_uows w !!! u = ∅ →
         get_new u None w1 = (([e], None), w1)
         ∧ get_new u None w2 = (([], None), w2)
         ∧ get_clean u None w2 = (([e], None), w2)).
Proof.
  intros Hcons Ho Hv.
  pose proof (register_new_keeps_consistent w u T e Hcons) as Hcons1.
  rewrite (register_new_run _ _ _ _ _ Ho Hv) in Hcons1. simpl in Hcons1.
  set (m := fresh (dom (w_heap w))) in *.
  assert (w_heap w !! m = None) as Hfresh by apply fresh_addr_None.
  assert (m ≠ e) as Hme by congruence.
  eexists. exists (mark_clean u T e (register_new u T e w).2).2.
  split; [by apply register_new_run|]. fold m.
  set (w1 := World _ _) in *.
  assert (w_heap w1 !! e = Some (with_attr o "__everest__" (VRef m))) as Ho1
    by (simpl; rewrite lookup_insert_ne by done; apply lookup_insert_eq).
  assert (ob_dict (with_attr o "__everest__" (VRef m)) !! "__everest__" = Some (VRef m))
    as Hrec1 by apply lookup_insert_eq.
  assert (tracker w1 m NEW) as Htr1
    by (eapply tracked_manager_tracker; simpl; apply lookup_insert_eq).
  assert (well_tracked w1 e NEW) as Hwt1 by (by eexists _, m).
  assert (e ∈ tracked_set w1 u T) as Hin1.
  { unfold w1. rewrite tracked_set_put, decide_True by done.
    rewrite lookup_total_insert_eq. set_solver. }
  assert ((register_new u T e w).2 = w1) as ->
    by (by rewrite (register_new_run _ _ _ _ _ Ho Hv)).
  pose proof (mark_run w1 u T e _ m NEW mark_clean CLEAN Ho1 Hrec1 Htr1) as Hrun.
  rewrite bool_decide_true in Hrun by compute_done.
  destruct Hrun as (w2 & Hrun & Hmarked); [by left|]. rewrite Hrun. simpl.
  pose proof (mark_keeps_consistent w1 u T e mark_clean CLEAN) as Hcons2.
  rewrite Hrun in Hcons2. simpl in Hcons2.
  specialize (Hcons2 ltac:(by left) Hcons1).
  pose proof (marked_well_tracked _ _ _ _ _ _ _ _ _ Hmarked Ho1 Hrec1) as Hwt2.
  assert (e ∈ tracked_set w2 u T) as Hin2.
  { destruct Hmarked as (_ & _ & _ & -> & _). set_solver. }
  pose proof (consistent_healthy _ u Hcons1) as Hok1.
  pose proof (consistent_healthy _ u Hcons2) as Hok2.
  split; [done|]. split; [by apply well_tracked_read|].
  split; [by apply well_tracked_read|].
  unfold get_new, get_clean.
  split_and!.
  - by rewrite object_iterator_all.
  - by eapply elem_of_own_state.
  - by rewrite object_iterator_all.
  - by eapply not_elem_of_other_state.
  - by rewrite object_iterator_all.
  - by eapply not_elem_of_other_state.
  - by rewrite object_iterator_all.
  - by eapply elem_of_own_state.
  - intros Hempty.
    assert (w_uows w1 !!! u = {[ T := {[ e ]} ]}) as Hu1.
    { unfold w1. simpl. rewrite lookup_total_insert_eq, Hempty.
      rewrite (tracked_set_missing w u T) by (by rewrite Hempty, lookup_empty).
      by rewrite (right_id_L ∅ (∪)). }
    assert (w_uows w2 !!! u = {[ T := {[ e ]} ]}) as Hu2.
    { destruct Hmarked as (_ & _ & _ & _ & _ & ->).
      rewrite lookup_total_insert_eq, Hu1.
      unfold tracked_set. rewrite Hu1, lookup_total_singleton_eq.
      rewrite insert_singleton_eq. f_equal. set_solver. }
    rewrite !(object_iterator_single _ _ _ _ _ Hu1 Hok1).
    rewrite !(object_iterator_single _ _ _ _ _ Hu2 Hok2).
    rewrite (well_tracked_state_of _ _ _ Hwt1), (well_tracked_state_of _ _ _ Hwt2).
    by rewrite !decide_True, !decide_False by done.
Qed.

End scenario.

(** ** Unregistering, resetting and tracking by hand *)

Section episodes.
Context `{Builtins}.
Import OBJECT_STATES EntityStateManager Manager UnitOfWork Tracking.

(** X6.  [unregister(T, e)] on an entity that carries a record but is not in
    the tracked set of [T] raises [KeyError]: the record stays on the
    entity, no object and no tracked set changes. *)
Theorem X6_unregister_under_another_key
    (w : world) (u : nat) (T : string) (e : addr) (o : object) (v : value) :
  w_heap w !! e = Some o →
  ob_dict o !! "__everest__" = Some v →
  e ∉ tracked_set w u T →
  ∃ w', unregister u T e w = (Raise (KeyError e), w')
      ∧ w_heap w' = w_heap w
      ∧ (∀ u' k, tracked_set w' u' k = tracked_set w u' k)
      ∧ has_record w' e.
Proof.
  intros Ho Hv Hin.
  destruct (set_remove_missing _ _ _ _ Hin) as (w' & Hrun & Hh & Hs).
  exists w'. split_and!; [|done..|].
  - unfold unregister. rewrite (bind_run _ _ _ _ _ (hasattr_run _ _ _ _ Ho)).
    rewrite bool_decide_true by (by rewrite Hv). simpl.
    by rewrite (bind_raise _ _ _ _ _ Hrun).
  - exists o. rewrite Hh. by rewrite Hv.
Qed.

(** X7.  [register_new(T, e)] followed by [unregister(T, e)] gives the entity
    back as it was and takes it out of the tracked set of [T]; every object
    that was there before is unchanged, every other tracked set too, and
    [e] can be registered again.  The state manager of the first
    registration stays in the heap. *)
Theorem X7_register_new_then_unregister
    (w : world) (u : nat) (T : string) (e : addr) (o : object) :
  w_heap w !! e = Some o →
  ob_dict o !! "__everest__" = None →
  ∃ w1 w2 w3,
    register_new u T e w = (Return tt, w1)
    ∧ unregister u T e w1 = (Return tt, w2)
    ∧ (∀ a oa, w_heap w !! a = Some oa → w_heap w2 !! a = Some oa)
    ∧ tracked_set w2 u T = tracked_set w u T ∖ {[e]}
    ∧ (∀ u' k, (u', k) ≠ (u, T) → tracked_set w2 u' k = tracked_set w u' k)
    ∧ register_new u T e w2 = (Return tt, w3).
Proof.
  intros Ho Hv.
  set (m := fresh (dom (w_heap w))).
  assert (w_heap w !! m = None) as Hfresh by apply fresh_addr_None.
  assert (m ≠ e) as Hme by congruence.
  eexists. eexists. eexists.
  split; [by apply register_new_run|]. fold m.
  set (w1 := World _ _).
  assert (w_heap w1 !! e = Some (with_attr o "__everest__" (VRef m))) as Ho1
    by (simpl; rewrite lookup_insert_ne by done; apply lookup_insert_eq).
  assert (e ∈ tracked_set w1 u T) as Hin1.
  { unfold w1. rewrite tracked_set_put, decide_True by done.
    rewrite lookup_total_insert_eq. set_solver. }
  split.
  { eapply (unregister_run w1); [done|apply lookup_insert_eq|done]. }
  set (w2 := World _ _).
  assert (w_heap w2 !! e = Some o) as Ho2.
  { simpl. rewrite lookup_insert_eq. simpl.
    rewrite delete_insert_eq, delete_id by done. by destruct o. }
  split_and!.
  - intros a oa Hoa. destruct (decide (a = e)) as [->|Hae]; [congruence|].
    assert (a ≠ m) by congruence. simpl. by rewrite !lookup_insert_ne.
  - unfold w2. rewrite tracked_set_put, decide_True by done.
    rewrite lookup_total_insert_eq.
    rewrite tracked_set_put, decide_True by done.
    rewrite lookup_total_insert_eq. set_solver.
  - intros u' k Hne. unfold w2. rewrite tracked_set_put. case_decide as Hu.
    + subst u'. assert (k ≠ T) by congruence.
      rewrite lookup_total_insert_ne by done. simpl.
      rewrite lookup_total_insert_eq. by rewrite lookup_total_insert_ne.
    + simpl. by rewrite lookup_total_insert_ne.
  - by eapply register_new_run.
Qed.

(** X8.  [track(entity, state)] with a state the unset state may not move
    to, that is any state but NEW and CLEAN, raises the invalid-transition
    [ValueError] after the state manager has been attached: the entity is
    left with a record whose state is unset, and [register_new] on it
    raises. *)
Theorem X8_track_with_a_later_state
    (w : world) (entity : addr) (o : object) (state : value) (u : nat) (T : string) :
  w_heap w !! entity = Some o →
  state ≠ NEW →
  state ≠ CLEAN →
  ∃ w', track entity state w
        = (Raise (ValueError (invalid_transition_msg VNone state)), w')
      ∧ well_tracked w' entity VNone
      ∧ read_state entity w' = (Return VNone, w')
      ∧ register_new u T entity w'
        = (Raise (ValueError
                    "Trying to register a NEW entity that has already been registered!"),
           w').
Proof.
  intros Ho Hnew Hclean.
  set (m := fresh (dom (w_heap w))).
  assert (w_heap w !! m = None) as Hfresh by apply fresh_addr_None.
  assert (m ≠ entity) as Hme by congruence.
  assert ((VNone, state) ∉ __allowed_transitions) as Hnot.
  { unfold __allowed_transitions. intros Hin.
    repeat (apply elem_of_cons in Hin as [Heq|Hin]; [by simplify_eq|]).
    by apply elem_of_nil in Hin. }
  set (w' := World (<[entity := with_attr o "__everest__" (VRef m)]>
                      (<[m := fresh_manager entity]> (w_heap w))) (w_uows w)).
  assert (w_heap w' !! m = Some (fresh_manager entity)) as Hm'
    by (simpl; rewrite lookup_insert_ne by done; apply lookup_insert_eq).
  assert (w_heap w' !! entity = Some (with_attr o "__everest__" (VRef m))) as He'
    by (simpl; apply lookup_insert_eq).
  pose proof (fresh_manager_tracker _ _ _ Hm') as Htr.
  assert (well_tracked w' entity VNone) as Hwt.
  { exists (with_attr o "__everest__" (VRef m)), m. split_and!; [done| |done].
    apply lookup_insert_eq. }
  exists w'. split_and!; [|done|by apply well_tracked_read|].
  - unfold track. rewrite (bind_run _ _ _ _ _ (init_run _ _)). fold m.
    erewrite bind_run;
      [|apply setattr_run; simpl; rewrite lookup_insert_ne by done; apply Ho].
    erewrite bind_run;
      [|eapply getattr_run; simpl; [apply lookup_insert_eq|apply lookup_insert_eq]].
    fold w'. by apply (state_set_refused w' m VNone state).
  - eapply register_new_tracked; [done|]. simpl. rewrite lookup_insert_eq. by eexists.
Qed.

(** X9.  After [reset], an entity that carries a record can be neither
    registered nor unregistered with that unit of work: [register_new]
    raises the double-registration [ValueError], [unregister] raises
    [KeyError], and the record stays; [iterator] yields nothing. *)
Theorem X9_after_reset
    (w : world) (u : nat) (T : string) (e : addr) (o : object) (v : value) :
  w_heap w !! e = Some o →
  ob_dict o !! "__everest__" = Some v →
  ∃ w1 w2,
    reset u w = (Return tt, w1)
    ∧ iterator u w1 = (([], None), w1)
    ∧ register_new u T e w1
      = (Raise (ValueError
                  "Trying to register a NEW entity that has already been registered!"),
         w1)
    ∧ unregister u T e w1 = (Raise (KeyError e), w2)
    ∧ has_record w2 e.
Proof.
  intros Ho Hv.
  set (w1 := World (w_heap w) (<[u := ∅]> (w_uows w))).
  assert (∀ k, tracked_set w1 u k = ∅) as Hempty.
  { intros k. unfold w1. rewrite tracked_set_put, decide_True by done.
    by rewrite lookup_total_alt, lookup_empty. }
  assert (e ∉ tracked_set w1 u T) as Hin by (rewrite Hempty; set_solver).
  destruct (set_remove_missing _ _ _ _ Hin) as (w2 & Hrun & Hh & Hs).
  exists w1, w2. split_and!; [done| | | |].
  - unfold iterator. simpl. rewrite lookup_total_insert_eq.
    by rewrite map_to_list_empty.
  - eapply register_new_tracked; [done|by rewrite Hv].
  - unfold unregister. erewrite bind_run; [|by apply hasattr_run].
    rewrite bool_decide_true by (by rewrite Hv). simpl.
    by rewrite (bind_raise _ _ _ _ _ Hrun).
  - exists o. rewrite Hh. by rewrite Hv.
Qed.

End episodes.

(** ** Copying state data, and entities *)

Section state_data.
Import EntityStateManager Manager.

Lemma set_state_data_run w a oa (data : gmap string value) :
  w_heap w !! a = Some oa →
  set_state_data a data w
  = (Return tt,
     World (<[a := Object (ob_class oa) (data ∪ ob_dict oa)]> (w_heap w)) (w_uows w)).
Proof.
  intros Ha. unfold set_state_data. rewrite (for_each_setattr _ _ _ _ Ha).
  rewrite foldl_insert_list_to_map by apply NoDup_fst_map_to_list.
  by rewrite list_to_map_to_list.
Qed.

(** X10.  Copying the state data of an entity [e] onto a live object [a]
    ([set_state_data(a, get_state_data(e))]) gives [a] every public
    attribute of [e] with the value it has on [e], leaves every other
    attribute of [a], so every private one and its tracking record, as it
    was, and changes no other object and no tracked set. *)
Theorem X10_state_data_copy (w : world) (e a : addr) (o oa : object) :
  w_heap w !! e = Some o →
  w_heap w !! a = Some oa →
  ∃ w' oa',
    (data ← get_state_data e; set_state_data a data) w = (Return tt, w')
    ∧ w_heap w' !! a = Some oa'
    ∧ ob_class oa' = ob_class oa
    ∧ (∀ name v, startswith_underscore name = false →
         ob_dict o !! name = Some v → ob_dict oa' !! name = Some v)
    ∧ (∀ name, startswith_underscore name = true ∨ ob_dict o !! name = None →
         ob_dict oa' !! name = ob_dict oa !! name)
    ∧ (∀ b, b ≠ a → w_heap w' !! b = w_heap w !! b)
    ∧ w_uows w' = w_uows w.
Proof.
  intros Ho Ha. eexists. exists (Object (ob_class oa) (public_items (ob_dict o) ∪ ob_dict oa)).
  split_and!.
  - rewrite (bind_run _ _ _ _ _ (get_state_data_run _ _ _ Ho)).
    by apply set_state_data_run.
  - simpl. apply lookup_insert_eq.
  - done.
  - intros name v Hpub Hv. simpl. apply lookup_union_Some_l.
    by rewrite PublicItems.lookup_public.
  - intros name Hname. simpl. apply lookup_union_r.
    destruct Hname as [Hpriv|Hnone].
    + by apply PublicItems.lookup_private.
    + destruct (startswith_underscore name) eqn:Hs.
      * by apply PublicItems.lookup_private.
      * by rewrite PublicItems.lookup_public.
  - intros b Hb. simpl. by rewrite lookup_insert_ne.
  - done.
Qed.

End state_data.

Section entities.

Lemma entity_new_run w c id :
  Entity.new c id w
  = (Return (fresh (dom (w_heap w))),
     World (<[fresh (dom (w_heap w)) := Object c {[ "id" := default VNone id ]}]> (w_heap w))
           (w_uows w)).
Proof.
  unfold Entity.new. rewrite (bind_run _ _ _ _ _ (object_new_run _ _)).
  unfold Entity.__init__.
  erewrite bind_run; [|apply setattr_run; simpl; apply lookup_insert_eq].
  simpl. unfold mret, M_ret, with_attr. simpl. by rewrite insert_insert_eq.
Qed.

(** X11.  Two entities built one after the other by the constructor of one
    class are distinct objects, each with the id it was given ([None] when
    none was), and they are equal, in both directions, exactly when those
    ids are equal: two entities built without an id are equal. *)
Theorem X11_constructed_entities (w : world) (c : pyclass) (ida idb : option value) :
  ∃ a b w1 w2 oa ob,
    Entity.new c ida w = (Return a, w1)
    ∧ Entity.new c idb w1 = (Return b, w2)
    ∧ a ≠ b
    ∧ w_heap w2 !! a = Some oa
    ∧ w_heap w2 !! b = Some ob
    ∧ Entity.id oa = default VNone ida
    ∧ Entity.id ob = default VNone idb
    ∧ Entity.__eq__ oa ob = bool_decide (default VNone ida = default VNone idb)
    ∧ Entity.__eq__ ob oa = Entity.__eq__ oa ob
    ∧ Entity.__ne__ oa ob = negb (Entity.__eq__ oa ob)
    ∧ (ida = None → idb = None → Entity.__eq__ oa ob = true).
Proof.
  set (a := fresh (dom (w_heap w))).
  set (oa := Object c {[ "id" := default VNone ida ]}).
  set (w1 := World (<[a := oa]> (w_heap w)) (w_uows w)).
  set (b := fresh (dom (w_heap w1))).
  set (ob := Object c {[ "id" := default VNone idb ]}).
  assert (w_heap w1 !! b = None) as Hb by apply fresh_addr_None.
  assert (a ≠ b) as Hab.
  { intros Heq. rewrite <- Heq in Hb. simpl in Hb. by rewrite lookup_insert_eq in Hb. }
  assert (Entity.id oa = default VNone ida) as Hida by done.
  assert (Entity.id ob = default VNone idb) as Hidb by done.
  assert (∀ x y : value, Entity.__eq__ (Object c {[ "id" := x ]}) (Object c {[ "id" := y ]})
                         = bool_decide (x = y)) as Heq.
  { intros x y. unfold Entity.__eq__, isinstance, Entity.id. simpl.
    rewrite !lookup_singleton_eq. simpl.
    rewrite bool_decide_true by (apply elem_of_cons; by left). done. }
  exists a, b, w1, (World (<[b := ob]> (w_heap w1)) (w_uows w1)), oa, ob.
  split_and!; try done.
  - apply entity_new_run.
  - apply entity_new_run.
  - simpl. rewrite lookup_insert_ne by done. apply lookup_insert_eq.
  - simpl. apply lookup_insert_eq.
  - apply Heq.
  - unfold oa, ob. rewrite !Heq. apply bool_decide_ext. split; congruence.
  - intros -> ->. unfold oa, ob. rewrite Heq. by apply bool_decide_eq_true.
Qed.

(** X12.  Among the instances of one class, [==] is an equivalence: it is
    reflexive, symmetric and transitive, and [!=] is its negation. *)
Theorem X12_equality_within_a_class (a b c : object) :
  ob_class a = ob_class b →
  ob_class b = ob_class c →
  Entity.__eq__ a a = true
  ∧ Entity.__eq__ a b = Entity.__eq__ b a
  ∧ (Entity.__eq__ a b = true → Entity.__eq__ b c = true → Entity.__eq__ a c = true)
  ∧ Entity.__ne__ a b = negb (bool_decide (Entity.id a = Entity.id b)).
Proof.
  intros Hab Hbc.
  assert (∀ x y, ob_class x = ob_class y →
            Entity.__eq__ x y = bool_decide (Entity.id x = Entity.id y)) as Heq.
  { intros x y Hxy. unfold Entity.__eq__, isinstance. rewrite Hxy.
    rewrite bool_decide_true by (apply elem_of_cons; by left). done. }
  split_and!.
  - rewrite Heq by done. by apply bool_decide_eq_true.
  - rewrite !Heq by done. apply bool_decide_ext. split; congruence.
  - rewrite !Heq by congruence. rewrite !bool_decide_eq_true. congruence.
  - unfold Entity.__ne__. by rewrite Heq.
Qed.

End entities.

(** ** Concrete runs of the further statements *)

Section more_runs.
Import OBJECT_STATES EntityStateManager UnitOfWork Example Scenario.
#[local] Existing Instance builtins.

(** Reads the object at [m] off the heap and checks that it is a tracker. *)
Ltac tracker_at :=
  match goal with
  | |- tracker ?w ?m _ =>
      let r := eval vm_compute in (w_heap w !! m) in
      match r with
      | Some ?o => exists o; split_and!; vm_compute; reflexivity
      end
  end.

(** Reads the entity at [e] off the heap and checks that it is tracked. *)
Ltac well_tracked_at :=
  match goal with
  | |- well_tracked ?w ?e _ =>
      let r := eval vm_compute in (w_heap w !! e) in
      match r with
      | Some ?o =>
          let r' := eval vm_compute in (ob_dict o !! "__everest__") in
          match r' with
          | Some (VRef ?m) =>
              exists o, m; split_and!; [vm_compute; reflexivity..|tracker_at]
          end
      end
  end.

Lemma blank_world_consistent (w : world) :
  (∀ a o, w_heap w !! a = Some o → ob_dict o !! "__everest__" = None) →
  w_uows w = ∅ →
  consistent w.
Proof.
  intros Hblank Hu. split.
  - intros e (o & Ho & Hrec). rewrite (Hblank e o Ho) in Hrec. by destruct Hrec.
  - intros u k e Hin. unfold tracked_set in Hin. rewrite Hu in Hin.
    rewrite !lookup_total_alt, lookup_empty in Hin. simpl in Hin.
    rewrite lookup_empty in Hin. set_solver.
Qed.

Lemma start_consistent : consistent start.
Proof.
  apply blank_world_consistent; [|done].
  intros a o Ho. unfold start in Ho. simpl in Ho.
  by apply lookup_singleton_Some in Ho as [<- <-].
Qed.

Lemma marked_clean_healthy : healthy marked_clean 7.
Proof.
  intros key e Hin.
  apply (tracked_set_of_singleton _ {[ "Widget" := {[ 0 ]} ]}) in Hin
    as (s & Hs & Hin); [|vm_compute; reflexivity].
  apply lookup_singleton_Some in Hs as [_ <-].
  apply elem_of_singleton in Hin as ->. exists CLEAN. well_tracked_at.
Qed.

Lemma X1_witness :
  healthy marked_clean 7
  ∧ get_clean 7 None marked_clean
    = ((flat_map (λ key, filter (λ e, state_of marked_clean e = CLEAN)
                           (elements (tracked_set marked_clean 7 key)))
          (map_to_list (w_uows marked_clean !!! 7)).*1,
        None), marked_clean)
  ∧ (get_clean 7 None marked_clean).1.1 = [0]
  ∧ (get_new 7 None marked_clean).1.1 = [].
Proof.
  pose proof marked_clean_healthy as Hok.
  pose proof (X1_queries_select_by_state marked_clean 7 Hok) as [Hq _].
  split; [done|]. split; [|split; vm_compute; reflexivity].
  apply (Hq get_clean CLEAN). by left.
Defined.

Lemma X2_witness :
  w_heap registered_new !! 0 = Some (with_attr widget "__everest__" (VRef 1))
  ∧ tracker registered_new 1 NEW
  ∧ (mark_dirty, DIRTY) ∈ mark_methods
  ∧ mark_dirty 7 "Widget" 0 registered_new
    = (Raise (ValueError "Invalid state transition NEW -> DIRTY."), registered_new).
Proof.
  assert (w_heap registered_new !! 0 = Some (with_attr widget "__everest__" (VRef 1)))
    as Ho by (vm_compute; reflexivity).
  assert (tracker registered_new 1 NEW) as Htr by tracker_at.
  assert ((mark_dirty, DIRTY) ∈ mark_methods) as Hmark by (do 2 right; by left).
  split_and!; [done..|].
  exact (X2_marking_follows_the_table registered_new 7 "Widget" 0 1 _ NEW
           mark_dirty DIRTY Ho (lookup_insert_eq _ _ _) Htr Hmark).
Defined.

Lemma X3_witness :
  tracker two_widgets 2 NEW
  ∧ tracker two_widgets 3 NEW
  ∧ well_tracked (mark_deleted 7 "Widget" 0 two_widgets).2 1 NEW
  ∧ read_state 0 (mark_deleted 7 "Widget" 0 two_widgets).2
    = (Return DELETED, (mark_deleted 7 "Widget" 0 two_widgets).2).
Proof.
  assert (tracker two_widgets 2 NEW) as Htr by tracker_at.
  assert (tracker two_widgets 3 NEW) as Htr' by tracker_at.
  split_and!; [done..| |vm_compute; reflexivity].
  match eval vm_compute in (w_heap two_widgets !! 0) with
  | Some ?o =>
      match eval vm_compute in (w_heap two_widgets !! 1) with
      | Some ?o' =>
          refine (proj1 (X3_marking_leaves_other_entities_alone two_widgets 7 "Widget"
                           0 2 o NEW mark_deleted DELETED 1 3 o' NEW
                           _ _ Htr _ _ _ Htr' _))
      end
  end; try (vm_compute; reflexivity).
  - right. by left.
  - discriminate.
Defined.

Lemma X5_witness :
  consistent start
  ∧ w_heap start !! 0 = Some widget
  ∧ ∃ w1 w2,
      register_new 7 "Widget" 0 start = (Return tt, w1)
      ∧ mark_clean 7 "Widget" 0 w1 = (Return tt, w2)
      ∧ get_new 7 None w1 = (([0], None), w1)
      ∧ get_new 7 None w2 = (([], None), w2)
      ∧ get_clean 7 None w2 = (([0], None), w2).
Proof.
  pose proof start_consistent as Hcons.
  assert (w_heap start !! 0 = Some widget) as Ho by (vm_compute; reflexivity).
  split_and!; [done..|].
  destruct (X5_register_new_then_mark_clean start 7 "Widget" 0 widget Hcons Ho eq_refl)
    as (w1 & w2 & Hnew & Hclean & _ & _ & _ & _ & _ & _ & _ & _ & _ & _ & Hfresh).
  exists w1, w2. split_and!; [done..| | |]; by apply Hfresh.
Defined.

Lemma X6_witness :
  w_heap registered_new !! 0 = Some (with_attr widget "__everest__" (VRef 1))
  ∧ (0 ∉ tracked_set registered_new 7 "Gadget")
  ∧ ∃ w', unregister 7 "Gadget" 0 registered_new = (Raise (KeyError 0), w')
        ∧ w_heap w' = w_heap registered_new
        ∧ (∀ u' k, tracked_set w' u' k = tracked_set registered_new u' k)
        ∧ has_record w' 0.
Proof.
  assert (w_heap registered_new !! 0 = Some (with_attr widget "__everest__" (VRef 1)))
    as Ho by (vm_compute; reflexivity).
  assert (0 ∉ tracked_set registered_new 7 "Gadget") as Hin by compute_done.
  split_and!; [done..|].
  exact (X6_unregister_under_another_key registered_new 7 "Gadget" 0 _ (VRef 1)
           Ho (lookup_insert_eq _ _ _) Hin).
Defined.

Lemma X7_witness :
  w_heap start !! 0 = Some widget
  ∧ ∃ w1 w2 w3,
      register_new 7 "Widget" 0 start = (Return tt, w1)
      ∧ unregister 7 "Widget" 0 w1 = (Return tt, w2)
      ∧ (∀ a oa, w_heap start !! a = Some oa → w_heap w2 !! a = Some oa)
      ∧ tracked_set w2 7 "Widget" = tracked_set start 7 "Widget" ∖ {[0]}
      ∧ (∀ u' k, (u', k) ≠ (7, "Widget") → tracked_set w2 u' k = tracked_set start u' k)
      ∧ register_new 7 "Widget" 0 w2 = (Return tt, w3).
Proof.
  assert (w_heap start !! 0 = Some widget) as Ho by (vm_compute; reflexivity).
  split; [done|].
  exact (X7_register_new_then_unregister start 7 "Widget" 0 widget Ho eq_refl).
Defined.

Lemma X8_witness :
  w_heap start !! 0 = Some widget
  ∧ ∃ w', track 0 DIRTY start
          = (Raise (ValueError "Invalid state transition None -> DIRTY."), w')
        ∧ well_tracked w' 0 VNone
        ∧ read_state 0 w' = (Return VNone, w')
        ∧ register_new 7 "Widget" 0 w'
          = (Raise (ValueError
                      "Trying to register a NEW entity that has already been registered!"),
             w').
Proof.
  assert (w_heap start !! 0 = Some widget) as Ho by (vm_compute; reflexivity).
  split; [done|].
  refine (X8_track_with_a_later_state start 0 widget DIRTY 7 "Widget" Ho _ _);
    discriminate.
Defined.

Lemma X9_witness :
  w_heap registered_new !! 0 = Some (with_attr widget "__everest__" (VRef 1))
  ∧ ∃ w1 w2,
      reset 7 registered_new = (Return tt, w1)
      ∧ iterator 7 w1 = (([], None), w1)
      ∧ register_new 7 "Widget" 0 w1
        = (Raise (ValueError
                    "Trying to register a NEW entity that has already been registered!"),
           w1)
      ∧ unregister 7 "Widget" 0 w1 = (Raise (KeyError 0), w2)
      ∧ has_record w2 0.
Proof.
  assert (w_heap registered_new !! 0 = Some (with_attr widget "__everest__" (VRef 1)))
    as Ho by (vm_compute; reflexivity).
  split; [done|].
  exact (X9_after_reset registered_new 7 "Widget" 0 _ (VRef 1)
           Ho (lookup_insert_eq _ _ _)).
Defined.

Lemma X10_witness :
  w_heap clone_renamed !! 1
  = Some (Object Widget {[ "id" := VNone; "name" := VStr "b"; "__everest__" := VRef 2 ]})
  ∧ w_heap clone_renamed !! 0 = Some widget
  ∧ ∃ w' oa',
      (data ← get_state_data 1; set_state_data 0 data) clone_renamed = (Return tt, w')
      ∧ w_heap w' !! 0 = Some oa'
      ∧ ob_dict oa' !! "name" = Some (VStr "b")
      ∧ ob_dict oa' !! "__everest__" = None.
Proof.
  assert (w_heap clone_renamed !! 1
          = Some (Object Widget
                    {[ "id" := VNone; "name" := VStr "b"; "__everest__" := VRef 2 ]}))
    as Ho by (vm_compute; reflexivity).
  assert (w_heap clone_renamed !! 0 = Some widget) as Ha by (vm_compute; reflexivity).
  split_and!; [done..|].
  destruct (X10_state_data_copy clone_renamed 1 0 _ _ Ho Ha)
    as (w' & oa' & Hrun & Hoa' & _ & Hpub & Hother & _).
  exists w', oa'. split_and!; [done..| |].
  - apply Hpub; [done|]. vm_compute. reflexivity.
  - rewrite Hother by (by left). vm_compute. reflexivity.
Defined.

Lemma X12_witness :
  ob_class widget1 = ob_class widget
  ∧ Entity.__eq__ widget1 widget1 = true
  ∧ Entity.__eq__ widget1 widget = Entity.__eq__ widget widget1
  ∧ Entity.__ne__ widget1 widget = true.
Proof.
  assert (ob_class widget1 = ob_class widget) as Hc by reflexivity.
  destruct (X12_equality_within_a_class widget1 widget widget1 Hc (eq_sym Hc))
    as (Hrefl & Hsym & _ & Hne).
  split_and!; [done..|]. rewrite Hne. reflexivity.
Defined.

End more_runs.

(** * Properties of [CsvData] *)

Module CsvFacts.
Import Csv.

Lemma bind_done {A B} (m : C A) (f : A → C B) h a h' :
  m h = (Done a, h') → (m ≫= f) h = f a h'.
Proof. intros Hm. unfold mbind, C_bind. by rewrite Hm. Qed.

Lemma alloc_run h o :
  alloc o h = (Done (fresh (dom h)), <[fresh (dom h) := o]> h).
Proof. done. Qed.

Lemma fresh_None (h : gmap addr pyobj) : h !! fresh (dom h) = None.
Proof. apply not_elem_of_dom, is_fresh. Qed.

Lemma get_fields_run h c f d :
  h !! c = Some (Instance f d) → get_fields c h = (Done f, h).
Proof. intros Hc. unfold get_fields. by rewrite Hc. Qed.

Lemma get_data_run h c f d :
  h !! c = Some (Instance f d) → get_data c h = (Done d, h).
Proof. intros Hc. unfold get_data. by rewrite Hc. Qed.

Lemma set_fields_run h c f d f' :
  h !! c = Some (Instance f d) →
  set_fields c f' h = (Done tt, <[c := Instance f' d]> h).
Proof. intros Hc. unfold set_fields. by rewrite Hc. Qed.

Lemma set_data_run h c f d d' :
  h !! c = Some (Instance f d) →
  set_data c d' h = (Done tt, <[c := Instance f d']> h).
Proof. intros Hc. unfold set_data. by rewrite Hc. Qed.

Lemma names_run h a l : h !! a = Some (Names l) → names a h = (Done l, h).
Proof. intros Ha. unfold names. by rewrite Ha. Qed.

Lemma rows_run h a l : h !! a = Some (Rows l) → rows a h = (Done l, h).
Proof. intros Ha. unfold rows. by rewrite Ha. Qed.

Lemma row_run h a l : h !! a = Some (Row l) → row a h = (Done l, h).
Proof. intros Ha. unfold row. by rewrite Ha. Qed.

Lemma names_append_run h a l x :
  h !! a = Some (Names l) →
  names_append a x h = (Done tt, <[a := Names (l ++ [x])]> h).
Proof. intros Ha. unfold names_append. by rewrite (bind_done _ _ _ _ _ (names_run _ _ _ Ha)). Qed.

Lemma rows_append_run h a l x :
  h !! a = Some (Rows l) →
  rows_append a x h = (Done tt, <[a := Rows (l ++ [x])]> h).
Proof. intros Ha. unfold rows_append. by rewrite (bind_done _ _ _ _ _ (rows_run _ _ _ Ha)). Qed.

Lemma row_append_run h a l x :
  h !! a = Some (Row l) →
  row_append a x h = (Done tt, <[a := Row (l ++ [x])]> h).
Proof. intros Ha. unfold row_append. by rewrite (bind_done _ _ _ _ _ (row_run _ _ _ Ha)). Qed.

(** The loop of [append]: the rows of the other list join the list [d]. *)
Lemma append_loop h c f d l ol :
  h !! c = Some (Instance f d) →
  h !! d = Some (Rows l) →
  each ol (λ r, d' ← get_data c; rows_append d' r) h
  = (Done tt, <[d := Rows (l ++ ol)]> h).
Proof.
  revert h l. induction ol as [|r ol IH]; intros h l Hc Hd; simpl.
  - unfold mret, C_ret. by rewrite app_nil_r, insert_id.
  - assert (c ≠ d) as Hcd by (intros ->; congruence).
    assert ((d' ← get_data c; rows_append d' r) h
            = (Done tt, <[d := Rows (l ++ [r])]> h)) as Hstep.
    { rewrite (bind_done _ _ _ _ _ (get_data_run _ _ _ _ Hc)).
      by apply rows_append_run. }
    rewrite (bind_done _ _ _ _ _ Hstep).
    rewrite (IH _ (l ++ [r])%list).
    + by rewrite insert_insert_eq, <- app_assoc.
    + by rewrite lookup_insert_ne.
    + apply lookup_insert_eq.
Qed.

Lemma len_run h c f d l :
  h !! c = Some (Instance f d) → h !! d = Some (Rows l) →
  __len__ c h = (Done (length l), h).
Proof.
  intros Hc Hd. unfold __len__.
  rewrite (bind_done _ _ _ _ _ (get_data_run _ _ _ _ Hc)).
  by rewrite (bind_done _ _ _ _ _ (rows_run _ _ _ Hd)).
Qed.

Lemma append_run h c other f d og od l ol :
  h !! c = Some (Instance f d) →
  h !! d = Some (Rows l) →
  h !! other = Some (Instance og od) →
  h !! od = Some (Rows ol) →
  append c other h
  = if bool_decide (l = []) then (Done tt, <[c := Instance og od]> h)
    else if bool_decide (od = d) then (Loops, h)
    else (Done tt, <[d := Rows (l ++ ol)]> h).
Proof.
  intros Hc Hd Ho Hod. unfold append.
  rewrite (bind_done _ _ _ _ _ (get_data_run _ _ _ _ Hc)).
  rewrite (bind_done _ _ _ _ _ (rows_run _ _ _ Hd)).
  destruct l as [|r l]; simpl.
  - rewrite (bind_done _ _ _ _ _ (get_data_run _ _ _ _ Ho)).
    rewrite (bind_done _ _ _ _ _ (set_data_run _ _ _ _ _ Hc)).
    assert (<[c := Instance f od]> h !! other
            = Some (Instance (if decide (other = c) then f else og) od)) as Ho'.
    { case_decide as Heq.
      - subst. apply lookup_insert_eq.
      - by rewrite lookup_insert_ne. }
    rewrite (bind_done _ _ _ _ _ (get_fields_run _ _ _ _ Ho')).
    erewrite set_fields_run by apply lookup_insert_eq.
    rewrite insert_insert_eq. case_decide; [|done]. by simplify_eq.
  - rewrite (bind_done _ _ _ _ _ (get_data_run _ _ _ _ Ho)).
    rewrite (bind_done _ _ _ _ _ (rows_run _ _ _ Hod)).
    case_bool_decide; [done|]. by apply (append_loop h c f d (r :: l) ol).
Qed.

Lemma view_Some h c fl rc :
  view h c = Some (fl, rc) ↔
  ∃ f d l, h !! c = Some (Instance f d) ∧ h !! f = Some (Names fl)
         ∧ h !! d = Some (Rows l)
         ∧ Forall2 (λ a r, h !! a = Some (Row r)) l rc.
Proof.
  unfold view. split.
  - destruct (h !! c) as [[f d| | |]|] eqn:Hc; try done.
    destruct (h !! f) as [[|nl| |]|] eqn:Hf; try done.
    destruct (h !! d) as [[| |l|]|] eqn:Hd; try done.
    destruct (mapM (row_of h) l) as [rs|] eqn:Hrs; simpl; [|done].
    intros [= <- <-]. exists f, d, l. split_and!; [done..|].
    apply mapM_Some in Hrs. eapply Forall2_impl; [done|].
    intros a r. unfold row_of. by destruct (h !! a) as [[]|]; intros [= ->].
  - intros (f & d & l & -> & -> & -> & Hrows).
    assert (mapM (row_of h) l = Some rc) as ->; [|done].
    apply mapM_Some. eapply Forall2_impl; [done|].
    intros a r Ha. unfold row_of. by rewrite Ha.
Qed.

Lemma frame_one_elim x h h' a :
  frame [x] h h' → a ≠ x → is_Some (h !! a) → h' !! a = h !! a.
Proof. intros Hframe Ha. apply Hframe. by intros ->%list_elem_of_singleton. Qed.

Lemma frame_one_intro x h h' :
  (∀ a, a ≠ x → is_Some (h !! a) → h' !! a = h !! a) → frame [x] h h'.
Proof.
  intros Hframe a Ha. apply Hframe. intros ->. by apply Ha, list_elem_of_singleton.
Qed.

Lemma frame_lookup xs h h' a o :
  frame xs h h' → a ∉ xs → h !! a = Some o → h' !! a = Some o.
Proof. intros Hframe Ha Hao. rewrite Hframe; [done..|]. by rewrite Hao. Qed.

Lemma Forall2_list_prod {A B A' B'} (P : A → A' → Prop) (Q : B → B' → Prop)
    l l' k k' :
  Forall2 P l l' → Forall2 Q k k' →
  Forall2 (λ p q, P p.1 q.1 ∧ Q p.2 q.2) (list_prod l k) (list_prod l' k').
Proof.
  intros Hl Hk. induction Hl as [|x x' l l' Hx Hl IH]; simpl; [constructor|].
  apply Forall2_app; [|done].
  clear IH Hl. induction Hk; simpl; constructor; auto.
Qed.

(** The loop of [expand] over the pairs of rows. *)
Lemma expand_loop ps cs h nd acc :
  h !! nd = Some (Rows acc) →
  Forall2 (λ p c, h !! p.1 = Some (Row c.1) ∧ h !! p.2 = Some (Row c.2)) ps cs →
  ∃ h' new,
    each ps (λ p,
      self_row ← row p.1;
      other_row ← row p.2;
      r ← alloc (Row (self_row ++ other_row)%list);
      rows_append nd r) h = (Done tt, h')
    ∧ h' !! nd = Some (Rows (acc ++ new))
    ∧ Forall2 (λ a c, h' !! a = Some (Row (c.1 ++ c.2))) new cs
    ∧ Forall (λ a, h !! a = None) new
    ∧ frame [nd] h h'.
Proof.
  revert cs h acc.
  induction ps as [|p ps IH]; intros cs h acc Hnd Hps;
    inversion Hps as [|? c ? cs' [Hp1 Hp2] Hrest]; subst; simpl.
  - exists h, []. rewrite app_nil_r. split_and!; [done|done|constructor|constructor|].
    by intros a _ _.
  - set (r := fresh (dom h)).
    assert (h !! r = None) as Hr by apply fresh_None.
    assert (r ≠ nd) as Hrnd by (intros Heq; rewrite Heq in Hr; congruence).
    set (h3 := <[nd := Rows (acc ++ [r])]> (<[r := Row (c.1 ++ c.2)]> h)).
    assert ((self_row ← row p.1; other_row ← row p.2;
             r ← alloc (Row (self_row ++ other_row)%list);
             rows_append nd r) h = (Done tt, h3)) as Hstep.
    { rewrite (bind_done _ _ _ _ _ (row_run _ _ _ Hp1)).
      rewrite (bind_done _ _ _ _ _ (row_run _ _ _ Hp2)).
      rewrite (bind_done _ _ _ _ _ (alloc_run _ _)).
      apply rows_append_run. by rewrite lookup_insert_ne. }
    rewrite (bind_done _ _ _ _ _ Hstep).
    assert (∀ a o, h !! a = Some (Row o) → h3 !! a = Some (Row o)) as Hkeep.
    { intros a o Ha. unfold h3.
      rewrite lookup_insert_ne by (intros <-; congruence).
      rewrite lookup_insert_ne by (intros <-; congruence). done. }
    destruct (IH cs' h3 (acc ++ [r])%list)
      as (h' & new & Hrun & Hnd' & Hnew & Hfresh & Hframe0).
    { apply lookup_insert_eq. }
    { eapply Forall2_impl; [exact Hrest|]. intros q e [H1 H2]. split; by apply Hkeep. }
    pose proof (λ a, frame_one_elim _ _ _ a Hframe0) as Hframe.
    exists h', (r :: new). split_and!.
    + done.
    + by rewrite Hnd', <- app_assoc.
    + constructor; [|done]. rewrite Hframe; [|done|].
      * unfold h3. rewrite lookup_insert_ne by done. apply lookup_insert_eq.
      * unfold h3. rewrite lookup_insert_ne by done. by rewrite lookup_insert_eq.
    + constructor; [done|]. eapply Forall_impl; [exact Hfresh|].
      intros a Ha. unfold h3 in Ha.
      destruct (decide (a = nd)) as [->|]; [by rewrite lookup_insert_eq in Ha|].
      rewrite lookup_insert_ne in Ha by done.
      destruct (decide (a = r)) as [->|]; [done|].
      by rewrite lookup_insert_ne in Ha.
    + apply frame_one_intro. intros a Ha Hsome. rewrite Hframe; [|done|].
      * unfold h3. rewrite lookup_insert_ne by done.
        rewrite lookup_insert_ne; [done|]. intros <-. rewrite Hr in Hsome. by destruct Hsome.
      * unfold h3. rewrite lookup_insert_ne by done.
        rewrite lookup_insert_ne; [done|]. intros <-. rewrite Hr in Hsome. by destruct Hsome.
Qed.

Lemma lookup_insert_fresh (h : gmap addr pyobj) a o x :
  h !! a = Some o → <[fresh (dom h) := x]> h !! a = Some o.
Proof.
  intros Ha. rewrite lookup_insert_ne; [done|].
  intros <-. by rewrite fresh_None in Ha.
Qed.

Lemma expand_run h c other f d l fl og od ol ofl rc sc :
  h !! c = Some (Instance f d) → h !! f = Some (Names fl) →
  h !! d = Some (Rows l) →
  Forall2 (λ a r, h !! a = Some (Row r)) l rc →
  h !! other = Some (Instance og od) → h !! og = Some (Names ofl) →
  h !! od = Some (Rows ol) →
  Forall2 (λ a r, h !! a = Some (Row r)) ol sc →
  ∃ h' nf nd nl,
    expand c other h = (Done tt, h')
    ∧ h' !! c = Some (Instance nf nd)
    ∧ h !! nf = None
    ∧ h' !! nf = Some (Names (fl ++ ofl))
    ∧ h' !! nd = Some (Rows nl)
    ∧ Forall2 (λ a r, h' !! a = Some (Row r)) nl
        (if bool_decide (l = []) then sc
         else (λ p, (p.1 ++ p.2)%list) <$> list_prod rc sc)
    ∧ (if bool_decide (l = []) then nd = od else h !! nd = None)
    ∧ frame [c] h h'.
Proof.
  intros Hc Hf Hd Hl Ho Hog Hod Hol. unfold expand.
  rewrite (bind_done _ _ _ _ _ (get_data_run _ _ _ _ Hc)).
  rewrite (bind_done _ _ _ _ _ (rows_run _ _ _ Hd)).
  assert (og = f ∨ other ≠ c) as Hog'.
  { destruct (decide (other = c)) as [->|]; [left; congruence|by right]. }
  (* the part after the assignment to [self.data] *)
  assert (∀ h1 nd, h1 !! c = Some (Instance f nd) →
            (∀ a o, a ≠ c → h !! a = Some o → h1 !! a = Some o) →
            (∀ a, a ≠ c → a ≠ nd → h1 !! a = None → h !! a = None) →
            ∃ nf,
              (f ← get_fields c; fl ← names f; other_f ← get_fields other;
               ofl ← names other_f; nf ← alloc (Names (fl ++ ofl)%list);
               set_fields c nf) h1
              = (Done tt, <[c := Instance nf nd]> (<[nf := Names (fl ++ ofl)]> h1))
              ∧ h1 !! nf = None ∧ nf ≠ c ∧ (nf ≠ nd → h !! nf = None)) as Htail.
  { intros h1 nd Hc1 Hkeep Hnone. exists (fresh (dom h1)).
    assert (f ≠ c) as Hfc by (intros ->; congruence).
    assert (og ≠ c) as Hogc by (intros ->; congruence).
    assert (h1 !! other = Some (Instance og (if decide (other = c) then nd else od)))
      as Ho1.
    { case_decide as Heq; [subst; congruence|by apply Hkeep]. }
    rewrite (bind_done _ _ _ _ _ (get_fields_run _ _ _ _ Hc1)).
    rewrite (bind_done _ _ _ _ _ (names_run _ _ _ (Hkeep _ _ Hfc Hf))).
    rewrite (bind_done _ _ _ _ _ (get_fields_run _ _ _ _ Ho1)).
    rewrite (bind_done _ _ _ _ _ (names_run _ _ _ (Hkeep _ _ Hogc Hog))).
    rewrite (bind_done _ _ _ _ _ (alloc_run _ _)).
    assert (fresh (dom h1) ≠ c) as Hnfc.
    { intros Heq. pose proof (fresh_None h1) as Hn. rewrite Heq in Hn. congruence. }
    split_and!.
    - apply (set_fields_run _ _ f). by rewrite lookup_insert_ne.
    - apply fresh_None.
    - done.
    - intros Hne. apply Hnone; [done|done|apply fresh_None]. }
  destruct l as [|a l]; simpl.
  - (* no rows: the list of the other instance is taken over *)
    inversion Hl; subst.
    assert ((od0 ← get_data other; set_data c od0) h
            = (Done tt, <[c := Instance f od]> h)) as Hdata.
    { rewrite (bind_done _ _ _ _ _ (get_data_run _ _ _ _ Ho)).
      by apply (set_data_run _ _ f d). }
    rewrite (bind_done _ _ _ _ _ Hdata).
    destruct (Htail (<[c := Instance f od]> h) od) as (nf & -> & Hnf & Hnfc & Hnfh).
    { apply lookup_insert_eq. }
    { intros x o Hx Hxo. by rewrite lookup_insert_ne. }
    { intros x Hx _ Hxn. by rewrite lookup_insert_ne in Hxn. }
    assert (od ≠ c) as Hodc by (intros ->; congruence).
    assert (h !! nf = None) as Hnfn by (by rewrite lookup_insert_ne in Hnf).
    assert (od ≠ nf) as Hodnf by (intros ->; congruence).
    eexists. exists nf, od, ol. split_and!.
    + done.
    + apply lookup_insert_eq.
    + done.
    + rewrite lookup_insert_ne by done. apply lookup_insert_eq.
    + by rewrite !lookup_insert_ne.
    + eapply Forall2_impl; [exact Hol|]. intros x r Hx.
      rewrite !lookup_insert_ne; [done|congruence..].
    + done.
    + apply frame_one_intro. intros x Hx [o Hxo].
      rewrite !lookup_insert_ne; [done|congruence..].
  - (* rows: new rows for the product, in a new list *)
    set (nd := fresh (dom h)).
    assert (h !! nd = None) as Hnd by apply fresh_None.
    destruct (expand_loop (list_prod (a :: l) ol) (list_prod rc sc)
                (<[nd := Rows []]> h) nd [])
      as (h2 & new & Hrun & Hnd2 & Hnew & Hfresh & Hframe0).
    { apply lookup_insert_eq. }
    { eapply Forall2_impl.
      - apply (Forall2_list_prod _ _ _ _ _ _ Hl Hol).
      - intros p q [H1 H2]. split; by apply lookup_insert_fresh. }
    pose proof (λ a, frame_one_elim _ _ _ a Hframe0) as Hframe.
    assert (nd ≠ c) as Hndc by (intros Heq; rewrite Heq in Hnd; congruence).
    assert (∀ x o, h !! x = Some o → h2 !! x = Some o) as Hkeep2.
    { intros x o Hxo. assert (x ≠ nd) by (intros ->; congruence).
      rewrite Hframe; [|done|].
      - by rewrite lookup_insert_ne.
      - rewrite lookup_insert_ne by done. by rewrite Hxo. }
    assert ((new_data ← alloc (Rows []); od0 ← get_data other; ol0 ← rows od0;
             each (list_prod (a :: l) ol0) (λ p,
               self_row ← row p.1; other_row ← row p.2;
               r ← alloc (Row (self_row ++ other_row)%list);
               rows_append new_data r) ;;
             set_data c new_data) h
            = (Done tt, <[c := Instance f nd]> h2)) as Hdata.
    { rewrite (bind_done _ _ _ _ _ (alloc_run _ _)). fold nd.
      rewrite (bind_done _ _ _ _ _
                 (get_data_run _ _ _ _ (lookup_insert_fresh _ _ _ _ Ho))).
      rewrite (bind_done _ _ _ _ _
                 (rows_run _ _ _ (lookup_insert_fresh _ _ _ _ Hod))).
      rewrite (bind_done _ _ _ _ _ Hrun).
      apply (set_data_run _ _ f d). by apply Hkeep2. }
    rewrite (bind_done _ _ _ _ _ Hdata).
    destruct (Htail (<[c := Instance f nd]> h2) nd) as (nf & -> & Hnf & Hnfc & Hnfh).
    { apply lookup_insert_eq. }
    { intros x o Hx Hxo. rewrite lookup_insert_ne by done. by apply Hkeep2. }
    { intros x Hx Hxnd Hxn. rewrite lookup_insert_ne in Hxn by done.
      destruct (h !! x) as [o|] eqn:Hxo; [|done].
      rewrite (Hkeep2 _ _ Hxo) in Hxn. done. }
    assert (nf ≠ nd) as Hnfnd.
    { intros ->. rewrite lookup_insert_ne in Hnf by done. congruence. }
    eexists. exists nf, nd, new. split_and!.
    + done.
    + apply lookup_insert_eq.
    + by apply Hnfh.
    + rewrite lookup_insert_ne by done. apply lookup_insert_eq.
    + by rewrite !lookup_insert_ne.
    + apply Forall2_fmap_r. eapply Forall2_impl; [exact Hnew|].
      intros x q Hx. simpl.
      assert (x ≠ c).
      { intros ->. rewrite (Hkeep2 _ _ Hc) in Hx. done. }
      assert (x ≠ nf).
      { intros ->. rewrite lookup_insert_ne in Hnf by done. congruence. }
      by rewrite !lookup_insert_ne.
    + done.
    + apply frame_one_intro. intros x Hx [o Hxo].
      assert (x ≠ nf) by (intros ->; rewrite Hnfh in Hxo; done).
      rewrite !lookup_insert_ne by done. rewrite Hxo. by apply Hkeep2.
Qed.

Lemma view_frame h h' c f0 d0 x v :
  h !! c = Some (Instance f0 d0) →
  frame [c] h h' → x ≠ c → view h x = Some v → view h' x = Some v.
Proof.
  intros Hc0 Hframe0 Hx.
  pose proof (λ a, frame_one_elim _ _ _ a Hframe0) as Hframe. destruct v as [fl rc]. rewrite !view_Some.
  intros (f & d & l & Hc & Hf & Hd & Hl).
  assert (∀ a o, h !! a = Some o → a ≠ c → h' !! a = Some o) as Hkeep.
  { intros a o Ha Hne. rewrite Hframe; [done..|]. by rewrite Ha. }
  exists f, d, l. split_and!.
  - by apply Hkeep.
  - apply Hkeep; [done|]. intros ->. congruence.
  - apply Hkeep; [done|]. intros ->. congruence.
  - eapply Forall2_impl; [exact Hl|]. intros a r Ha.
    apply Hkeep; [done|]. intros ->. congruence.
Qed.

Lemma Forall2_impl_elem {A B} (P Q : A → B → Prop) l k :
  Forall2 P l k → (∀ x y, x ∈ l → P x y → Q x y) → Forall2 Q l k.
Proof.
  intros HP. induction HP as [|x y l k Hxy HP IH]; intros HPQ; constructor.
  - apply HPQ; [left|done].
  - apply IH. intros x' y' Hin. apply HPQ. by right.
Qed.

Lemma Forall2_elem_l {A B} (P : A → B → Prop) l k x :
  Forall2 P l k → x ∈ l → ∃ y, P x y.
Proof.
  intros HP. induction HP as [|x' y l k Hxy HP IH]; intros Hin.
  - by apply not_elem_of_nil in Hin.
  - apply elem_of_cons in Hin as [->|Hin]; [by exists y|by apply IH].
Qed.

(** The loop of the constructor over the rows. *)
Lemma row_loop l rc v h :
  NoDup l →
  Forall2 (λ a r, h !! a = Some (Row r)) l rc →
  ∃ h', each l (λ r, row_append r v) h = (Done tt, h')
      ∧ Forall2 (λ a r, h' !! a = Some (Row r)) l ((λ r, (r ++ [v])%list) <$> rc)
      ∧ frame l h h'.
Proof.
  revert rc h. induction l as [|a l IH]; intros rc h Hnd Hl;
    inversion Hl as [|? r ? rc' Ha Hrest]; subst; simpl.
  - exists h. split_and!; [done|constructor|]. by intros a _ _.
  - apply NoDup_cons in Hnd as [Hal Hnd].
    rewrite (bind_done _ _ _ _ _ (row_append_run _ _ _ v Ha)).
    destruct (IH rc' (<[a := Row (r ++ [v])]> h)) as (h' & Hrun & Hrows & Hframe);
      [done| |].
    { eapply Forall2_impl_elem; [exact Hrest|]. intros x y Hx Hxy. simpl.
      rewrite lookup_insert_ne; [done|]. by intros <-. }
    exists h'. split_and!.
    + done.
    + constructor; [|done]. rewrite Hframe; [apply lookup_insert_eq|done|].
      by rewrite lookup_insert_eq.
    + intros x Hx Hsome. apply not_elem_of_cons in Hx as [Hxa Hxl].
      rewrite Hframe; [|done|].
      * by rewrite lookup_insert_ne.
      * by rewrite lookup_insert_ne.
Qed.

(** One item that is not a [CsvData]. *)
Lemma init_plain_run h c f d ns l rc k v :
  h !! c = Some (Instance f d) → h !! f = Some (Names ns) →
  h !! d = Some (Rows l) →
  Forall2 (λ a r, h !! a = Some (Row r)) l rc →
  NoDup l →
  ∃ h' l',
    init_item c (k, Plain v) h = (Done tt, h')
    ∧ h' !! c = Some (Instance f d)
    ∧ h' !! f = Some (Names (ns ++ [k]))
    ∧ h' !! d = Some (Rows l')
    ∧ Forall2 (λ a r, h' !! a = Some (Row r)) l' (with_values rc [v])
    ∧ NoDup l'
    ∧ (∀ a, a ∈ l' → a ∈ l ∨ h !! a = None)
    ∧ frame (f :: d :: l) h h'.
Proof.
  intros Hc Hf Hd Hl Hnd. unfold init_item. simpl.
  assert (c ≠ f) as Hcf by (intros ->; congruence).
  assert (c ≠ d) as Hcd by (intros ->; congruence).
  assert (f ≠ d) as Hfd by (intros ->; congruence).
  set (h1 := <[f := Names (ns ++ [k])]> h).
  assert (h1 !! c = Some (Instance f d)) as Hc1 by (by unfold h1; rewrite lookup_insert_ne).
  assert (h1 !! d = Some (Rows l)) as Hd1 by (by unfold h1; rewrite lookup_insert_ne).
  assert (h1 !! f = Some (Names (ns ++ [k]))) as Hf1 by apply lookup_insert_eq.
  rewrite (bind_done _ _ _ _ _ (get_fields_run _ _ _ _ Hc)).
  assert ((names_append f k) h = (Done tt, h1)) as Hnames by (by apply names_append_run).
  rewrite (bind_done _ _ _ _ _ Hnames).
  rewrite (bind_done _ _ _ _ _ (get_data_run _ _ _ _ Hc1)).
  rewrite (bind_done _ _ _ _ _ (rows_run _ _ _ Hd1)).
  destruct l as [|a l]; [simpl|].
  - inversion Hl; subst.
    set (r := fresh (dom h1)).
    assert (h1 !! r = None) as Hr by apply fresh_None.
    rewrite (bind_done _ _ _ _ _ (alloc_run _ _)). fold r.
    rewrite (bind_done _ _ _ _ _
               (get_data_run _ _ _ _ (lookup_insert_fresh _ _ _ _ Hc1))).
    rewrite (rows_append_run _ _ _ _ (lookup_insert_fresh _ _ _ _ Hd1)).
    assert (r ≠ c) by (intros Heq; rewrite Heq in Hr; congruence).
    assert (r ≠ d) by (intros Heq; rewrite Heq in Hr; congruence).
    assert (r ≠ f) by (intros Heq; rewrite Heq in Hr; congruence).
    eexists. exists [r]. split_and!.
    + done.
    + by rewrite !lookup_insert_ne.
    + by rewrite !lookup_insert_ne.
    + apply lookup_insert_eq.
    + simpl. constructor; [|constructor].
      rewrite lookup_insert_ne by done. apply lookup_insert_eq.
    + apply NoDup_singleton.
    + intros x ->%list_elem_of_singleton. right.
      unfold h1 in Hr. by rewrite lookup_insert_ne in Hr.
    + intros x Hx [o Hxo].
      apply not_elem_of_cons in Hx as [Hxf Hx].
      apply not_elem_of_cons in Hx as [Hxd _].
      assert (x ≠ r).
      { intros ->. unfold h1 in Hr. rewrite lookup_insert_ne in Hr by done. congruence. }
      unfold h1. by rewrite !lookup_insert_ne.
  - destruct (row_loop (a :: l) rc v h1) as (h' & Hrun & Hrows & Hframe); [done| |].
    { eapply Forall2_impl; [exact Hl|]. intros x y Hx. simpl. unfold h1.
      rewrite lookup_insert_ne; [done|]. intros <-. congruence. }
    assert (∀ x o, h1 !! x = Some o → (∀ y, o ≠ Row y) → h' !! x = Some o) as Hkeep.
    { intros x o Hx Ho. eapply frame_lookup; [done| |done].
      intros Hin. destruct (Forall2_elem_l _ _ _ _ Hl Hin) as (y & Hy).
      unfold h1 in Hx. destruct (decide (x = f)) as [->|]; [congruence|].
      rewrite lookup_insert_ne in Hx by done. rewrite Hy in Hx.
      injection Hx as <-. by eapply Ho. }
    change (bool_decide (length (a :: l) = 0)) with false. cbv iota.
    rewrite Hrun. exists h', (a :: l). split_and!.
    + done.
    + by apply Hkeep.
    + by apply Hkeep.
    + by apply Hkeep.
    + destruct rc as [|r0 rc]; [by inversion Hl|]. done.
    + done.
    + intros x Hx. by left.
    + intros x Hx [o Hxo].
      apply not_elem_of_cons in Hx as [Hxf Hx].
      apply not_elem_of_cons in Hx as [Hxd Hx].
      rewrite Hframe; [|done|].
      * unfold h1. by rewrite lookup_insert_ne.
      * unfold h1. rewrite lookup_insert_ne by done. by rewrite Hxo.
Qed.

Lemma with_values_cons rc v vs :
  with_values (with_values rc [v]) vs = with_values rc (v :: vs).
Proof.
  destruct vs as [|v' vs]; [done|]. destruct rc as [|r rc]; [done|].
  simpl. rewrite <- !app_assoc. f_equal.
  rewrite <- list_fmap_compose. apply list_fmap_ext.
  intros i y _. simpl. by rewrite <- app_assoc.
Qed.

(** The items that are not [CsvData], one after the other. *)
Lemma plain_items_run kvs h c f d ns l rc :
  h !! c = Some (Instance f d) → h !! f = Some (Names ns) →
  h !! d = Some (Rows l) →
  Forall2 (λ a r, h !! a = Some (Row r)) l rc →
  NoDup l →
  ∃ h' l',
    each (plain_items kvs) (init_item c) h = (Done tt, h')
    ∧ h' !! c = Some (Instance f d)
    ∧ h' !! f = Some (Names (ns ++ kvs.*1))
    ∧ h' !! d = Some (Rows l')
    ∧ Forall2 (λ a r, h' !! a = Some (Row r)) l' (with_values rc kvs.*2)
    ∧ NoDup l'
    ∧ (∀ a, a ∈ l' → a ∈ l ∨ h !! a = None)
    ∧ frame (f :: d :: l) h h'.
Proof.
  revert h ns l rc. induction kvs as [|[k v] kvs IH]; intros h ns l rc Hc Hf Hd Hl Hnd.
  - exists h, l. simpl. rewrite app_nil_r.
    split_and!; [done..|by left|by intros a _ _].
  - destruct (init_plain_run h c f d ns l rc k v)
      as (h1 & l1 & Hrun1 & Hc1 & Hf1 & Hd1 & Hl1 & Hnd1 & Hin1 & Hframe1); [done..|].
    destruct (IH h1 (ns ++ [k])%list l1 (with_values rc [v]))
      as (h' & l' & Hrun & Hc' & Hf' & Hd' & Hl' & Hnd' & Hin' & Hframe'); [done..|].
    exists h', l'. split_and!.
    + change (plain_items ((k, v) :: kvs)) with ((k, Plain v) :: plain_items kvs).
      simpl. by rewrite (bind_done _ _ _ _ _ Hrun1).
    + done.
    + rewrite Hf', <- app_assoc. by rewrite fmap_cons.
    + done.
    + rewrite fmap_cons. by rewrite <- with_values_cons.
    + done.
    + intros a Ha. destruct (Hin' a Ha) as [Ha1|Ha1]; [by apply Hin1|].
      destruct (h !! a) as [o|] eqn:Hao; [|by right]. left.
      destruct (decide (a ∈ f :: d :: l)) as [Hin|Hout].
      * apply elem_of_cons in Hin as [->|Hin]; [congruence|].
        apply elem_of_cons in Hin as [->|Hin]; [congruence|done].
      * rewrite (frame_lookup _ _ _ _ _ Hframe1 Hout Hao) in Ha1. done.
    + intros a Ha Hsome. rewrite <- (Hframe1 a Ha Hsome). apply Hframe'.
      * apply not_elem_of_cons in Ha as [Haf Ha].
        apply not_elem_of_cons in Ha as [Had Ha].
        apply not_elem_of_cons. split; [done|].
        apply not_elem_of_cons. split; [done|].
        intros Hin. destruct (Hin1 a Hin) as [?|Hn]; [done|].
        rewrite Hn in Hsome. by destruct Hsome.
      * by rewrite (Hframe1 a Ha Hsome).
Qed.

(** The start of the constructor: a new instance with two new, empty
    lists, on which the loop over the items runs. *)
Lemma init_start h :
  ∃ c f d h3,
    (∀ items,
       new (Some items) h = (each items (init_item c) ;; mret c) h3)
    ∧ h !! c = None ∧ h !! f = None ∧ h !! d = None
    ∧ h3 !! c = Some (Instance f d)
    ∧ h3 !! f = Some (Names [])
    ∧ h3 !! d = Some (Rows [])
    ∧ frame [] h h3.
Proof.
  set (c := fresh (dom h)). set (h0 := <[c := Instance 0 0]> h).
  set (f := fresh (dom h0)). set (h1 := <[f := Names []]> h0).
  set (d := fresh (dom h1)). set (h2 := <[d := Rows []]> h1).
  assert (h !! c = None) as Hc by apply fresh_None.
  assert (h0 !! f = None) as Hf by apply fresh_None.
  assert (h1 !! d = None) as Hd by apply fresh_None.
  assert (f ≠ c) as Hfc by (intros Heq; rewrite Heq in Hf; unfold h0 in Hf;
                            by rewrite lookup_insert_eq in Hf).
  assert (d ≠ f) as Hdf by (intros Heq; rewrite Heq in Hd; unfold h1 in Hd;
                            by rewrite lookup_insert_eq in Hd).
  assert (d ≠ c) as Hdc.
  { intros Heq. rewrite Heq in Hd. unfold h1, h0 in Hd.
    rewrite lookup_insert_ne in Hd by done. by rewrite lookup_insert_eq in Hd. }
  exists c, f, d, (<[c := Instance f d]> h2). split_and!.
  - done.
  - done.
  - unfold h0 in Hf. by rewrite lookup_insert_ne in Hf.
  - unfold h1, h0 in Hd. by rewrite !lookup_insert_ne in Hd.
  - apply lookup_insert_eq.
  - unfold h2, h1. rewrite !lookup_insert_ne by done. apply lookup_insert_eq.
  - unfold h2. rewrite lookup_insert_ne by done. apply lookup_insert_eq.
  - intros a _ [o Hao].
    assert (a ≠ c) by (intros ->; congruence).
    assert (a ≠ f).
    { intros ->. unfold h0 in Hf. rewrite lookup_insert_ne in Hf by done. congruence. }
    assert (a ≠ d).
    { intros ->. unfold h1, h0 in Hd. rewrite !lookup_insert_ne in Hd by done.
      congruence. }
    unfold h2, h1, h0. by rewrite !lookup_insert_ne.
Qed.

End CsvFacts.

Section csv_data.
Import Csv CsvFacts.

(** X13.  [append] onto an instance that has rows puts the row objects of
    the other instance at the end of its own list of rows and leaves its
    field names as they are, whatever those of the other are; nothing else
    changes.  Onto an instance without rows it makes the instance share
    both lists of the other.  When the other's list of rows is the
    instance's own, and not empty, it never returns. *)
Theorem X13_csv_append
    (h : gmap addr pyobj) (c other f d og od : addr) (l ol : list addr) :
  h !! c = Some (Instance f d) →
  h !! d = Some (Rows l) →
  h !! other = Some (Instance og od) →
  h !! od = Some (Rows ol) →
  (l ≠ [] → od ≠ d →
     ∃ h', append c other h = (Done tt, h')
         ∧ h' !! c = Some (Instance f d)
         ∧ h' !! d = Some (Rows (l ++ ol))
         ∧ (∀ a, a ≠ d → h' !! a = h !! a)
         ∧ __len__ c h' = (Done (length l + length ol), h'))
  ∧ (l ≠ [] → od = d → append c other h = (Loops, h))
  ∧ (l = [] →
     ∃ h', append c other h = (Done tt, h')
         ∧ h' !! c = Some (Instance og od)
         ∧ (∀ a, a ≠ c → h' !! a = h !! a)
         ∧ __len__ c h' = (Done (length ol), h')).
Proof.
  intros Hc Hd Ho Hod.
  pose proof (append_run h c other f d og od l ol Hc Hd Ho Hod) as Hrun.
  assert (c ≠ d) as Hcd by (intros ->; congruence).
  split_and!.
  - intros Hl Hne. rewrite !bool_decide_false in Hrun by done.
    eexists. split; [done|].
    assert (<[d := Rows (l ++ ol)]> h !! c = Some (Instance f d)) as Hc'
      by (by rewrite lookup_insert_ne).
    assert (<[d := Rows (l ++ ol)]> h !! d = Some (Rows (l ++ ol))) as Hd'
      by apply lookup_insert_eq.
    split_and!; [done|done| |].
    + intros a Ha. by rewrite lookup_insert_ne.
    + rewrite (len_run _ _ _ _ _ Hc' Hd'). by rewrite length_app.
  - intros Hl ->. rewrite bool_decide_false in Hrun by done.
    by rewrite bool_decide_true in Hrun.
  - intros ->. rewrite bool_decide_true in Hrun by done.
    eexists. split; [done|].
    assert (<[c := Instance og od]> h !! c = Some (Instance og od)) as Hc'
      by apply lookup_insert_eq.
    assert (od ≠ c) as Hoc by (intros ->; congruence).
    split_and!; [done| |].
    + intros a Ha. by rewrite lookup_insert_ne.
    + eapply len_run; [done|]. by rewrite lookup_insert_ne.
Qed.

(** X14.  Appending first [o1], then [o2], to an instance without rows
    changes [o1]: its list of rows, now also that of the instance, ends
    with the rows of [o2], and the instance's field names are the list of
    [o1].  Appending [o1] a second time instead never returns. *)
Theorem X14_csv_append_shares_the_first
    (h : gmap addr pyobj) (c o1 o2 f d f1 d1 f2 d2 : addr) (l1 l2 : list addr) :
  h !! c = Some (Instance f d) →
  h !! d = Some (Rows []) →
  h !! o1 = Some (Instance f1 d1) →
  h !! d1 = Some (Rows l1) →
  h !! o2 = Some (Instance f2 d2) →
  h !! d2 = Some (Rows l2) →
  l1 ≠ [] → c ≠ o1 → c ≠ o2 → d2 ≠ d1 →
  (∃ h', (append c o1 ;; append c o2) h = (Done tt, h')
       ∧ h' !! c = Some (Instance f1 d1)
       ∧ h' !! o1 = Some (Instance f1 d1)
       ∧ h' !! d1 = Some (Rows (l1 ++ l2))
       ∧ __len__ o1 h = (Done (length l1), h)
       ∧ __len__ o1 h' = (Done (length l1 + length l2), h'))
  ∧ (append c o1 ;; append c o1) h = (Loops, <[c := Instance f1 d1]> h).
Proof.
  intros Hc Hd Ho1 Hd1 Ho2 Hd2 Hl1 Hc1 Hc2 Hdd.
  pose proof (append_run h c o1 f d f1 d1 [] l1 Hc Hd Ho1 Hd1) as Hrun1.
  rewrite bool_decide_true in Hrun1 by done.
  set (h1 := <[c := Instance f1 d1]> h) in *.
  assert (d1 ≠ c) as Hd1c by (intros ->; congruence).
  assert (d2 ≠ c) as Hd2c by (intros ->; congruence).
  assert (h1 !! c = Some (Instance f1 d1)) as Hc' by apply lookup_insert_eq.
  assert (h1 !! d1 = Some (Rows l1)) as Hd1' by (unfold h1; by rewrite lookup_insert_ne).
  assert (h1 !! o1 = Some (Instance f1 d1)) as Ho1' by (unfold h1; by rewrite lookup_insert_ne).
  assert (h1 !! o2 = Some (Instance f2 d2)) as Ho2' by (unfold h1; by rewrite lookup_insert_ne).
  assert (h1 !! d2 = Some (Rows l2)) as Hd2' by (unfold h1; by rewrite lookup_insert_ne).
  split.
  - pose proof (append_run h1 c o2 f1 d1 f2 d2 l1 l2 Hc' Hd1' Ho2' Hd2') as Hrun2.
    rewrite !bool_decide_false in Hrun2 by done.
    eexists. rewrite (bind_done _ _ _ _ _ Hrun1). split; [done|].
    assert (c ≠ d1) by done. assert (o1 ≠ d1) by (intros ->; congruence).
    assert (<[d1 := Rows (l1 ++ l2)]> h1 !! o1 = Some (Instance f1 d1)) as Ho1''
      by (by rewrite lookup_insert_ne).
    split_and!.
    + by rewrite lookup_insert_ne.
    + done.
    + apply lookup_insert_eq.
    + by eapply len_run.
    + rewrite (len_run _ _ _ _ _ Ho1'' (lookup_insert_eq _ _ _)).
      by rewrite length_app.
  - pose proof (append_run h1 c o1 f1 d1 f1 d1 l1 l1 Hc' Hd1' Ho1' Hd1') as Hrun2.
    rewrite bool_decide_false in Hrun2 by done.
    rewrite bool_decide_true in Hrun2 by done.
    by rewrite (bind_done _ _ _ _ _ Hrun1).
Qed.

(** X15.  [expand] gives the instance the field names of both instances,
    in a new list.  With rows of its own, its rows become new rows, one for
    each pair of a row of its own and a row of the other, in the order of
    the product: no row is left when the other has none.  Without rows, its
    list of rows becomes the very list of the other.  No other object
    changes. *)
Theorem X15_csv_expand
    (h : gmap addr pyobj) (c other : addr)
    (fl ofl : list string) (rc sc : list (list value)) :
  view h c = Some (fl, rc) →
  view h other = Some (ofl, sc) →
  ∃ h',
    expand c other h = (Done tt, h')
    ∧ view h' c
      = Some ((fl ++ ofl)%list,
              if bool_decide (rc = []) then sc
              else (λ p, (p.1 ++ p.2)%list) <$> list_prod rc sc)
    ∧ __len__ c h'
      = (Done (if bool_decide (rc = []) then length sc
               else length rc * length sc), h')
    ∧ frame [c] h h'
    ∧ (other ≠ c → view h' other = Some (ofl, sc))
    ∧ ∃ nf nd, h' !! c = Some (Instance nf nd)
             ∧ h !! nf = None
             ∧ if bool_decide (rc = [])
               then ∃ og, h !! other = Some (Instance og nd)
               else h !! nd = None.
Proof.
  intros Hvc Hvo.
  pose proof Hvc as (f & d & l & Hc & Hf & Hd & Hl)%view_Some.
  pose proof Hvo as (og & od & ol & Ho & Hog & Hod & Hol)%view_Some.
  destruct (expand_run h c other f d l fl og od ol ofl rc sc)
    as (h' & nf & nd & nl & Hrun & Hc' & Hnf & Hnf' & Hnd' & Hnl & Hnd & Hframe);
    [done..|].
  assert (bool_decide (l = []) = bool_decide (rc = [])) as Hempty.
  { apply bool_decide_ext. split; intros ->; by inversion Hl. }
  rewrite Hempty in Hnl, Hnd.
  exists h'. split_and!.
  - done.
  - apply view_Some. by exists nf, nd, nl.
  - rewrite (len_run _ _ _ _ _ Hc' Hnd'). do 2 f_equal.
    rewrite (Forall2_length _ _ _ Hnl).
    destruct (bool_decide (rc = [])); [done|].
    by rewrite length_fmap, length_prod.
  - done.
  - intros Hne. by apply (view_frame h h' c f d).
  - exists nf, nd. split; [done|]. split; [done|].
    destruct (bool_decide (rc = [])); [|done]. subst nd. by exists og.
Qed.

(** X16.  Constructed from a mapping none of whose values is a [CsvData],
    an instance is a new object with the keys as field names, in the order
    of iteration, and one row with the values, or no row when the mapping
    is empty; without an argument it is as for the empty mapping.  No
    object that existed changes. *)
Theorem X16_csv_constructor_of_plain_values
    (h : gmap addr pyobj) (kvs : list (string * value)) :
  ∃ c h',
    new (Some (plain_items kvs)) h = (Done c, h')
    ∧ h !! c = None
    ∧ view h' c = Some (kvs.*1, if bool_decide (kvs = []) then [] else [kvs.*2])
    ∧ __len__ c h' = (Done (if bool_decide (kvs = []) then 0 else 1), h')
    ∧ frame [] h h'
    ∧ new None h = new (Some (plain_items [])) h.
Proof.
  destruct (init_start h)
    as (c & f & d & h3 & Hnew & Hc & Hf & Hd & Hc3 & Hf3 & Hd3 & Hframe3).
  destruct (plain_items_run kvs h3 c f d [] [] [])
    as (h' & l' & Hrun & Hc' & Hf' & Hd' & Hl' & Hnd' & Hin' & Hframe');
    [done|done|done|constructor|constructor|].
  assert (with_values [] kvs.*2 = if bool_decide (kvs = []) then [] else [kvs.*2])
    as Hvalues by (by destruct kvs).
  rewrite Hvalues in Hl'.
  exists c, h'. split_and!.
  - rewrite Hnew. by rewrite (bind_done _ _ _ _ _ Hrun).
  - done.
  - apply view_Some. by exists f, d, l'.
  - rewrite (len_run _ _ _ _ _ Hc' Hd'). do 2 f_equal.
    rewrite (Forall2_length _ _ _ Hl'). by destruct (bool_decide (kvs = [])).
  - intros a _ Hsome. rewrite <- (Hframe3 a); [|apply not_elem_of_nil|done].
    apply Hframe'.
    + apply not_elem_of_cons. split; [intros ->; rewrite Hf in Hsome; by destruct Hsome|].
      apply not_elem_of_cons. split; [intros ->; rewrite Hd in Hsome; by destruct Hsome|].
      apply not_elem_of_nil.
    + rewrite (Hframe3 a); [done|apply not_elem_of_nil|done].
  - done.
Qed.

(** X17.  Constructed from a mapping whose first item holds the [CsvData]
    [x] and whose other values are not [CsvData], the new instance takes
    the list of rows of [x] for its own, and the values that follow are
    added to the rows of [x] (or, when [x] has none, as one row to its
    list): afterwards [x] shows them as well, under its old field names. *)
Theorem X17_csv_constructor_writes_into_nested
    (h : gmap addr pyobj) (x : addr) (n : string)
    (xf : list string) (xr : list (list value)) (kvs : list (string * value)) :
  view h x = Some (xf, xr) →
  distinct_rows h x →
  ∃ c h',
    new (Some ((n, Nested x) :: plain_items kvs)) h = (Done c, h')
    ∧ h !! c = None
    ∧ view h' c = Some ((xf ++ kvs.*1)%list, with_values xr kvs.*2)
    ∧ view h' x = Some (xf, with_values xr kvs.*2).
Proof.
  intros (xfa & xd & xl & Hx & Hxf & Hxd & Hxl)%view_Some
         (xfa' & xd' & xl' & Hx' & Hxd' & Hnd).
  assert (xd' = xd) as -> by congruence. assert (xl' = xl) as -> by congruence.
  clear Hx' Hxd' xfa'.
  destruct (init_start h)
    as (c & f & d & h3 & Hnew & Hc & Hf & Hd & Hc3 & Hf3 & Hd3 & Hframe3).
  assert (∀ a o, h !! a = Some o → h3 !! a = Some o) as Hkeep3.
  { intros a o Ha. eapply frame_lookup; [done|apply not_elem_of_nil|done]. }
  destruct (expand_run h3 c x f d [] [] xfa xd xl xf [] xr)
    as (h4 & nf & nd & nl & Hrun4 & Hc4 & Hnf & Hnf4 & Hnd4 & Hnl & Hshare & Hframe4);
    [done|done|done|constructor|by apply Hkeep3..| |].
  { eapply Forall2_impl; [exact Hxl|]. intros a r Ha. by apply Hkeep3. }
  simpl in Hnl, Hshare, Hnf4. subst nd.
  assert (x ≠ c) as Hxc by (intros ->; congruence).
  assert (∀ a o, h !! a = Some o → h4 !! a = Some o) as Hkeep4.
  { intros a o Ha. eapply frame_lookup; [done| |by apply Hkeep3].
    intros ->%list_elem_of_singleton. congruence. }
  assert (nl = xl) as ->.
  { rewrite (Hkeep4 _ _ Hxd) in Hnd4. congruence. }
  destruct (plain_items_run kvs h4 c nf xd xf xl xr)
    as (h' & l' & Hrun & Hc' & Hf' & Hd' & Hl' & Hnd' & Hin' & Hframe'); [done..|].
  assert (∀ a o, h !! a = Some o → (∀ y, o ≠ Row y) → a ≠ xd → h' !! a = Some o)
    as Hkeep.
  { intros a o Ha Ho Hne. eapply frame_lookup; [done| |by apply Hkeep4].
    intros Hin. apply elem_of_cons in Hin as [->|Hin].
    { rewrite (Hkeep3 _ _ Ha) in Hnf. done. }
    apply elem_of_cons in Hin as [->|Hin]; [done|].
    destruct (Forall2_elem_l _ _ _ _ Hxl Hin) as (y & Hy).
    rewrite Hy in Ha. injection Ha as <-. by eapply Ho. }
  exists c, h'. split_and!.
  - assert (each ((n, Nested x) :: plain_items kvs) (init_item c) h3
            = (Done tt, h')) as Hall.
    { change (each ((n, Nested x) :: plain_items kvs) (init_item c))
        with (expand c x ;; each (plain_items kvs) (init_item c)).
      by rewrite (bind_done _ _ _ _ _ Hrun4). }
    rewrite Hnew. by rewrite (bind_done _ _ _ _ _ Hall).
  - done.
  - apply view_Some. by exists nf, xd, l'.
  - apply view_Some. exists xfa, xd, l'. split_and!; [| |done..].
    + apply Hkeep; [done|done|]. intros ->. congruence.
    + apply Hkeep; [done|done|]. intros ->. congruence.
Qed.

(** *** Runs of [CsvData] *)

Lemma X13_witness :
  (∃ h', append 0 4 CsvExample.two_tables = (Done tt, h')
       ∧ h' !! 2 = Some (Rows [3; 7])
       ∧ __len__ 0 h' = (Done 2, h'))
  ∧ append 0 0 CsvExample.two_tables = (Loops, CsvExample.two_tables).
Proof.
  split.
  - destruct (X13_csv_append CsvExample.two_tables 0 4 1 2 5 6 [3] [7])
      as (Hadd & _ & _); [by vm_compute..|].
    destruct Hadd as (h' & Hrun & _ & Hd & _ & Hlen); [done..|].
    by exists h'.
  - destruct (X13_csv_append CsvExample.two_tables 0 0 1 2 1 2 [3] [3])
      as (_ & Hloop & _); [by vm_compute..|].
    by apply Hloop.
Defined.

Lemma X14_witness :
  (∃ h', (append 0 3 ;; append 0 7) CsvExample.three_tables = (Done tt, h')
       ∧ __len__ 3 CsvExample.three_tables = (Done 1, CsvExample.three_tables)
       ∧ __len__ 3 h' = (Done 2, h'))
  ∧ (append 0 3 ;; append 0 3) CsvExample.three_tables
    = (Loops, <[0 := Instance 4 5]> CsvExample.three_tables).
Proof.
  destruct (X14_csv_append_shares_the_first
              CsvExample.three_tables 0 3 7 1 2 4 5 8 9 [6] [10])
    as ((h' & Hrun & _ & _ & _ & Hlen & Hlen') & Hloop);
    [by vm_compute..|done|done|done|done|].
  split; [|exact Hloop]. by exists h'.
Defined.

Lemma X15_witness :
  ∃ h', expand 0 4 CsvExample.two_tables = (Done tt, h')
      ∧ view h' 0 = Some (["a"; "b"], [[VInt 1; VInt 2]])
      ∧ view h' 4 = Some (["b"], [[VInt 2]]).
Proof.
  destruct (X15_csv_expand CsvExample.two_tables 0 4
              ["a"] ["b"] [[VInt 1]] [[VInt 2]])
    as (h' & Hrun & Hview & _ & _ & Hother & _); [by vm_compute..|].
  exists h'. split_and!; [done|exact Hview|by apply Hother].
Defined.

Lemma X17_witness :
  ∃ c h', new (Some [("n", Nested 0); ("k", Plain (VInt 5))]) CsvExample.two_tables
          = (Done c, h')
        ∧ view CsvExample.two_tables 0 = Some (["a"], [[VInt 1]])
        ∧ view h' 0 = Some (["a"], [[VInt 1; VInt 5]]).
Proof.
  destruct (X17_csv_constructor_writes_into_nested CsvExample.two_tables 0 "n"
              ["a"] [[VInt 1]] [("k", VInt 5)])
    as (c & h' & Hrun & _ & _ & Hview).
  - by vm_compute.
  - exists 1, 2, [3]. split_and!; [by vm_compute..|apply NoDup_singleton].
  - exists c, h'. split_and!; [exact Hrun|by vm_compute|exact Hview].
Defined.

End csv_data.
